(** * Caregiver stress-risk calculator: scoring pipeline and keep-alive probe

    A shallow embedding of [app.py] (the Streamlit scoring page), of
    [.github/workflows/wake_up_app.py] (the keep-alive script) and of
    [.github/scripts/wake_up_app.py] (the keep-alive probe), with the
    properties stated about them.

    Python's [float] is IEEE-754 binary64.  It is modelled by the Standard
    Library's [spec_float] with precision 53 and maximal exponent 1024, so
    that comparison, multiplication, addition and division round exactly as
    the interpreter does. *)

From Stdlib Require Import ZArith List String Ascii Bool Lia Permutation.
From Stdlib Require Import SpecFloat.
From Stdlib Require Import DecimalString DecimalN DecimalNat.
Import ListNotations.

Open Scope string_scope.
Open Scope Z_scope.

(* ------------------------------------------------------------------ *)
(** ** Python floats *)

Module PyFloat.

Definition prec : Z := 53.
Definition emax : Z := 1024.

Definition float : Type := spec_float.

Definition zero : float := S754_zero false.
Definition nan : float := S754_nan.

(** [float(n)] for a Python integer [n]: the nearest double, ties to
    even; an integer beyond the largest double comes out as an infinity
    here and is turned into [OverflowError] by [Py.py_float]. *)
Definition of_Z (z : Z) : float := binary_normalize prec emax z 0 false.

(** [1.0], which is [of_Z 1]. *)
Definition one : float := S754_finite false 4503599627370496 (-52).

Definition add : float -> float -> float := SFadd prec emax.
Definition mul : float -> float -> float := SFmul prec emax.
Definition div : float -> float -> float := SFdiv prec emax.
Definition opp : float -> float := SFopp.

(** The literal [n / 10^k] written in decimal, e.g. [0.30] is
    [decimal 30 2]: both operands are exact, so the quotient is the
    correctly rounded double the parser produces. *)
Definition decimal (n : Z) (k : nat) : float :=
  div (of_Z n) (of_Z (10 ^ Z.of_nat k)).

(** [x >= y], [x < y], [x <= y] and [x == y]: each is [False] as soon
    as one side is a NaN. *)
Definition ge (x y : float) : bool := SFleb y x.
Definition lt (x y : float) : bool := SFltb x y.
Definition le (x y : float) : bool := SFleb x y.
Definition eqb (x y : float) : bool := SFeqb x y.

Definition is_nan (x : float) : bool :=
  match x with S754_nan => true | _ => false end.

Definition is_finite (x : float) : bool :=
  match x with S754_zero _ | S754_finite _ _ _ => true | _ => false end.

(** *** Fixed-point formatting: [format(x, '.<d>f')] *)

(** [n / d] rounded to the nearest integer, ties to even ([n >= 0],
    [d > 0]). *)
Definition round_half_even (n d : Z) : Z :=
  let q := n / d in
  match 2 * (n mod d) ?= d with
  | Lt => q
  | Eq => if Z.even q then q else q + 1
  | Gt => q + 1
  end.

(** The integer nearest to [m * 2^e * 10^digits]. *)
Definition scaled (digits : nat) (m : positive) (e : Z) : Z :=
  match e with
  | Zneg p => round_half_even (Zpos m * 10 ^ Z.of_nat digits) (2 ^ Zpos p)
  | _ => Zpos m * 2 ^ e * 10 ^ Z.of_nat digits
  end.

Definition digits_of (n : Z) : string :=
  NilZero.string_of_uint (N.to_uint (Z.to_N n)).

Fixpoint zeros (n : nat) : string :=
  match n with
  | O => ""
  | S n' => String "0" (zeros n')
  end.

(** The decimal numeral of [n / 10^digits], with exactly [digits]
    digits after the point. *)
Definition render (digits : nat) (n : Z) : string :=
  let s := digits_of n in
  let s := zeros (S digits - String.length s) ++ s in
  let k := (String.length s - digits)%nat in
  match digits with
  | O => s
  | _ => substring 0 k s ++ "." ++ substring k digits s
  end.

Definition sign_str (s : bool) : string := if s then "-" else "".

Definition format_fixed (digits : nat) (x : float) : string :=
  match x with
  | S754_nan => "nan"
  | S754_infinity s => sign_str s ++ "inf"
  | S754_zero s => sign_str s ++ render digits 0
  | S754_finite s m e => sign_str s ++ render digits (scaled digits m e)
  end.

End PyFloat.

Import PyFloat.

(* ------------------------------------------------------------------ *)
(** ** Risk label and narrative ([risk_narrative], [app.py]) *)

Definition HIGH : string := "High stress risk".
Definition LOW : string := "Low stress risk".

Definition risk_narrative (prob thr : float) : string * string :=
  let pct := format_fixed 1 (mul prob (of_Z 100)) ++ "%" in
  if ge prob thr then
    (HIGH,
     "Predicted probability of caregiver stress is " ++ pct
       ++ " (≥ threshold " ++ format_fixed 2 thr ++ "). "
       ++ "This screening suggests a high risk of stress. ")
  else
    (LOW,
     "Predicted probability of caregiver stress is " ++ pct
       ++ " (< threshold " ++ format_fixed 2 thr ++ "). "
       ++ "No immediate concern indicated by this model.").

(** [pred = int(prob >= thr)] *)
Definition predicted_label (prob thr : float) : Z := Z.b2z (ge prob thr).

(** [needle in hay] for strings. *)
Fixpoint contains (needle hay : string) : bool :=
  if String.prefix needle hay then true
  else match hay with
       | EmptyString => false
       | String _ rest => contains needle rest
       end.

(* ------------------------------------------------------------------ *)
(** ** Python values: exceptions, [repr], dictionaries *)

Module Py.

(** An exception: its class and [str(e)]. *)
Inductive exn_class :=
| ValueError | RuntimeError | TypeError | KeyError | IndexError
| AttributeError | OverflowError | OSError | JSONDecodeError
| TimeoutException | WebDriverException
| LibraryError.

Record exn := mk_exn { exn_kind : exn_class; exn_str : string }.

(** A computation that returns or raises. *)
Inductive result (A : Type) :=
| Ok (a : A)
| Raise (e : exn).
Arguments Ok {A} a.
Arguments Raise {A} e.

Definition bind {A B} (r : result A) (k : A -> result B) : result B :=
  match r with
  | Ok a => k a
  | Raise e => Raise e
  end.

(** [try: body except Exception: handler] *)
Definition try_except {A} (body : result A) (handler : exn -> result A)
  : result A :=
  match body with
  | Ok a => Ok a
  | Raise e => handler e
  end.

Definition returns {A} (r : result A) : bool :=
  match r with Ok _ => true | Raise _ => false end.

(** *** [repr] of strings and of lists of strings *)

Definition dquote : ascii := ascii_of_nat 34.
Definition squote : ascii := ascii_of_nat 39.
Definition backslash : ascii := ascii_of_nat 92.

Fixpoint has_char (c : ascii) (s : string) : bool :=
  match s with
  | EmptyString => false
  | String d rest => Ascii.eqb c d || has_char c rest
  end.

Definition hex_digit (n : nat) : ascii :=
  ascii_of_nat (if Nat.ltb n 10 then 48 + n else 87 + n).

Definition repr_char (q c : ascii) : string :=
  let n := nat_of_ascii c in
  if Ascii.eqb c backslash then String backslash (String backslash "")
  else if Ascii.eqb c q then String backslash (String q "")
  else if Nat.eqb n 10 then String backslash "n"
  else if Nat.eqb n 13 then String backslash "r"
  else if Nat.eqb n 9 then String backslash "t"
  else if Nat.ltb n 32 || Nat.eqb n 127 then
    String backslash
      (String "x" (String (hex_digit (n / 16)) (String (hex_digit (n mod 16)) "")))
  else String c "".

Fixpoint repr_body (q : ascii) (s : string) : string :=
  match s with
  | EmptyString => ""
  | String c rest => repr_char q c ++ repr_body q rest
  end.

(** [repr(s)]: single quotes unless the text has a single quote and no
    double quote.  Bytes above 127 (UTF-8 text) are kept as they are,
    as [repr] does for printable text; the code points above 127 that
    it escapes occur in no feature name. *)
Definition repr_str (s : string) : string :=
  let q := if has_char squote s && negb (has_char dquote s)
           then dquote else squote in
  String q (repr_body q s ++ String q "").

Fixpoint join (sep : string) (l : list string) : string :=
  match l with
  | [] => ""
  | [x] => x
  | x :: rest => x ++ sep ++ join sep rest
  end.

(** [repr(l)] for a list of strings. *)
Definition repr_list (l : list string) : string :=
  "[" ++ join ", " (map repr_str l) ++ "]".

(** *** Dictionaries

    A [dict] keeps its keys in insertion order and holds each key once:
    an association list read from the front, well formed when its keys
    are pairwise distinct. *)
Definition dict (V : Type) : Type := list (string * V).

Definition keys {V} (d : dict V) : list string := map fst d.

Fixpoint get {V} (d : dict V) (k : string) : option V :=
  match d with
  | [] => None
  | (k', v) :: rest => if String.eqb k k' then Some v else get rest k
  end.

Definition wf_dict {V} (d : dict V) : Prop := NoDup (keys d).

(** [k in l] for a list of strings. *)
Fixpoint mem (k : string) (l : list string) : bool :=
  match l with
  | [] => false
  | x :: rest => String.eqb k x || mem k rest
  end.

End Py.

Import Py.

Declare Scope py_scope.
Delimit Scope py_scope with py.
Notation "x <- c ;; k" := (bind c (fun x => k))
  (at level 61, c at next level, right associativity) : py_scope.
Notation "c ;;; k" := (bind c (fun _ => k))
  (at level 61, right associativity) : py_scope.

(* ------------------------------------------------------------------ *)
(** ** Code with visible effects

    A computation over events of type [E] appends to the events so far
    and returns or raises.  What happened before an exception has still
    happened. *)

Module Effects.

Section Traced.
Context {E : Type}.

Definition traced (A : Type) : Type := list E -> result A * list E.

Definition ret {A} (a : A) : traced A := fun out => (Ok a, out).

Definition sbind {A B} (c : traced A) (k : A -> traced B) : traced B :=
  fun out =>
    match c out with
    | (Ok a, out') => k a out'
    | (Raise e, out') => (Raise e, out')
    end.

Definition lift {A} (r : result A) : traced A := fun out => (r, out).

Definition emit (ev : E) : traced unit :=
  fun out => (Ok tt, (out ++ [ev])%list).

(** A library call: it happens, then returns or raises. *)
Definition call (ev : E) (outcome : result unit) : traced unit :=
  fun out => (outcome, (out ++ [ev])%list).

(** [try: body except <classes> as e: handler(e)], where [catches]
    tells the exceptions of the listed classes. *)
Definition try_when {A} (catches : exn -> bool) (body : traced A)
  (handler : exn -> traced A) : traced A :=
  fun out =>
    match body out with
    | (Ok a, out') => (Ok a, out')
    | (Raise e, out') =>
        if catches e then handler e out' else (Raise e, out')
    end.

(** [try: body except Exception as e: handler(e)] *)
Definition try_script {A} (body : traced A) (handler : exn -> traced A)
  : traced A :=
  try_when (fun _ => true) body handler.

(** [try: body finally: cleanup], for a cleanup that does not raise. *)
Definition finally {A} (body : traced A) (cleanup : traced unit)
  : traced A :=
  fun out =>
    let '(r, out') := body out in
    (r, snd (cleanup out')).

Definition run {A} (c : traced A) : result A * list E := c [].

End Traced.

Arguments traced : clear implicits.

End Effects.

Import Effects.

Declare Scope script_scope.
Delimit Scope script_scope with script.
Notation "x <- c ;; k" := (sbind c (fun x => k))
  (at level 61, c at next level, right associativity) : script_scope.
Notation "c ;;; k" := (sbind c (fun _ => k))
  (at level 61, right associativity) : script_scope.

(* ------------------------------------------------------------------ *)
(** ** Feature schema and record builder ([ensure_feature_dataframe]) *)

Definition FINAL_FEATURES : list string :=
  ["daydurG"; "healthR"; "age_G"; "adlR"; "caredurG"; "healthG"; "ageR";
   "adlG"; "hukou_cityR"; "is_citycentre"].

Module Pandas.

(** A one-row [DataFrame]: the column labels in order, each with the
    cell of row 0. *)
Definition DataFrame (V : Type) : Type := list (string * V).

Definition columns {V} (df : DataFrame V) : list string := map fst df.
Definition row0 {V} (df : DataFrame V) : list V := map snd df.

(** [pd.DataFrame([d])] for a dict [d], the only argument the page
    passes: one column per key, in the dict's order.  (A table in the
    place of [d] is refused by pandas; that call is not modelled.) *)
Definition of_record {V} (d : dict V) : DataFrame V := d.

(** [df[cols]]: the listed columns in the listed order; [KeyError] when
    one of them is not a column. *)
Fixpoint getitem {V} (df : DataFrame V) (cols : list string)
  : result (DataFrame V) :=
  match cols with
  | [] => Ok []
  | c :: rest =>
      match get df c with
      | None =>
          Raise (mk_exn KeyError
                   (String dquote
                      (repr_list (filter (fun c => negb (mem c (columns df))) cols)
                         ++ " not in index" ++ String dquote "")))
      | Some v => bind (getitem df rest) (fun r => Ok ((c, v) :: r))
      end
  end.

End Pandas.

Definition ensure_feature_dataframe {V : Type}
  (input_dict : dict V) (feature_order : list string)
  : result (Pandas.DataFrame V) :=
  let df := Pandas.of_record input_dict in
  let missing :=
    filter (fun c => negb (mem c (Pandas.columns df))) feature_order in
  match missing with
  | _ :: _ =>
      Raise (mk_exn ValueError
               ("Missing required features: " ++ repr_list missing))
  | [] => Pandas.getitem df feature_order   (* [.copy()]: same cells *)
  end.

(* ------------------------------------------------------------------ *)
(** ** NumPy arrays *)

Module NumPy.

(** An array of doubles: its shape and its cells in row-major order. *)
Record ndarray := mk_array { shape : list nat; data : list float }.

Definition numel (sh : list nat) : nat := fold_right Nat.mul 1%nat sh.

Definition wf_array (a : ndarray) : Prop :=
  List.length (data a) = numel (shape a).

(** Arithmetic between a Python float and an array acts cell by cell. *)
Definition map_array (f : float -> float) (a : ndarray) : ndarray :=
  mk_array (shape a) (map f (data a)).

(** Of [n] blocks of [k * r] cells, the cells [r .. 2r) of each block. *)
Fixpoint take_col1 (n k r : nat) (l : list float) : list float :=
  match n with
  | O => []
  | S n' =>
      (firstn r (skipn r l) ++ take_col1 n' k r (skipn (k * r) l))%list
  end.

(** [a[:, 1]] *)
Definition column1 (a : ndarray) : result ndarray :=
  match shape a with
  | n :: k :: rest =>
      if Nat.ltb 1 k then
        Ok (mk_array (n :: rest) (take_col1 n k (numel rest) (data a)))
      else
        Raise (mk_exn IndexError
                 ("index 1 is out of bounds for axis 1 with size "
                    ++ NilZero.string_of_uint (Nat.to_uint k)))
  | dims =>
      Raise (mk_exn IndexError
               ("too many indices for array: array is "
                  ++ NilZero.string_of_uint (Nat.to_uint (List.length dims))
                  ++ "-dimensional, but 2 were indexed"))
  end.

(** [np.asarray(a).reshape(1, -1)] *)
Definition reshape_row (a : ndarray) : ndarray :=
  mk_array [1%nat; List.length (data a)] (data a).

(** [a[0]] for a two-dimensional array: its first row. *)
Definition row (a : ndarray) : list float :=
  match shape a with
  | _ :: k :: _ => firstn k (data a)
  | _ => data a
  end.

End NumPy.

Import NumPy.

(* ------------------------------------------------------------------ *)
(** ** Probability engine ([predict_proba]) *)

(** A fitted classifier, by the methods it has: [hasattr(model, name)] is
    whether the field is [Some]. *)
Record classifier := mk_classifier {
  cl_predict_proba : option (ndarray -> result ndarray);
  cl_decision_function : option (ndarray -> result ndarray)
}.

Section ProbabilityEngine.

(** [np.exp] on one double. NumPy's routine is not part of the
    repository; the engine is written over it. *)
Variable np_exp : float -> float.

(** [1.0 / (1.0 + np.exp(-z))] on one cell. *)
Definition logistic (z : float) : float :=
  div one (add one (np_exp (opp z))).

Definition predict_proba (model : classifier) (X : ndarray)
  : result ndarray :=
  match cl_predict_proba model with
  | Some proba => (p <- proba X ;; column1 p)%py
  | None =>
      match cl_decision_function model with
      | Some decision => (z <- decision X ;; Ok (map_array logistic z))%py
      | None =>
          Raise (mk_exn RuntimeError
                   "Model does not support probability outputs")
      end
  end.

End ProbabilityEngine.

(* ------------------------------------------------------------------ *)
(** ** Threshold loader ([load_threshold]) *)

Module Json.

(** What [json.load] returns. *)
#[local] Unset Elimination Schemes.
Inductive value :=
| JNull
| JBool (b : bool)
| JInt (z : Z)
| JFloat (x : float)
| JStr (s : string)
| JList (l : list value)
| JDict (d : list (string * value)).
#[local] Set Elimination Schemes.

End Json.

Import Json.

(** What is at a path: nothing, something that [open] or the UTF-8
    decoding fails on (a directory, no permission, bad bytes), or text. *)
Inductive file :=
| Absent
| Unreadable (e : exn)
| Text (s : string).

Definition filesystem : Type := string -> file.

(** [os.path.exists(path)] *)
Definition path_exists (fs : filesystem) (path : string) : bool :=
  match fs path with Absent => false | _ => true end.

(** [open(path, "r", encoding="utf-8")] followed by reading it whole. *)
Definition open_read (fs : filesystem) (path : string) : result string :=
  match fs path with
  | Absent => Raise (mk_exn OSError "No such file or directory")
  | Unreadable e => Raise e
  | Text s => Ok s
  end.

Section ThresholdLoader.

(** The JSON parser and the parser of [float(<str>)] are the
    interpreter's; the loader is written over them. *)
Variable json_loads : string -> result value.
Variable float_of_str : string -> result float.

(** [d.get(key, default)]: only a dict has the method. *)
Definition dict_get (d : value) (key : string) (default : value)
  : result value :=
  match d with
  | JDict kv => Ok (match get kv key with Some v => v | None => default end)
  | _ => Raise (mk_exn AttributeError "object has no attribute 'get'")
  end.

(** [float(v)] *)
Definition py_float (v : value) : result float :=
  match v with
  | JFloat x => Ok x
  | JInt z =>
      match of_Z z with
      | S754_infinity _ =>
          Raise (mk_exn OverflowError "int too large to convert to float")
      | x => Ok x
      end
  | JBool b => Ok (if b then one else zero)
  | JStr s => float_of_str s
  | _ => Raise (mk_exn TypeError
                  "float() argument must be a string or a real number")
  end.

Definition load_threshold (fs : filesystem) (path key : string)
  (default : float) : result float :=
  if negb (path_exists fs path) then Ok default
  else
    try_except
      (s <- open_read fs path ;;
       d <- json_loads s ;;
       v <- dict_get d key (JFloat default) ;;
       py_float v)%py
      (fun _ => Ok default).

End ThresholdLoader.

(* ------------------------------------------------------------------ *)
(** ** Cells of a submitted record *)

(** A cell of the submitted record: the number inputs give floats, the
    select boxes give integers. *)
Inductive cell :=
| CInt (z : Z)
| CFloat (x : float).

Definition is_float_cell (c : cell) : bool :=
  match c with CFloat _ => true | CInt _ => false end.

Definition as_float (c : cell) : float :=
  match c with CInt z => of_Z z | CFloat x => x end.

(** The type pandas gives the column of a one-row table that holds the
    cell: a float is a [float64]; an integer is an [int64] when it fits
    64 bits with a sign, a [uint64] when it fits 64 bits without one,
    and is kept as a Python object otherwise. *)
Inductive dtype := Int64 | UInt64 | Float64 | Object.

Definition cell_dtype (c : cell) : dtype :=
  match c with
  | CFloat _ => Float64
  | CInt z =>
      if Z.leb (-9223372036854775808) z && Z.ltb z 9223372036854775808
      then Int64
      else if Z.leb 0 z && Z.ltb z 18446744073709551616 then UInt64
      else Object
  end.

Definition is_object (t : dtype) : bool :=
  match t with Object => true | _ => false end.
Definition is_float64 (t : dtype) : bool :=
  match t with Float64 => true | _ => false end.
Definition is_int64 (t : dtype) : bool :=
  match t with Int64 => true | _ => false end.
Definition is_uint64 (t : dtype) : bool :=
  match t with UInt64 => true | _ => false end.

(** The type of a row read across columns of these types: an object
    column makes it a row of objects; otherwise it is NumPy's common
    type, which is [float64] as soon as the columns are not all [int64]
    or all [uint64]. *)
Definition common_dtype (l : list dtype) : dtype :=
  if existsb is_object l then Object
  else if existsb is_float64 l then Float64
  else if forallb is_int64 l then Int64
  else if forallb is_uint64 l then UInt64
  else Float64.

(** The value column of a table or chart: formatted text, or the number
    itself. *)
Inductive display :=
| DText (s : string)
| DCell (c : cell).

(* ------------------------------------------------------------------ *)
(** ** Attribution formatter (the SHAP block of [app.py]) *)

Module Shap.

(** A baseline as the explainer hands it over: one number, or a
    sequence (a list or a one-dimensional array) with one entry per
    model output. *)
Inductive baseline :=
| Scalar (x : float)
| Seq (l : list float).

(** The three shapes [explainer.shap_values(X)] comes in: a list with
    one array per class, an object with [values] (and possibly
    [base_values]), or a bare array. *)
Inductive shap_output :=
| SvList (l : list ndarray)
| SvStructured (values : ndarray) (base_values : option baseline)
| SvArray (a : ndarray).

Record explainer := mk_explainer {
  expected_value : baseline;
  shap_values : ndarray -> result shap_output
}.

(** [l[i]] *)
Definition getitem (l : list ndarray) (i : nat) : result ndarray :=
  match nth_error l i with
  | Some a => Ok a
  | None => Raise (mk_exn IndexError "list index out of range")
  end.

(** The dispatch on [_sv]: the contribution array [shap_vec], reshaped
    to one row, and the baseline [base]. *)
Definition shap_vec_base (expected : baseline) (_sv : shap_output)
  : result (ndarray * baseline) :=
  match _sv with
  | SvList l =>
      (shap_vec <- (if Nat.ltb 1 (List.length l)
                    then getitem l 1 else getitem l 0) ;;
       let shap_vec := reshape_row shap_vec in
       let base :=
         match expected with
         | Seq ev =>
             if Nat.ltb 1 (List.length ev)
             then Scalar (nth 1 ev nan) else expected
         | Scalar _ => expected
         end in
       Ok (shap_vec, base))%py
  | SvStructured values base_values =>
      Ok (reshape_row values,
          match base_values with
          | Some b => b
          | None => expected
          end)
  | SvArray a => Ok (reshape_row a, expected)
  end.

(** How many numbers a baseline holds. *)
Definition baseline_entries (b : baseline) : nat :=
  match b with
  | Scalar _ => 1%nat
  | Seq l => List.length l
  end.

(** The argument of [shap.Explanation(...)]. *)
Record explanation := mk_explanation {
  ex_values : list float;
  ex_base_values : baseline;
  ex_data : list display;
  ex_feature_names : list string
}.

End Shap.

Import Shap.

(* ------------------------------------------------------------------ *)
(** ** The page: labels, value maps, and what a submission renders *)

Definition VARIABLE_LABELS_DICT : dict string :=
  [("daydurG", "Daily care hours (Caregiver)");
   ("healthR", "Self-rated health (Recipient)");
   ("age_G", "Age (Caregiver)");
   ("adlR", "ADL (Recipient)");
   ("caredurG", "Duration of care (Caregiver)");
   ("healthG", "Self-rated health (Caregiver)");
   ("ageR", "Age (Recipient)");
   ("adlG", "ADL (Caregiver)");
   ("hukou_cityR", "Hukou status (Recipient)");
   ("is_citycentre", "City-center residence (Recipient)")].

Definition VALUE_MAPPINGS : dict (list (Z * string)) :=
  [("adlG", [(0, "Intact"); (1, "Mild"); (2, "Moderate"); (3, "Severe")]);
   ("adlR", [(0, "Intact"); (1, "Mild"); (2, "Moderate"); (3, "Severe")]);
   ("healthR", [(1, "Very poor"); (2, "Poor"); (3, "Fair"); (4, "Good");
                (5, "Excellent")]);
   ("hukou_cityR", [(0, "Rural"); (1, "Urban")]);
   ("is_citycentre", [(0, "No"); (1, "Yes")]);
   ("healthG", [(1, "Very poor"); (2, "Poor"); (3, "Fair"); (4, "Good");
                (5, "Excellent")])].

Definition UNITS : dict string :=
  [("daydurG", "hours"); ("age_G", "years"); ("ageR", "years");
   ("caredurG", "years")].

(** The integer a double is equal to, when it is one
    ([x.is_integer()] and [int(x)]). *)
Definition to_Z_exact (x : float) : option Z :=
  match x with
  | S754_zero _ => Some 0
  | S754_finite s m (Zneg p) =>
      if Z.eqb (Zpos m mod 2 ^ Zpos p) 0
      then Some (cond_Zopp s (Zpos m / 2 ^ Zpos p)) else None
  | S754_finite s m e => Some (cond_Zopp s (Zpos m * 2 ^ e))
  | _ => None
  end.

(** [str(n)] for an integer. *)
Definition str_int (z : Z) : string :=
  match z with
  | Zneg p => "-" ++ digits_of (Zpos p)
  | _ => digits_of z
  end.

(** [c == k] for an integer key [k]. *)
Definition cell_eq_int (c : cell) (k : Z) : bool :=
  match c with
  | CInt z => Z.eqb z k
  | CFloat x => match to_Z_exact x with Some n => Z.eqb n k | None => false end
  end.

(** [mapping.get(c)] on a value map keyed by integers. *)
Fixpoint mapping_get (mapping : list (Z * string)) (c : cell) : option string :=
  match mapping with
  | [] => None
  | (k, label) :: rest =>
      if cell_eq_int c k then Some label else mapping_get rest c
  end.

(** [df.iloc[0]] and [df.iloc[0].values]: a row whose common type is
    [float64] comes out with every cell a double; a row of integers of
    one kind, and a row of objects, keep their cells. *)
Definition iloc0 (df : Pandas.DataFrame cell) : list (string * cell) :=
  match common_dtype (map cell_dtype (Pandas.row0 df)) with
  | Float64 => map (fun kc => (fst kc, CFloat (as_float (snd kc)))) df
  | _ => df
  end.

Module Streamlit.

(** What the page shows, call by call. *)
Inductive event :=
| Columns (n : nat)
| Metric (label value : string)
| Error (msg : string)
| Success (msg : string)
| Markdown (text : string)
| Dataframe (rows : list (string * display))
| Subheader (text : string)
| Pyplot (ex : explanation).

(** A stretch of the page script: what it renders, and whether it
    returns or raises. *)
Definition script (A : Type) : Type := traced event A.

End Streamlit.

Import Streamlit.

Definition get_default {V} (d : dict V) (k : string) (default : V) : V :=
  match get d k with Some v => v | None => default end.

(** [for a in l: ...] over a body that may raise. *)
Fixpoint for_each {A B} (f : A -> result B) (l : list A) : result (list B) :=
  match l with
  | [] => Ok []
  | a :: rest => (b <- f a ;; bs <- for_each f rest ;; Ok (b :: bs))%py
  end.

Section Page.

Variable np_exp : float -> float.

(** [str(x)] for a double (the shortest text that reads back as [x]);
    the interpreter's routine, over which the page is written. *)
Variable str_float : float -> string.

(** [float(a)] for an array.  The conversion is NumPy's and differs
    between its versions: before 2.4 an array of one cell converts,
    from 2.4 on only an array without dimensions does. *)
Variable float_of_array : ndarray -> result float.

Definition str_cell (c : cell) : string :=
  match c with
  | CInt z => str_int z
  | CFloat x => str_float x
  end.

(** [f"{v} {unit}" if unit else v] with [unit = UNITS.get(k)] *)
Definition with_unit (k : string) (v : cell) : display :=
  match get UNITS k with
  | Some unit =>
      if String.eqb unit "" then DCell v
      else DText (str_cell v ++ " " ++ unit)
  | None => DCell v
  end.

(** One row of the input echo. *)
Definition disp_row (row : list (string * cell)) (k : string)
  : result (string * display) :=
  let label_k := get_default VARIABLE_LABELS_DICT k k in
  match get row k with
  | None => Raise (mk_exn KeyError (repr_str k))
  | Some v =>
      Ok (label_k,
          match get VALUE_MAPPINGS k with
          | Some mapping =>
              match mapping_get mapping v with
              | Some text => DText (str_cell v ++ " - " ++ text)
              | None => with_unit k v
              end
          | None => with_unit k v
          end)
  end.

(** [int(v) if isinstance(v, (int, float)) and float(v).is_integer()
    else v]: a whole double becomes an integer; an integer stays, but
    [float(v)] raises on a Python integer beyond the doubles (the
    integers of an [int64] or [uint64] column are not instances of
    [int] and are not converted). *)
Definition whole_number (v : cell) : result cell :=
  match v with
  | CFloat x => Ok (match to_Z_exact x with Some n => CInt n | None => v end)
  | CInt z =>
      match of_Z z with
      | S754_infinity _ =>
          Raise (mk_exn OverflowError "int too large to convert to float")
      | _ => Ok v
      end
  end.

(** One entry of [display_vals] in the SHAP block. *)
Definition display_val (kv : string * cell) : result display :=
  let '(k, v) := kv in
  match get VALUE_MAPPINGS k with
  | Some mapping =>
      (vv <- whole_number v ;;
       Ok match mapping_get mapping vv with
          | Some text => DText (str_cell vv ++ " - " ++ text)
          | None => with_unit k v
          end)%py
  | None => Ok (with_unit k v)
  end.

(** The artifacts and the two library calls the page makes on them. *)
Record artifacts := mk_artifacts {
  preprocessor_transform : Pandas.DataFrame cell -> result ndarray;
  model : classifier;
  (** [shap.TreeExplainer(model.calibrated_classifiers_[0].estimator, ...)];
      unwrapping the estimator or building the explainer may raise *)
  tree_explainer : result explainer;
  (** [shap.plots.waterfall(shap_ex, max_display=n)] *)
  waterfall : explanation -> nat -> result unit
}.

(** Step 5 of the page: the SHAP waterfall for the one case. *)
Definition shap_block (a : artifacts) (df_single_orig : Pandas.DataFrame cell)
  (X_single_model : ndarray) : script unit :=
  (emit (Subheader "SHAP waterfall (single case)") ;;;
   explainer <- lift (tree_explainer a) ;;
   _sv <- lift (shap_values explainer X_single_model) ;;
   vb <- lift (shap_vec_base (expected_value explainer) _sv) ;;
   let '(shap_vec, base) := vb in
   let feat_labels :=
     map (fun k => get_default VARIABLE_LABELS_DICT k k)
       (Pandas.columns df_single_orig) in
   display_vals <- lift (for_each display_val (iloc0 df_single_orig)) ;;
   let shap_ex := mk_explanation (row shap_vec) base display_vals feat_labels in
   lift (waterfall a shap_ex (List.length feat_labels)) ;;;
   emit (Pyplot shap_ex))%script.

(** The body of [if submitted:], for the inputs of the form, the
    threshold of the slider and the state of the checkbox. *)
Definition on_submit (a : artifacts) (user_inputs : dict cell)
  (thr : float) (show_shap : bool) : script unit :=
  try_script
    (df_single_orig <-
       lift (ensure_feature_dataframe user_inputs FINAL_FEATURES) ;;
     X_single_model <- lift (preprocessor_transform a df_single_orig) ;;
     p <- lift (predict_proba np_exp (model a) X_single_model) ;;
     prob <- lift (float_of_array p) ;;
     let pred := predicted_label prob thr in
     let '(label, paragraph) := risk_narrative prob thr in
     emit (Columns 3) ;;;
     emit (Metric "Probability" (format_fixed 2 (mul prob (of_Z 100)) ++ "%")) ;;;
     emit (Metric "Threshold" (format_fixed 2 thr)) ;;;
     emit (Metric "Predicted label" (str_int pred)) ;;;
     (if Z.eqb pred 1 then emit (Error label) else emit (Success label)) ;;;
     emit (Markdown paragraph) ;;;
     emit (Markdown
             "<div class='small-note'>This is a screening aid, not a diagnosis.</div>") ;;;
     disp_rows <-
       lift (for_each (disp_row (iloc0 df_single_orig)) FINAL_FEATURES) ;;
     emit (Markdown "**Input summary**") ;;;
     emit (Dataframe disp_rows) ;;;
     if show_shap
     then shap_block a df_single_orig X_single_model
     else ret tt)%script
    (fun e => emit (Error ("Prediction failed: " ++ exn_str e))).

End Page.

(* ------------------------------------------------------------------ *)
(** ** The input form ([feature_ranges] and the [st.form] block) *)

(** An entry of [feature_ranges]: a number with its bounds and default
    (as [float(...)] reads them in the form), or a category with its
    [options]. *)
Inductive feature_cfg :=
| Numerical (min max default : float)
| Categorical (options : list Z).

Definition feature_ranges : dict feature_cfg :=
[("daydurG", Numerical (of_Z 0) (of_Z 24) (of_Z 12));
 ("age_G", Numerical (of_Z 0) (of_Z 120) (of_Z 60));
 ("ageR", Numerical (of_Z 60) (of_Z 120) (of_Z 60));
 ("caredurG", Numerical (of_Z 0) (of_Z 120) (of_Z 60));
 ("healthR", Categorical [1; 5]);
 ("healthG", Categorical [1; 5]);
 ("adlR", Categorical [0; 3]);
 ("adlG", Categorical [0; 3]);
 ("hukou_cityR", Categorical [0; 1]);
 ("is_citycentre", Categorical [0; 1])].

Definition is_numerical (cfg : feature_cfg) : bool :=
match cfg with Numerical _ _ _ => true | Categorical _ => false end.

Definition NUM_COLS : list string :=
map fst (filter (fun kc => is_numerical (snd kc)) feature_ranges).

Definition CAT_COLS : list string :=
map fst (filter (fun kc => negb (is_numerical (snd kc))) feature_ranges).

(** [list(range(lo, hi))] *)
Definition range (lo hi : Z) : list Z :=
map (fun i => lo + Z.of_nat i) (seq 0 (Z.to_nat (hi - lo))).

(** The values a select box offers: a pair [lo, hi] stands for the
    closed range, any other list for itself. *)
Definition option_values (opts_def : list Z) : list Z :=
match opts_def with
| [lo; hi] => range lo (hi + 1)
| _ => opts_def
end.

(** The options of the select box of [key]: each value with its text. *)
Definition select_options (key : string) (opts_def : list Z)
  : list (Z * string) :=
let mapping := get_default VALUE_MAPPINGS key [] in
map (fun v =>
       (v, match mapping with
           | [] => str_int v
           | _ => str_int v ++ " - "
                    ++ match mapping_get mapping (CInt v) with
                       | Some text => text
                       | None => str_int v
                       end
           end))
  (option_values opts_def).

(** [float(x).is_integer()] *)
Definition is_integer (x : float) : bool :=
match to_Z_exact x with Some _ => true | None => false end.

(** The label of a number field: its text, with the unit when it has
    one. *)
Definition number_label (key : string) : string :=
let label := get_default VARIABLE_LABELS_DICT key key in
match get UNITS key with
| Some unit =>
    if String.eqb unit "" then label else label ++ " (" ++ unit ++ ")"
| None => label
end.

(** [step = 1.0 if all_int else 0.1] *)
Definition input_step (default min_v max_v : float) : float :=
if is_integer default && is_integer min_v && is_integer max_v
then one else decimal 1 1.

(** What the widgets hand back: the number entered in
    [st.number_input(label, value, min_value, max_value, step)], and the
    option picked in [st.selectbox(label, options)] ([None] when it has
    no options). *)
Record widgets := mk_widgets {
  number_input : string -> float -> float -> float -> float -> float;
  selectbox : string -> list (Z * string) -> option (Z * string)
}.

(** The two loops of the form: the numbers first, then the categories,
    each in the order of [feature_ranges]. *)
Fixpoint numeric_inputs (w : widgets) (ranges : dict feature_cfg)
  : dict cell :=
match ranges with
| [] => []
| (key, Numerical min_v max_v default) :: rest =>
    (key, CFloat (number_input w (number_label key) default min_v max_v
                    (input_step default min_v max_v)))
      :: numeric_inputs w rest
| (_, Categorical _) :: rest => numeric_inputs w rest
end.

Fixpoint categorical_inputs (w : widgets) (ranges : dict feature_cfg)
  : result (dict cell) :=
match ranges with
| [] => Ok []
| (key, Categorical opts_def) :: rest =>
    let label := get_default VARIABLE_LABELS_DICT key key in
    match selectbox w label (select_options key opts_def) with
    | Some sel =>
        (more <- categorical_inputs w rest ;;
         Ok ((key, CInt (fst sel)) :: more))%py
    | None =>
        Raise (mk_exn TypeError "'NoneType' object is not subscriptable")
    end
| (_, Numerical _ _ _) :: rest => categorical_inputs w rest
end.

(** [user_inputs] once the form block has run. *)
Definition form_inputs (w : widgets) : result (dict cell) :=
(cats <- categorical_inputs w feature_ranges ;;
 Ok (numeric_inputs w feature_ranges ++ cats)%list)%py.

(* ------------------------------------------------------------------ *)
(** ** Keep-alive script ([.github/workflows/wake_up_app.py]) *)

Module KeepAlive.

Inductive level := Info | Warning | LogError.

(** The log lines of the script, by what they say. *)
Inductive message :=
| MsgInitDriver                       (* initialising the WebDriver *)
| MsgDriverReady                      (* WebDriver initialised *)
| MsgAttempt (attempt max_retries : nat)
| MsgVisit (url : string)
| MsgButtonDetected                   (* wake-up button seen, clicking *)
| MsgWokenUp                          (* the app has been woken up *)
| MsgButtonStillThere                 (* button still present *)
| MsgAlreadyAwake                     (* the app was already awake *)
| MsgWebDriverError (e : exn)
| MsgUnknownError (e : exn)
| MsgRetryWait                        (* waiting 10 seconds to retry *)
| MsgGaveUp (max_retries : nat).      (* still failing after all tries *)

(** What the script does to the world, in order. *)
Inductive event :=
| Log (l : level) (m : message)
| CreateDriver
| Get (url : string)
| Sleep (seconds : nat)
| WaitPresent (timeout : nat)      (* until the resume button is present *)
| Click
| WaitInvisible (timeout : nat)    (* until the resume button is gone *)
| Quit.

(** How the browser answers during one attempt: each call returns or
    raises.  A wait raises [TimeoutException] when its condition did not
    come true in time. *)
Record session := mk_session {
  create_driver_outcome : result unit;
  get_outcome : result unit;
  wait_present_outcome : result unit;
  click_outcome : result unit;
  wait_invisible_outcome : result unit;
  quit_outcome : result unit
}.

Definition is_timeout (e : exn) : bool :=
  match exn_kind e with TimeoutException => true | _ => false end.

(** [TimeoutException] is a [WebDriverException]. *)
Definition is_webdriver (e : exn) : bool :=
  match exn_kind e with
  | TimeoutException | WebDriverException => true
  | _ => false
  end.

Definition timeout_exn : exn := mk_exn TimeoutException "Message: ".

(** [create_driver()] *)
Definition create_driver (b : session) : traced event unit :=
  (emit (Log Info MsgInitDriver) ;;;
   call CreateDriver (create_driver_outcome b) ;;;
   emit (Log Info MsgDriverReady))%script.

(** The body of the loop up to the end of its [finally]: [Some true]
    when it executes [return True], [None] when control goes on to the
    retry test. *)
Definition attempt_body (url : string) (attempt max_retries : nat)
  (b : session) : traced event (option bool) :=
  finally
    (try_script
       (emit (Log Info (MsgAttempt attempt max_retries)) ;;;
        create_driver b ;;;
        emit (Log Info (MsgVisit url)) ;;;
        call (Get url) (get_outcome b) ;;;
        emit (Sleep 5) ;;;
        try_when is_timeout
          (call (WaitPresent 10) (wait_present_outcome b) ;;;
           emit (Log Info MsgButtonDetected) ;;;
           call Click (click_outcome b) ;;;
           emit (Sleep 10) ;;;
           try_when is_timeout
             (call (WaitInvisible 30) (wait_invisible_outcome b) ;;;
              emit (Log Info MsgWokenUp) ;;;
              ret (Some true))
             (fun _ =>
                emit (Log Warning MsgButtonStillThere) ;;; ret None))
          (fun _ => emit (Log Info MsgAlreadyAwake) ;;; ret (Some true)))%script
       (fun e =>
          (emit (Log LogError (if is_webdriver e then MsgWebDriverError e
                               else MsgUnknownError e)) ;;;
           ret None)%script))
    (* [if driver: try: driver.quit() except: pass] *)
    (if returns (create_driver_outcome b)
     then try_script (call Quit (quit_outcome b)) (fun _ => ret tt)
     else ret tt).

(** The iterations [attempt, attempt + 1, ...] of the loop, [remaining]
    of them, and what follows the loop. *)
Fixpoint attempts (url : string) (max_retries : nat)
  (browser : nat -> session) (attempt remaining : nat)
  : traced event bool :=
  match remaining with
  | O => (emit (Log LogError (MsgGaveUp max_retries)) ;;; ret false)%script
  | S remaining' =>
      (r <- attempt_body url attempt max_retries (browser attempt) ;;
       match r with
       | Some b => ret b
       | None =>
           (if Nat.ltb attempt max_retries
            then emit (Log Info MsgRetryWait) ;;; emit (Sleep 10)
            else ret tt) ;;;
           attempts url max_retries browser (S attempt) remaining'
       end)%script
  end.

(** [for attempt in range(1, max_retries + 1): ...], with the browser
    answering attempt [i] as [browser i]. *)
Definition wake_up_streamlit_app (url : string) (max_retries : nat)
  (browser : nat -> session) : traced event bool :=
  attempts url max_retries browser 1 max_retries.

End KeepAlive.

(* ------------------------------------------------------------------ *)
(** ** Entry point of the keep-alive script ([main]) *)

Module KeepAliveMain.

Import KeepAlive.

(** The log lines of [main], by what they say. *)
Inductive main_message :=
| MsgRule                             (* a line of fifty [=] *)
| MsgStarting                         (* the script is starting *)
| MsgUrlUnset                         (* STREAMLIT_URL is not set *)
| MsgAddSecret                        (* add it to the repository secrets *)
| MsgTarget (url : string)
| MsgTaskDone                         (* the wake-up task is complete *)
| MsgTaskFailed.                      (* the wake-up task failed *)

Inductive main_event :=
| MainLog (l : level) (m : main_message)
| Inner (ev : event).                 (* what [wake_up_streamlit_app] did *)

(** [max_retries=3], the default of [wake_up_streamlit_app] *)
Definition default_max_retries : nat := 3.

(** A call of a function of the script from [main]: its events, in
    order, after those of [main] so far. *)
Definition inner {A} (c : traced event A) : traced main_event A :=
  fun out => let '(r, evs) := run c in (r, (out ++ map Inner evs)%list).

(** [main()], up to [sys.exit(status)]: the result is the status. *)
Definition main (environ : dict string) (browser : nat -> session)
  : traced main_event Z :=
  (emit (MainLog Info MsgRule) ;;;
   emit (MainLog Info MsgStarting) ;;;
   emit (MainLog Info MsgRule) ;;;
   let streamlit_url := get environ "STREAMLIT_URL" in
   match streamlit_url with
   | Some (String c rest as url) =>
       emit (MainLog Info (MsgTarget url)) ;;;
       success <- inner (wake_up_streamlit_app url default_max_retries
                           browser) ;;
       if (success : bool)
       then emit (MainLog Info MsgTaskDone) ;;; ret 0
       else emit (MainLog LogError MsgTaskFailed) ;;; ret 1
   | _ =>
       (* [if not streamlit_url]: unset, or set to the empty string *)
       emit (MainLog LogError MsgUrlUnset) ;;;
       emit (MainLog LogError MsgAddSecret) ;;;
       ret 1
   end)%script.

End KeepAliveMain.

(* ------------------------------------------------------------------ *)
(** ** Keep-alive probe ([.github/scripts/wake_up_app.py]) *)

Module StreamlitWakeUp.

Inductive level := Info | Warning | LogError.

(** The four CSS selectors of [selectors_to_try], in order: the app
    container, [.main], [body], the sidebar. *)
Inductive selector := StApp | MainBlock | Body | StSidebar.

(** The log lines of the class, by what they say. *)
Inductive message :=
| MsgDriverCreated
| MsgCreateFailed (e : string)
| MsgFoundElement (sel : selector)
| MsgNoExpectedElement                (* none found, page seems loaded *)
| MsgPageLoadTimeout
| MsgClickableElement (tag_name class : string)
| MsgInteractionCheck (e : string)    (* element check done, nothing to do *)
| MsgInteractionDone
| MsgInteractionProblem (e : string)
| MsgHealthPassed (status_code : Z)
| MsgHealthFailed (status_code : Z)
| MsgHealthError (e : string)
| MsgWakingUp (app_url : string)
| MsgCurrentTime (now : string)
| MsgHealthIgnored                    (* health check failed, going on *)
| MsgVisiting
| MsgTitle (title : string)
| MsgWokenUp
| MsgNoStreamlitMarker                (* loaded, no Streamlit trait seen *)
| MsgWakeUpError (e : string)
| MsgDriverClosed
| MsgCloseFailed (e : string)
| MsgAttempt (attempt max_retries : nat)
| MsgAttemptSucceeded (attempt : nat)
| MsgAttemptFailed (attempt : nat)
| MsgAttemptRaised (attempt : nat) (e : string)
| MsgBackoff (wait_time : nat)
| MsgTaskDone
| MsgTaskFailed.

(** What [main] prints. *)
Inductive printed :=
| PrintUrlUnset
| PrintSetSecret
| PrintStarting (app_url : string).

(** What the script does to the world, in order. *)
Inductive event :=
| Log (l : level) (m : message)
| Print (p : printed)
| SetupLogging                       (* the log directory and handlers *)
| HttpGet (url : string) (timeout : nat)
| CreateDriver
| Get (url : string)
| WaitReady (timeout : nat)          (* until [document.readyState] is complete *)
| WaitElement (sel : selector) (timeout : nat)
| ScrollTo (y : nat)                 (* [window.scrollTo(0, y);] *)
| Sleep (seconds : nat)
| FindElements                       (* buttons and input fields *)
| IsDisplayed
| IsEnabled
| TagName
| GetClass                           (* [get_attribute('class')] *)
| Title
| PageSource
| Quit.

(** An element of the page, by what its methods answer. *)
Record element := mk_element {
  is_displayed : result bool;
  is_enabled : result bool;
  tag_name : result string;
  get_class : result (option string)
}.

(** How the network and the browser answer during one call of
    [wake_up_app]: each call returns or raises. *)
Record session := mk_session {
  now : string;
  health_outcome : result Z;           (* the status code of [requests.get] *)
  create_driver_outcome : result unit;
  get_outcome : result unit;
  ready_outcome : result unit;
  element_outcome : selector -> result unit;
  scroll_outcome : nat -> result unit;
  find_elements_outcome : result (list element);
  title_outcome : result string;
  page_source_outcome : result string;
  quit_outcome : result unit
}.

(** The fields of the object: [StreamlitWakeUp(app_url, max_retries=3,
    timeout=30)]. *)
Record self := mk_self {
  app_url : string;
  max_retries : nat;
  timeout : nat
}.

(** A library call that hands back a value. *)
Definition ask {A} (ev : event) (outcome : result A) : traced event A :=
  fun out => (outcome, (out ++ [ev])%list).

(** [self.create_driver()]: the error is logged and raised again. *)
Definition create_driver (b : session) : traced event unit :=
  try_script
    (call CreateDriver (create_driver_outcome b) ;;;
     emit (Log Info MsgDriverCreated))%script
    (fun e =>
       (emit (Log LogError (MsgCreateFailed (exn_str e))) ;;;
        lift (Raise e))%script).

Definition selectors_to_try : list selector :=
  [StApp; MainBlock; Body; StSidebar].

(** [for selector in selectors: try: ... break except TimeoutException:
    continue else: ...] *)
Fixpoint try_selectors (b : session) (selectors : list selector)
  : traced event unit :=
  match selectors with
  | [] => emit (Log Warning MsgNoExpectedElement)
  | sel :: rest =>
      (found <- try_when KeepAlive.is_timeout
                  (call (WaitElement sel 10) (element_outcome b sel) ;;;
                   emit (Log Info (MsgFoundElement sel)) ;;;
                   ret true)
                  (fun _ => ret false) ;;
       if (found : bool) then ret tt else try_selectors b rest)%script
  end.

(** [self.wait_for_page_load(driver)] *)
Definition wait_for_page_load (s : self) (b : session) : traced event unit :=
  try_when KeepAlive.is_timeout
    (call (WaitReady (timeout s)) (ready_outcome b) ;;;
     try_selectors b selectors_to_try)%script
    (fun e => (emit (Log LogError MsgPageLoadTimeout) ;;; lift (Raise e))%script).

(** [self.interact_with_app(driver)] *)
Definition interact_with_app (b : session) : traced event unit :=
  try_script
    (call (ScrollTo 100) (scroll_outcome b 100%nat) ;;;
     emit (Sleep 1) ;;;
     call (ScrollTo 0) (scroll_outcome b 0%nat) ;;;
     emit (Sleep 1) ;;;
     try_script
       (clickable_elements <- ask FindElements (find_elements_outcome b) ;;
        match clickable_elements with
        | first_element :: _ =>
            displayed <- ask IsDisplayed (is_displayed first_element) ;;
            enabled <- (if (displayed : bool)
                        then ask IsEnabled (is_enabled first_element)
                        else ret false) ;;
            if (enabled : bool) then
              tag <- ask TagName (tag_name first_element) ;;
              class <- ask GetClass (get_class first_element) ;;
              emit (Log Info
                      (MsgClickableElement tag
                         match class with
                         | Some (String _ _ as c) => c
                         | _ => "no-class"
                         end))
            else ret tt
        | [] => ret tt
        end)
       (fun e => emit (Log Info (MsgInteractionCheck (exn_str e)))) ;;;
     emit (Sleep 3) ;;;
     emit (Log Info MsgInteractionDone))%script
    (fun e => emit (Log Warning (MsgInteractionProblem (exn_str e)))).

(** [self.check_app_health()] *)
Definition check_app_health (s : self) (b : session) : traced event bool :=
  try_script
    (status_code <- ask (HttpGet (app_url s) 10) (health_outcome b) ;;
     if Z.eqb status_code 200
     then emit (Log Info (MsgHealthPassed status_code)) ;;; ret true
     else emit (Log Warning (MsgHealthFailed status_code)) ;;; ret false)%script
    (fun e =>
       (emit (Log Warning (MsgHealthError (exn_str e))) ;;; ret false)%script).

Section Probe.

(** [str.lower()], the interpreter's routine. *)
Variable lower : string -> string.

(** [self.wake_up_app()] *)
Definition wake_up_app (s : self) (b : session) : traced event bool :=
  (emit (Log Info (MsgWakingUp (app_url s))) ;;;
   emit (Log Info (MsgCurrentTime (now b))) ;;;
   healthy <- check_app_health s b ;;
   (if (healthy : bool) then ret tt
    else emit (Log Warning MsgHealthIgnored)) ;;;
   finally
     (try_script
        (create_driver b ;;;
         emit (Log Info MsgVisiting) ;;;
         call (Get (app_url s)) (get_outcome b) ;;;
         wait_for_page_load s b ;;;
         interact_with_app b ;;;
         title <- ask Title (title_outcome b) ;;
         emit (Log Info (MsgTitle title)) ;;;
         marked <- (if contains "Streamlit" title then ret true
                    else page_source <- ask PageSource (page_source_outcome b) ;;
                         ret (contains "streamlit" (lower page_source))) ;;
         if (marked : bool)
         then emit (Log Info MsgWokenUp) ;;; ret true
         else emit (Log Warning MsgNoStreamlitMarker) ;;; ret true)
        (fun e =>
           emit (Log LogError (MsgWakeUpError (exn_str e))) ;;; ret false))
     (* [if driver: try: driver.quit() ... except Exception as e: ...] *)
     (if returns (create_driver_outcome b)
      then try_script
             (call Quit (quit_outcome b) ;;; emit (Log Info MsgDriverClosed))
             (fun e => emit (Log Warning (MsgCloseFailed (exn_str e))))
      else ret tt))%script.

(** The iterations [attempt, attempt + 1, ...] of the loop of [run],
    [remaining] of them; the result is [success]. *)
Fixpoint attempts (s : self) (browser : nat -> session)
  (attempt remaining : nat) : traced event bool :=
  match remaining with
  | O => ret false
  | S remaining' =>
      (success <-
         try_script
           (emit (Log Info (MsgAttempt attempt (max_retries s))) ;;;
            woke <- wake_up_app s (browser attempt) ;;
            if (woke : bool)
            then emit (Log Info (MsgAttemptSucceeded attempt)) ;;; ret true
            else emit (Log Warning (MsgAttemptFailed attempt)) ;;; ret false)
           (fun e =>
              emit (Log LogError (MsgAttemptRaised attempt (exn_str e))) ;;;
              ret false) ;;
       if (success : bool) then ret true      (* [break] *)
       else
         (if Nat.ltb attempt (max_retries s)
          then let wait_time := (30 * attempt)%nat in
               emit (Log Info (MsgBackoff wait_time)) ;;;
               emit (Sleep wait_time)
          else ret tt) ;;;
         attempts s browser (S attempt) remaining')%script
  end.

(** [self.run()]: the exit code. *)
Definition run (s : self) (browser : nat -> session) : traced event Z :=
  (success <- attempts s browser 1 (max_retries s) ;;
   if (success : bool)
   then emit (Log Info MsgTaskDone) ;;; ret 0
   else emit (Log LogError MsgTaskFailed) ;;; ret 1)%script.

(** [main()], up to [sys.exit(status)]: the result is the status.
    [print] writes to the standard output, which raises when it cannot
    take the line (its lines are not ASCII); the constructor of the
    object sets up logging, which may raise too. *)
Definition main (environ : dict string) (stdout : printed -> result unit)
  (setup_logging_outcome : result unit)
  (browser : nat -> session) : traced event Z :=
  match get environ "STREAMLIT_URL" with
  | Some (String _ _ as url) =>
      (call (Print (PrintStarting url)) (stdout (PrintStarting url)) ;;;
       call SetupLogging setup_logging_outcome ;;;
       run (mk_self url 3 30) browser)%script
  | _ =>
      (call (Print PrintUrlUnset) (stdout PrintUrlUnset) ;;;
       call (Print PrintSetSecret) (stdout PrintSetSecret) ;;;
       ret 1)%script
  end.

End Probe.

End StreamlitWakeUp.

(* ------------------------------------------------------------------ *)
(** ** Configuration read at start-up *)

(** [os.getenv(name, default)] over the process environment. *)
Definition getenv (env : dict string) (name default : string) : string :=
  get_default env name default.

Definition THRESHOLD_JSON_PATH (env : dict string) : string :=
  getenv env "THRESHOLD_JSON" "models/best_thresholds.json".

Definition THRESHOLD_KEY (env : dict string) : string :=
  getenv env "THRESHOLD_KEY" "XGBoost".

Definition BEST_THRESHOLD
  (json_loads : string -> result value)
  (float_of_str : string -> result float)
  (env : dict string) (fs : filesystem) : result float :=
  load_threshold json_loads float_of_str fs
    (THRESHOLD_JSON_PATH env) (THRESHOLD_KEY env) (decimal 5 1).

(* ------------------------------------------------------------------ *)
(** ** A reference exponential

    The statements about [predict_proba] hold for any [np_exp] that
    returns a non-negative double.  To evaluate the engine on concrete
    scores, [np_exp] is instantiated with the function below: the double
    nearest to a 320-bit approximation of [e^x] (the argument is divided
    by [2^12], a Taylor polynomial of degree 60 is evaluated in fixed
    point, and the result is squared twelve times). *)

Module ExpModel.

Definition P : Z := 320.
Definition unit_fx : Z := 2 ^ P.

(** [x / 2^12] in fixed point, for [x = (-1)^s * m * 2^e]. *)
Definition reduced (s : bool) (m : positive) (e : Z) : Z :=
  Z.shiftl (cond_Zopp s (Zpos m)) (e + P - 12).

(** [1 + r/1 * (1 + r/2 * (... (1 + r/n)))] in fixed point. *)
Fixpoint horner (r : Z) (n : nat) (acc : Z) : Z :=
  match n with
  | O => acc
  | S k => horner r k (unit_fx + (r * acc) / (Z.of_nat n * unit_fx))
  end.

(** Keep the leading [P + 1] bits of the mantissa. *)
Definition normalise (me : Z * Z) : Z * Z :=
  let '(m, e) := me in
  let d := Z.log2 m in
  if P <? d then (Z.shiftr m (d - P), e + (d - P)) else (m, e).

Definition square (me : Z * Z) : Z * Z :=
  let '(m, e) := me in normalise (m * m, 2 * e).

Fixpoint repeat_square (n : nat) (me : Z * Z) : Z * Z :=
  match n with
  | O => me
  | S k => repeat_square k (square me)
  end.

Definition exp (x : float) : float :=
  match x with
  | S754_nan => S754_nan
  | S754_infinity false => x
  | S754_infinity true => S754_zero false
  | S754_zero _ => one
  | S754_finite s m e =>
      if 11 <=? Zpos (digits2_pos m) + e then
        if s then S754_zero false else S754_infinity false
      else
        let t := horner (reduced s m e) 60 unit_fx in
        let '(mz, ez) := repeat_square 12 (t, - P) in
        binary_normalize prec emax mz ez false
  end.

End ExpModel.

(* ================================================================== *)
(** * Vocabulary of the statements, and sample inputs *)

(** ** Formatting *)

(** [N] is an integer nearest to [m * 2^e * 10^digits]. *)
Definition nearest_scaled (digits : nat) (m : positive) (e N : Z) : Prop :=
  match e with
  | Zneg p =>
      2 * Z.abs (N * 2 ^ Zpos p - Zpos m * 10 ^ Z.of_nat digits) <= 2 ^ Zpos p
  | _ => N = Zpos m * 2 ^ e * 10 ^ Z.of_nat digits
  end.

(** ** Reading a fixed-point numeral *)

(** The text before the first point of [s], and the text after it. *)
Fixpoint split_point (s : string) : option (string * string) :=
match s with
| EmptyString => None
| String c rest =>
    if Ascii.eqb c "." then Some (EmptyString, rest)
    else match split_point rest with
         | Some (whole, frac) => Some (String c whole, frac)
         | None => None
         end
end.

(** [read_fixed digits s]: [s] is an optional minus sign, one or more
    decimal digits, a point and exactly [digits] decimal digits; the
    answer is the sign and the number the digits spell once the point is
    taken out, that is the number written times [10^digits]. *)
Definition read_fixed (digits : nat) (s : string) : option (bool * Z) :=
let '(sign, body) :=
  match s with
  | String c rest => if Ascii.eqb c "-" then (true, rest) else (false, s)
  | EmptyString => (false, s)
  end in
match split_point body with
| Some (String c whole, frac) =>
    if Nat.eqb (String.length frac) digits
    then match NilEmpty.uint_of_string (String c whole ++ frac) with
         | Some u => Some (sign, Z.of_N (N.of_uint u))
         | None => None
         end
    else None
| _ => None
end.

(** [x], a double of magnitude [m * 2^e], lies half-way between two
    multiples of [10^-digits]. *)
Definition is_tie (digits : nat) (m : positive) (e : Z) : Prop :=
match e with
| Zneg p => 2 * ((Zpos m * 10 ^ Z.of_nat digits) mod 2 ^ Zpos p) = 2 ^ Zpos p
| _ => False
end.

(** What [format(x, '.<d>f')] prints: for a number, its sign and the
    numeral of the multiple of [10^-d] nearest to it, the even one on a
    tie; "nan" and "inf" otherwise. *)
Definition prints_nearest (digits : nat) (x : float) (s : string) : Prop :=
match x with
| S754_nan => s = "nan"
| S754_infinity sign => s = if sign then "-inf" else "inf"
| S754_zero sign => read_fixed digits s = Some (sign, 0)
| S754_finite sign m e =>
    exists N, read_fixed digits s = Some (sign, N)
              /\ nearest_scaled digits m e N
              /\ (is_tie digits m e -> Z.even N = true)
end.

(** ** Record builder *)

(** Whether the mapping has no entry for [c]. *)
Definition absent {V : Type} (d : dict V) (c : string) : bool :=
  match get d c with None => true | Some _ => false end.

(** The columns [cols] of [df], for those it has. *)
Definition select {V : Type} (df : Pandas.DataFrame V) (cols : list string)
  : Pandas.DataFrame V :=
  flat_map (fun c => match get df c with
                     | Some v => [(c, v)]
                     | None => []
                     end) cols.

(** All lists of [n] booleans. *)
Fixpoint patterns (n : nat) : list (list bool) :=
match n with
| O => [[]]
| S k => flat_map (fun t => [true :: t; false :: t]) (patterns k)
end.

(** The text of the error for the features flagged in [flags]. *)
Definition missing_message (missing : list string) : string :=
"Missing required features: " ++ repr_list missing.

(** For the schema features flagged absent in [flags], the message quotes
    a feature name exactly when it is flagged. *)
Definition names_exactly (flags : list bool) : bool :=
let tagged := combine FINAL_FEATURES flags in
let msg := missing_message (map fst (filter snd tagged)) in
forallb (fun kb => Bool.eqb (contains (repr_str (fst kb)) msg) (snd kb)) tagged.

(** Scenario A's record, entered in the order of the form (numbers first,
    then the select boxes). *)
Definition form_record : dict Z :=
[("daydurG", 12); ("age_G", 60); ("ageR", 70); ("caredurG", 10);
 ("healthR", 5); ("healthG", 5); ("adlR", 0); ("adlG", 0);
 ("hukou_cityR", 1); ("is_citycentre", 1)].

(** ** Threshold file *)

(** A parser that knows two texts: a threshold file for the default key,
    and one that is not JSON. *)
Definition quoted (s : string) : string :=
String dquote (s ++ String dquote "").

Definition sample_text : string :=
"{" ++ quoted "LightGBM" ++ ": 0.41, " ++ quoted "XGBoost" ++ ": 0.37}".

Definition sample_json_loads (s : string) : result value :=
if String.eqb s sample_text then
  Ok (JDict [("LightGBM", JFloat (decimal 41 2));
             ("XGBoost", JFloat (decimal 37 2))])
else Raise (mk_exn JSONDecodeError "Expecting value: line 1 column 1 (char 0)").

Definition sample_float_of_str (s : string) : result float :=
Raise (mk_exn ValueError "could not convert string to float").

Definition sample_fs (path : string) : file :=
if String.eqb path "models/best_thresholds.json"
then Text sample_text
else if String.eqb path "models/broken.json" then Text "XGBoost=0.37"
else Absent.

(** ** Keep-alive *)

(** A browser that shows the resume button on every attempt and lets it
    go only on the second. *)
Definition stubborn_once (i : nat) : KeepAlive.session :=
KeepAlive.mk_session (Ok tt) (Ok tt) (Ok tt) (Ok tt)
  (if Nat.eqb i 2 then Ok tt else Raise KeepAlive.timeout_exn) (Ok tt).


(** ** Attribution *)

(** The array the dispatch takes its contributions from. *)
Definition selected_array (_sv : shap_output) : option ndarray :=
match _sv with
| SvList l => nth_error l (if Nat.ltb 1 (List.length l) then 1 else 0)
| SvStructured values _ => Some values
| SvArray a => Some a
end.

(** The baseline the dispatch starts from. *)
Definition given_baseline (expected : baseline) (_sv : shap_output)
  : baseline :=
match _sv with
| SvStructured _ (Some b) => b
| _ => expected
end.

(** The outputs the dispatch is written for: the selected array holds
    one row of ten contributions, and the baseline is one number, except
    that a list of per-class arrays may come with one baseline per
    class. *)
Definition single_case (expected : baseline) (_sv : shap_output) : Prop :=
(exists a, selected_array _sv = Some a /\ List.length (data a) = 10%nat)
/\ match _sv with
   | SvList _ => (1 <= baseline_entries expected)%nat
   | _ => baseline_entries (given_baseline expected _sv) = 1%nat
   end.

(** Ten contributions in one row, and in one row of two classes each. *)
Definition contributions (n : nat) (x : float) : list float := repeat x n.

Definition one_row_ten : ndarray :=
mk_array [1; 10]%nat (contributions 10 (decimal 1 1)).

Definition one_row_ten_by_two : ndarray :=
mk_array [1; 10; 2]%nat (contributions 20 (decimal 1 1)).

(** ** The page *)

(** The fixed note under the narrative. *)
Definition small_note : string :=
"<div class='small-note'>This is a screening aid, not a diagnosis.</div>".

(** Step 3 of the page: the three metrics, the label and the narrative. *)
Definition result_events (prob thr : float) : list event :=
[Columns 3;
 Metric "Probability" (format_fixed 2 (mul prob (of_Z 100)) ++ "%");
 Metric "Threshold" (format_fixed 2 thr);
 Metric "Predicted label" (if ge prob thr then "1" else "0");
 (if ge prob thr then Error HIGH else Success LOW);
 Markdown (snd (risk_narrative prob thr));
 Markdown small_note].

(** Steps 1 and 2 of the page: the table, the model matrix, the
    probability. *)
Definition prediction (np_exp : float -> float)
  (float_of_array : ndarray -> result float) (a : artifacts)
  (user_inputs : dict cell)
  : result (Pandas.DataFrame cell * ndarray * float) :=
(df <- ensure_feature_dataframe user_inputs FINAL_FEATURES ;;
 X <- preprocessor_transform a df ;;
 p <- predict_proba np_exp (model a) X ;;
 prob <- float_of_array p ;;
 Ok (df, X, prob))%py.

(** Step 5 without the page: the explanation handed to the chart, or the
    exception that one of the SHAP calls raised. *)
Definition attribution (str_float : float -> string) (a : artifacts) (df : Pandas.DataFrame cell)
  (X : ndarray) : result explanation :=
(explainer <- tree_explainer a ;;
 _sv <- shap_values explainer X ;;
 vb <- shap_vec_base (expected_value explainer) _sv ;;
 let feat_labels :=
   map (fun k => get_default VARIABLE_LABELS_DICT k k) (Pandas.columns df) in
 display_vals <- for_each (display_val str_float) (iloc0 df) ;;
 let shap_ex :=
   mk_explanation (row (fst vb)) (snd vb) display_vals feat_labels in
 waterfall a shap_ex (List.length feat_labels) ;;;
 Ok shap_ex)%py.

(** The heading of the SHAP block. *)
Definition shap_title : event := Subheader "SHAP waterfall (single case)".

(** Scenario A: the record as the form collects it, a classifier that
    answers 0.30 for it, and a model object that is not the calibrated
    wrapper the SHAP block unwraps. *)
Definition scenario_A : dict cell :=
[("daydurG", CFloat (of_Z 12)); ("age_G", CFloat (of_Z 60));
 ("ageR", CFloat (of_Z 70)); ("caredurG", CFloat (of_Z 10));
 ("healthR", CInt 5); ("healthG", CInt 5); ("adlR", CInt 0);
 ("adlG", CInt 0); ("hukou_cityR", CInt 1); ("is_citycentre", CInt 1)].

(** Scenario A with a caregiving time beyond 64 bits, which pandas keeps
    as a Python object. *)
Definition wide_record : dict cell :=
[("daydurG", CFloat (of_Z 12)); ("healthR", CInt 5);
 ("age_G", CFloat (of_Z 60)); ("adlR", CInt 0);
 ("caredurG", CInt 18446744073709551616); ("healthG", CInt 5);
 ("ageR", CFloat (of_Z 70)); ("adlG", CInt 0);
 ("hukou_cityR", CInt 1); ("is_citycentre", CInt 1)].

(** A cell pandas holds as a [float64] or an [int64]: a float, or an
    integer that fits 64 bits with a sign. *)
Definition int64_or_float (c : cell) : bool :=
match cell_dtype c with
| Int64 | Float64 => true
| _ => false
end.

(** [float(a)] as NumPy before 2.4 has it: the cell of an array that
    has exactly one. *)
Definition legacy_float (a : ndarray) : result float :=
match data a with
| [x] => Ok x
| _ => Raise (mk_exn TypeError
                "only length-1 arrays can be converted to Python scalars")
end.

(** [float(a)] as NumPy 2.4 and later have it: only an array without
    dimensions converts. *)
Definition strict_float (a : ndarray) : result float :=
match shape a, data a with
| [], [x] => Ok x
| _, _ => Raise (mk_exn TypeError
                   "only 0-dimensional arrays can be converted to Python scalars")
end.

Definition sample_classifier : classifier :=
mk_classifier
  (Some (fun X => Ok (mk_array [1; 2]%nat [decimal 70 2; decimal 30 2])))
  None.

Definition unwrap_error : exn :=
mk_exn AttributeError
  "'XGBClassifier' object has no attribute 'calibrated_classifiers_'".

Definition sample_artifacts : artifacts :=
mk_artifacts
  (fun df => Ok (mk_array [1; 10]%nat (map as_float (Pandas.row0 df))))
  sample_classifier
  (Raise unwrap_error)
  (fun _ _ => Ok tt).

(** [str] of a double, right on whole numbers. *)
Definition sample_str_float (x : float) : string := format_fixed 1 x.

(** ** Doubles and the unit interval *)

(** The exponent of the format for a number of magnitude [2^e]. *)
Definition fexp64 (e : Z) : Z := fexp prec emax e.

(** [m * 2^e >= 1], on integers. *)
Definition ge_one (m e : Z) : Prop :=
(e <= 0 /\ 2 ^ (- e) <= m) \/ (0 < e /\ 1 <= m).

(** What an exponential may return: a double that is not negative and
    not a NaN. *)
Definition exp_value_ok (e : float) : bool :=
match e with
| S754_zero _ | S754_infinity false | S754_finite false _ _ => true
| _ => false
end.

(** [0.0 <= x <= 1.0] *)
Definition in_closed_unit (x : float) : bool := le zero x && le x one.

(** [0.0 < x < 1.0] *)
Definition in_open_unit (x : float) : bool := lt zero x && lt x one.

(** One row of ten zeros, as the model matrix of the examples. *)
Definition sample_matrix : ndarray := mk_array [1; 10]%nat (repeat zero 10).

(** A model with a margin only, answering the given scores. *)
Definition margin_model (scores : list float) : classifier :=
mk_classifier None
  (Some (fun _ => Ok (mk_array [List.length scores] scores))).

(** An object whose [predict_proba] does not answer with probabilities. *)
Definition off_scale_model : classifier :=
mk_classifier
  (Some (fun _ => Ok (mk_array [1; 2]%nat [opp (decimal 5 1); decimal 15 1])))
  None.

(** ** The form, and a model the chart can explain *)

(** A form left as it is drawn: every number at its default, every
    select box on its first option ([index=0]). *)
Definition untouched : widgets :=
mk_widgets (fun _ value _ _ _ => value) (fun _ options => hd_error options).

(** The ten labels, in schema order. *)
Definition schema_labels : list string :=
["Daily care hours (Caregiver)"; "Self-rated health (Recipient)";
 "Age (Caregiver)"; "ADL (Recipient)"; "Duration of care (Caregiver)";
 "Self-rated health (Caregiver)"; "Age (Recipient)"; "ADL (Caregiver)";
 "Hukou status (Recipient)"; "City-center residence (Recipient)"].

(** Artifacts around the calibrated wrapper the SHAP block expects: the
    explainer answers one array per class. *)
Definition calibrated_artifacts : artifacts :=
mk_artifacts
  (fun df => Ok (mk_array [1; 10]%nat (map as_float (Pandas.row0 df))))
  sample_classifier
  (Ok (mk_explainer (Seq [decimal 4 1; decimal 6 1])
         (fun _ => Ok (SvList [one_row_ten; one_row_ten]))))
  (fun _ _ => Ok tt).

(** ** Keep-alive: what an attempt did *)

(** The number of entries of [l] that satisfy [p]. *)
Definition count {A} (p : A -> bool) (l : list A) : nat :=
List.length (filter p l).

Definition is_create (ev : KeepAlive.event) : bool :=
match ev with KeepAlive.CreateDriver => true | _ => false end.

Definition is_quit (ev : KeepAlive.event) : bool :=
match ev with KeepAlive.Quit => true | _ => false end.

(** The log line that follows a driver that came up. *)
Definition is_ready (ev : KeepAlive.event) : bool :=
match ev with
| KeepAlive.Log KeepAlive.Info KeepAlive.MsgDriverReady => true
| _ => false
end.

(** The log line of the pause between two attempts. *)
Definition is_retry_wait (ev : KeepAlive.event) : bool :=
match ev with
| KeepAlive.Log KeepAlive.Info KeepAlive.MsgRetryWait => true
| _ => false
end.

Definition is_click (ev : KeepAlive.event) : bool :=
match ev with KeepAlive.Click => true | _ => false end.

(** The answers of the browser under which an attempt reaches a
    [return True]: the driver comes up, the page loads, and then either
    the wait for the button times out, or the click raises a timeout, or
    the click returns and the button goes away in time. *)
Definition wakes (b : KeepAlive.session) : bool :=
returns (KeepAlive.create_driver_outcome b)
&& returns (KeepAlive.get_outcome b)
&& match KeepAlive.wait_present_outcome b with
   | Raise e => KeepAlive.is_timeout e
   | Ok _ =>
       match KeepAlive.click_outcome b with
       | Raise e => KeepAlive.is_timeout e
       | Ok _ => returns (KeepAlive.wait_invisible_outcome b)
       end
   end.

(** A browser that never comes up, and one whose page load times out. *)
Definition no_browser (i : nat) : KeepAlive.session :=
KeepAlive.mk_session
  (Raise (mk_exn WebDriverException "Message: unknown error: cannot find Chrome binary"))
  (Ok tt) (Ok tt) (Ok tt) (Ok tt) (Ok tt).

Definition slow_page (i : nat) : KeepAlive.session :=
KeepAlive.mk_session (Ok tt) (Raise KeepAlive.timeout_exn)
  (Ok tt) (Ok tt) (Ok tt)
  (Raise (mk_exn WebDriverException "Message: invalid session id")).

Definition is_inner (ev : KeepAliveMain.main_event) : bool :=
match ev with KeepAliveMain.Inner _ => true | _ => false end.

(** ** Keep-alive probe: what a call did *)

(** The acts of the probe that the statements count: a driver started,
    a driver quit, a backoff announced in the log, and a sleep of half a
    minute or more (those of the page interaction last seconds). *)
Inductive mark :=
| Started
| Closed
| Announced (wait_time : nat)
| Paused (seconds : nat).

Definition mark_of (ev : StreamlitWakeUp.event) : list mark :=
match ev with
| StreamlitWakeUp.CreateDriver => [Started]
| StreamlitWakeUp.Quit => [Closed]
| StreamlitWakeUp.Log _ (StreamlitWakeUp.MsgBackoff w) => [Announced w]
| StreamlitWakeUp.Sleep n => if Nat.leb 30 n then [Paused n] else []
| _ => []
end.

Definition marks (evs : list StreamlitWakeUp.event) : list mark :=
flat_map mark_of evs.

(** The loop over the selectors ends without raising: some wait finds
    its element, every wait before it having timed out, or all four time
    out. *)
Fixpoint elements_settle (b : StreamlitWakeUp.session)
  (selectors : list StreamlitWakeUp.selector) : bool :=
match selectors with
| [] => true
| sel :: rest =>
    match StreamlitWakeUp.element_outcome b sel with
    | Ok _ => true
    | Raise e => KeepAlive.is_timeout e && elements_settle b rest
    end
end.

(** The answers under which [wake_up_app] reaches a [return True]: the
    driver comes up, the page loads and is ready, the selector loop
    ends, the title can be read, and it names Streamlit or the page
    source can be read. *)
Definition page_loads (b : StreamlitWakeUp.session) : bool :=
returns (StreamlitWakeUp.create_driver_outcome b)
&& returns (StreamlitWakeUp.get_outcome b)
&& (returns (StreamlitWakeUp.ready_outcome b)
    && elements_settle b StreamlitWakeUp.selectors_to_try)
&& match StreamlitWakeUp.title_outcome b with
   | Ok title =>
       contains "Streamlit" title
       || returns (StreamlitWakeUp.page_source_outcome b)
   | Raise _ => false
   end.

(** What one attempt of [run] leaves among the marks: a driver started
    and, when it came up, quit. *)
Definition attempt_marks (b : StreamlitWakeUp.session) : list mark :=
Started :: (if returns (StreamlitWakeUp.create_driver_outcome b)
            then [Closed] else []).

(** The backoff after attempt [i]. *)
Definition backoff_marks (i : nat) : list mark :=
[Announced (30 * i); Paused (30 * i)].

(** [str.lower()] on ASCII text. *)
Fixpoint lower_ascii (s : string) : string :=
match s with
| EmptyString => EmptyString
| String c rest =>
    let n := nat_of_ascii c in
    String (if Nat.leb 65 n && Nat.leb n 90 then ascii_of_nat (n + 32) else c)
      (lower_ascii rest)
end.

(** A page that loads behind a refused health check: no expected
    element appears, nothing says Streamlit, and the driver cannot be
    quit. *)
Definition plain_page : StreamlitWakeUp.session :=
StreamlitWakeUp.mk_session "2025-01-01 00:00:00"
  (Raise (mk_exn OSError "Connection refused"))
  (Ok tt) (Ok tt) (Ok tt)
  (fun _ => Raise KeepAlive.timeout_exn)
  (fun _ => Ok tt)
  (Ok [])
  (Ok "Welcome") (Ok "<html><body>Hello</body></html>")
  (Raise (mk_exn WebDriverException "Message: invalid session id")).

(** An app that is down: the health check answers 503 and the page
    does not load. *)
Definition down_page : StreamlitWakeUp.session :=
StreamlitWakeUp.mk_session "2025-01-01 00:00:00"
  (Ok 503)
  (Ok tt)
  (Raise (mk_exn WebDriverException "Message: unknown error: net::ERR_CONNECTION_REFUSED"))
  (Ok tt) (fun _ => Ok tt) (fun _ => Ok tt) (Ok [])
  (Ok "Welcome") (Ok "<html><body>Hello</body></html>")
  (Ok tt).

Definition always_down (i : nat) : StreamlitWakeUp.session := down_page.

Definition up_on_third (i : nat) : StreamlitWakeUp.session :=
if Nat.eqb i 3 then plain_page else down_page.

(* ================================================================== *)
(** * Properties *)

(* ------------------------------------------------------------------ *)
(** ** Comparison of doubles *)

Lemma compare_cont_antisym_eq (m1 m2 : positive) :
  Pos.compare_cont Eq m1 m2 = CompOpp (Pos.compare_cont Eq m2 m1).
Proof.
  change (Pos.compare_cont Eq m1 m2) with (Pos.compare m1 m2).
  change (Pos.compare_cont Eq m2 m1) with (Pos.compare m2 m1).
  apply Pos.compare_antisym.
Qed.

(** Swapping the operands of a comparison mirrors its answer. *)
Lemma SFcompare_swap (x y : float) :
  SFcompare x y = option_map CompOpp (SFcompare y x).
Proof.
  destruct x as [sx | sx | | sx mx ex], y as [sy | sy | | sy my ey];
    simpl; try reflexivity;
    try (destruct sx; reflexivity); try (destruct sy; reflexivity);
    try (destruct sx, sy; reflexivity).
  destruct sx, sy; simpl; try reflexivity;
    rewrite (Z.compare_antisym ey ex);
    destruct (ey ?= ex); simpl; try reflexivity;
    rewrite (compare_cont_antisym_eq mx my);
    destruct (Pos.compare_cont Eq my mx); reflexivity.
Qed.

(** Two doubles that are not NaN are comparable. *)
Lemma SFcompare_defined (x y : float) :
  is_nan x = false -> is_nan y = false -> exists c, SFcompare x y = Some c.
Proof.
  destruct x, y; simpl; intros; try discriminate; eauto.
Qed.

(** Away from NaN, [x < y] is the negation of [x >= y]. *)
Lemma lt_is_not_ge (x y : float) :
  is_nan x = false -> is_nan y = false -> lt x y = negb (ge x y).
Proof.
  intros Hx Hy. unfold lt, ge, SFltb, SFleb.
  rewrite (SFcompare_swap x y).
  destruct (SFcompare_defined y x Hy Hx) as [c ->].
  destruct c; reflexivity.
Qed.

(** With a NaN on either side both [>=] and [<] answer [False]. *)
Lemma nan_compares_false (x : float) :
  ge nan x = false /\ lt nan x = false /\ ge x nan = false /\ lt x nan = false.
Proof.
  unfold ge, lt, SFleb, SFltb, nan. destruct x; simpl; auto.
Qed.

Lemma eqb_implies_ge (x y : float) : eqb x y = true -> ge x y = true.
Proof.
  unfold eqb, ge, SFeqb, SFleb. rewrite (SFcompare_swap y x).
  destruct (SFcompare x y) as [[ | | ] | ]; simpl; congruence.
Qed.

(* ------------------------------------------------------------------ *)
(** ** Risk label *)

Lemma HIGH_neq_LOW : HIGH <> LOW.
Proof. discriminate. Qed.

Lemma label_of_narrative (prob thr : float) :
  fst (risk_narrative prob thr) = if ge prob thr then HIGH else LOW.
Proof.
  unfold risk_narrative. destruct (ge prob thr); reflexivity.
Qed.

(** C1: for a probability [p] and a threshold [t] (two doubles, neither a
    NaN), the narrative label is "High stress risk" exactly when
    [p >= t] and "Low stress risk" exactly when [p < t]; the numeric
    label [int(p >= t)] is 1 and 0 in the same two cases; and a
    probability equal to the threshold is labelled High. *)
Theorem label_high_iff_at_least_threshold (p t : float)
  (Hp : is_nan p = false) (Ht : is_nan t = false) :
  (fst (risk_narrative p t) = HIGH <-> ge p t = true) /\
  (fst (risk_narrative p t) = LOW <-> lt p t = true) /\
  (predicted_label p t = 1 <-> ge p t = true) /\
  (predicted_label p t = 0 <-> lt p t = true) /\
  (eqb p t = true ->
   fst (risk_narrative p t) = HIGH /\ predicted_label p t = 1).
Proof.
  rewrite label_of_narrative, (lt_is_not_ge p t Hp Ht).
  unfold predicted_label.
  pose proof HIGH_neq_LOW as Hne.
  pose proof (eqb_implies_ge p t) as Hb.
  destruct (ge p t); simpl; repeat split; intros;
    try congruence;
    match goal with
    | H : eqb _ _ = true |- _ => specialize (Hb H); discriminate
    end.
Qed.

(** The boundary case of scenario B: probability 0.50 at threshold 0.50. *)
Lemma label_high_iff_at_least_threshold_witness :
  fst (risk_narrative (decimal 50 2) (decimal 50 2)) = HIGH
  /\ predicted_label (decimal 50 2) (decimal 50 2) = 1.
Proof.
  apply (label_high_iff_at_least_threshold (decimal 50 2) (decimal 50 2));
    reflexivity.
Defined.

(** C10: the numeric label is 1 exactly when the narrative label is
    "High stress risk" and 0 exactly when it is "Low stress risk", for
    every pair of doubles (NaN included): both come from the one
    comparison [prob >= thr]. *)
Theorem numeric_label_agrees_with_narrative (prob thr : float) :
  (predicted_label prob thr = 1 <-> fst (risk_narrative prob thr) = HIGH) /\
  (predicted_label prob thr = 0 <-> fst (risk_narrative prob thr) = LOW) /\
  (predicted_label prob thr = 1 \/ predicted_label prob thr = 0).
Proof.
  rewrite label_of_narrative. unfold predicted_label.
  pose proof HIGH_neq_LOW as Hne.
  destruct (ge prob thr); simpl; repeat split; intros; try congruence; auto.
Qed.

(* ------------------------------------------------------------------ *)
(** ** Narrative text *)

Lemma prefix_app (n rest : string) : String.prefix n (n ++ rest) = true.
Proof.
  induction n as [ | c n IH]; simpl.
  - destruct rest; reflexivity.
  - destruct (ascii_dec c c) as [_ | Hne]; [exact IH | now elim Hne].
Qed.

Lemma contains_unfold (n hay : string) :
  contains n hay =
  if String.prefix n hay then true
  else match hay with
       | EmptyString => false
       | String _ rest => contains n rest
       end.
Proof. destruct hay; reflexivity. Qed.

Lemma contains_here (n rest : string) : contains n (n ++ rest) = true.
Proof. rewrite contains_unfold, prefix_app. reflexivity. Qed.

(** A text contains each of the pieces it is put together from. *)
Lemma contains_app (before n rest : string) :
  contains n (before ++ n ++ rest) = true.
Proof.
  induction before as [ | c before IH].
  - change ("" ++ n ++ rest) with (n ++ rest). apply contains_here.
  - rewrite contains_unfold. cbn [append]. rewrite IH.
    destruct (String.prefix n _); reflexivity.
Qed.

Lemma string_app_assoc (a b c : string) : (a ++ b) ++ c = a ++ b ++ c.
Proof.
  induction a as [ | x a IH]; simpl; [reflexivity | now rewrite IH].
Qed.

Lemma contains_skip (before n hay : string) :
  contains n hay = true -> contains n (before ++ hay) = true.
Proof.
  intros H. induction before as [ | c before IH]; [exact H | ].
  rewrite contains_unfold. cbn [append]. rewrite IH.
  destruct (String.prefix n _); reflexivity.
Qed.

Lemma contains_infix3 (before a x b rest : string) :
  contains (a ++ x ++ b) (before ++ a ++ x ++ b ++ rest) = true.
Proof.
  replace (before ++ a ++ x ++ b ++ rest)
    with (before ++ (a ++ x ++ b) ++ rest)
    by (now rewrite !string_app_assoc).
  apply contains_app.
Qed.

(** [round_half_even n d] is an integer nearest to [n / d]. *)
Lemma round_half_even_nearest (n d : Z) :
  0 < d -> 2 * Z.abs (round_half_even n d * d - n) <= d.
Proof.
  intros Hd. unfold round_half_even.
  pose proof (Z.div_mod n d ltac:(lia)) as Hdm.
  pose proof (Z.mod_pos_bound n d Hd) as Hr.
  destruct (Z.compare_spec (2 * (n mod d)) d) as [He | Hl | Hg];
    [destruct (Z.even (n / d)) | | ]; nia.
Qed.

(** On a tie the even neighbour is taken. *)
Lemma round_half_even_tie (n d : Z) :
  0 < d -> 2 * (n mod d) = d -> Z.even (round_half_even n d) = true.
Proof.
  intros Hd He. unfold round_half_even.
  rewrite He, Z.compare_refl.
  destruct (Z.even (n / d)) eqn:Ev; [exact Ev | ].
  rewrite Z.even_add, Ev. reflexivity.
Qed.

Lemma scaled_nearest (digits : nat) (m : positive) (e : Z) :
  nearest_scaled digits m e (scaled digits m e).
Proof.
  unfold nearest_scaled, scaled. destruct e as [ | p | p]; try reflexivity.
  apply round_half_even_nearest. apply Z.pow_pos_nonneg; lia.
Qed.

Lemma uint_of_char_some (c : ascii) (d : option Decimal.uint)
  (u : Decimal.uint) :
uint_of_char c d = Some u ->
d <> None /\ Ascii.eqb c "." = false /\ Ascii.eqb c "-" = false.
Proof.
intros H. destruct d as [d | ]; [ | discriminate H].
split; [discriminate | ].
split.
- destruct (Ascii.eqb_spec c "."); [subst c; discriminate H | reflexivity].
- destruct (Ascii.eqb_spec c "-"); [subst c; discriminate H | reflexivity].
Qed.

Lemma split_point_digits (a b : string) :
NilEmpty.uint_of_string (a ++ b) <> None ->
split_point (a ++ String "." b) = Some (a, b).
Proof.
induction a as [ | c a IH]; cbn [append split_point NilEmpty.uint_of_string];
  intros H; [reflexivity | ].
destruct (uint_of_char c (NilEmpty.uint_of_string (a ++ b))) as [u | ] eqn:E;
  [ | now elim H].
destruct (uint_of_char_some c _ u E) as (Hd & -> & _).
now rewrite (IH Hd).
Qed.

Lemma substring_split (s : string) (k : nat) :
(k <= String.length s)%nat ->
substring 0 k s ++ substring k (String.length s - k) s = s.
Proof.
revert k. induction s as [ | c s IH]; intros k Hk.
- destruct k; reflexivity.
- destruct k as [ | k]; cbn [substring String.length Nat.sub append].
  + f_equal. specialize (IH 0%nat ltac:(lia)).
    destruct s; [reflexivity | ].
    cbn [substring append] in IH. rewrite Nat.sub_0_r in IH. exact IH.
  + f_equal. apply IH. cbn in Hk. lia.
Qed.

Lemma substring_length (s : string) (k n : nat) :
(k + n <= String.length s)%nat -> String.length (substring k n s) = n.
Proof.
revert k n. induction s as [ | c s IH]; intros k n H.
- cbn in H. assert (k = 0 /\ n = 0)%nat as [-> ->] by lia. reflexivity.
- destruct k as [ | k].
  + destruct n as [ | n]; [reflexivity | ].
    cbn [substring String.length]. f_equal. apply IH. cbn in H. lia.
  + cbn [substring]. apply IH. cbn in H. lia.
Qed.

Lemma length_append (a b : string) :
String.length (a ++ b) = (String.length a + String.length b)%nat.
Proof. induction a as [ | c a IH]; cbn; [reflexivity | now rewrite IH]. Qed.

Lemma length_zeros (n : nat) : String.length (zeros n) = n.
Proof. induction n as [ | n IH]; cbn; [reflexivity | now rewrite IH]. Qed.

Lemma uint_of_zeros (p : nat) (t : string) (u : Decimal.uint) :
NilEmpty.uint_of_string t = Some u ->
exists u', NilEmpty.uint_of_string (zeros p ++ t) = Some u'
           /\ N.of_uint u' = N.of_uint u.
Proof.
intros H. induction p as [ | p (u' & Hu & Hv)]; [now exists u | ].
exists (Decimal.D0 u'). cbn [zeros append NilEmpty.uint_of_string].
rewrite Hu. split; [reflexivity | exact Hv].
Qed.

Lemma to_uint_nonnil (n : N) : N.to_uint n <> Decimal.Nil.
Proof.
intros H. pose proof (DecimalN.Unsigned.of_to n) as E. rewrite H in E.
cbn in E. subst n. discriminate H.
Qed.

Lemma digits_of_reads (n : Z) :
0 <= n ->
exists u, NilEmpty.uint_of_string (digits_of n) = Some u
          /\ Z.of_N (N.of_uint u) = n
          /\ digits_of n <> "".
Proof.
intros Hn. unfold digits_of. exists (N.to_uint (Z.to_N n)).
pose proof (NilZero.usu _ (to_uint_nonnil (Z.to_N n))) as H.
destruct (NilZero.string_of_uint (N.to_uint (Z.to_N n))) as [ | c s] eqn:E;
  [discriminate H | ].
split; [exact H | ]. split; [ | discriminate].
rewrite DecimalN.Unsigned.of_to. now apply Z2N.id.
Qed.

(** Reading back what [render] writes. *)
Lemma read_render (digits : nat) (n : Z) (sign : bool) :
0 <= n ->
read_fixed (S digits) (sign_str sign ++ render (S digits) n)
= Some (sign, n).
Proof.
intros Hn.
destruct (digits_of_reads n Hn) as (u & Hu & Hv & Hne).
unfold render.
set (s := zeros (S (S digits) - String.length (digits_of n)) ++ digits_of n).
destruct (uint_of_zeros (S (S digits) - String.length (digits_of n))
            (digits_of n) u Hu) as (u' & Hu' & Hv').
fold s in Hu'.
assert (Hlen : (S (S digits) <= String.length s)%nat).
{ unfold s. rewrite length_append, length_zeros. lia. }
clearbody s.
set (k := (String.length s - S digits)%nat).
assert (Hk : (k + S digits = String.length s)%nat) by (unfold k; lia).
clearbody k.
assert (Hsplit : substring 0 k s ++ substring k (S digits) s = s).
{ replace (S digits) with (String.length s - k)%nat at 1 by lia.
  apply substring_split. lia. }
assert (HB : String.length (substring k (S digits) s) = S digits).
{ apply substring_length. lia. }
assert (HA : String.length (substring 0 k s) = k).
{ apply substring_length. lia. }
destruct (substring 0 k s) as [ | c a] eqn:EA; [cbn in HA; lia | ].
assert (Hc : Ascii.eqb c "-" = false).
{ rewrite <- Hsplit in Hu'. cbn [append NilEmpty.uint_of_string] in Hu'.
  now destruct (uint_of_char_some c _ u' Hu') as (_ & _ & ->). }
assert (Hpt : split_point (String c a ++ String "." (substring k (S digits) s))
              = Some (String c a, substring k (S digits) s)).
{ apply split_point_digits. rewrite Hsplit, Hu'. discriminate. }
cbn [append] in Hpt, Hsplit.
unfold read_fixed.
destruct sign; cbn [sign_str append].
- change (Ascii.eqb "-" "-") with true. cbv beta iota zeta.
  rewrite Hpt, HB, Nat.eqb_refl, Hsplit, Hu', Hv'. now rewrite Hv.
- rewrite Hc. cbv beta iota zeta.
  rewrite Hpt, HB, Nat.eqb_refl, Hsplit, Hu', Hv'. now rewrite Hv.
Qed.

Lemma format_fixed_prints_nearest (digits : nat) (x : float) :
prints_nearest (S digits) x (format_fixed (S digits) x).
Proof.
destruct x as [sign | sign | | sign m e]; cbn [prints_nearest format_fixed].
- now apply read_render.
- destruct sign; reflexivity.
- reflexivity.
- exists (scaled (S digits) m e).
  assert (H0 : 0 <= scaled (S digits) m e).
  { unfold scaled. destruct e as [ | p | p]; try lia.
    unfold round_half_even.
    assert (Hd : 0 < 2 ^ Z.pos p) by (apply Z.pow_pos_nonneg; lia).
    assert (Hq : 0 <= (Z.pos m * 10 ^ Z.of_nat (S digits)) / 2 ^ Z.pos p).
    { apply Z.div_pos; [ | exact Hd].
      apply Z.mul_nonneg_nonneg; [lia | apply Z.pow_nonneg; lia]. }
    destruct (_ ?= _); [destruct (Z.even _) | | ]; lia. }
  split; [now apply read_render | ].
  split; [apply scaled_nearest | ].
  unfold is_tie, scaled. destruct e as [ | p | p]; try tauto.
  apply round_half_even_tie. apply Z.pow_pos_nonneg; lia.
Qed.

(** C8 as the code has it: the narrative is the fixed sentence around
    two numerals.  The first is [prob * 100], the product as a double,
    printed with one digit after the point: the multiple of 0.1 nearest
    to that double, the even one on a tie, followed by "%".  The second
    is the threshold printed with two digits after the point.  A NaN and
    the infinities print as "nan" and "inf".  For probability 0.30 and
    threshold 0.50 the label is "Low stress risk" and the text contains
    "30.0%" and "< threshold 0.50"; for probability 0.0 it reads
    "0.0%". *)
Theorem narrative_reports_percentage_and_threshold (prob thr : float) :
let pct := mul prob (of_Z 100) in
(exists P T,
   snd (risk_narrative prob thr)
   = "Predicted probability of caregiver stress is " ++ P ++ "% ("
       ++ (if ge prob thr then "≥" else "<") ++ " threshold " ++ T ++ "). "
       ++ (if ge prob thr
           then "This screening suggests a high risk of stress. "
           else "No immediate concern indicated by this model.")
   /\ prints_nearest 1 pct P
   /\ prints_nearest 2 thr T)
/\ fst (risk_narrative (decimal 30 2) (decimal 50 2)) = LOW
/\ contains "30.0%" (snd (risk_narrative (decimal 30 2) (decimal 50 2))) = true
/\ contains "< threshold 0.50"
     (snd (risk_narrative (decimal 30 2) (decimal 50 2))) = true
/\ snd (risk_narrative zero (decimal 50 2))
   = "Predicted probability of caregiver stress is 0.0% (< threshold 0.50). No immediate concern indicated by this model.".
Proof.
cbv zeta.
split; [ | split; [ | split; [ | split]]].
- exists (format_fixed 1 (mul prob (of_Z 100))), (format_fixed 2 thr).
  split; [ | split].
  + unfold risk_narrative. destruct (ge prob thr); cbn [snd];
      rewrite ?string_app_assoc; reflexivity.
  + apply format_fixed_prints_nearest.
  + apply format_fixed_prints_nearest.
- vm_compute. reflexivity.
- vm_compute. reflexivity.
- vm_compute. reflexivity.
- vm_compute. reflexivity.
Qed.

(** Against C8 as stated: the probability 0.0125 (as a double, a little
    above 0.0125) has the percentage 1.2500000000000000694, which is
    1.3 to one decimal place: 13 is the integer nearest to a thousand
    times the probability and 12 is not.  The narrative reads "1.2%":
    the product [prob * 100] rounds to the double 1.25, and the tie goes
    to the even digit. *)
Lemma percentage_is_rounded_twice :
contains "is 1.2% ("
  (snd (risk_narrative (decimal 125 4) (decimal 50 2))) = true
/\ mul (decimal 125 4) (of_Z 100) = decimal 125 2
/\ exists m e,
     decimal 125 4 = S754_finite false m e
     /\ nearest_scaled 3 m e 13
     /\ ~ nearest_scaled 3 m e 12.
Proof.
split; [vm_compute; reflexivity | ].
split; [vm_compute; reflexivity | ].
eexists _, _. split; [vm_compute; reflexivity | ].
split.
- vm_compute. discriminate.
- vm_compute. intros H. apply H. reflexivity.
Qed.

(* ------------------------------------------------------------------ *)
(** ** Record builder *)

Section RecordBuilder.

Context {V : Type}.

Lemma mem_keys (d : dict V) (k : string) :
  mem k (keys d) = negb (absent d k).
Proof.
  unfold absent. induction d as [ | [k' v] d IH]; simpl; [reflexivity | ].
  destruct (String.eqb k k'); simpl; [reflexivity | exact IH].
Qed.

Lemma missing_is_absent (d : dict V) (order : list string) :
  filter (fun c => negb (mem c (Pandas.columns (Pandas.of_record d)))) order
  = filter (absent d) order.
Proof.
  apply filter_ext. intros c. unfold Pandas.columns, Pandas.of_record.
  change (map fst d) with (keys d).
  rewrite mem_keys. apply negb_involutive.
Qed.

Lemma getitem_present (df : Pandas.DataFrame V) (cols : list string) :
  filter (absent df) cols = [] ->
  Pandas.getitem df cols = Ok (select df cols)
  /\ Pandas.columns (select df cols) = cols.
Proof.
  induction cols as [ | c cols IH]; simpl; intros Hf; [now split | ].
  unfold absent in Hf at 1.
  destruct (get df c) as [v | ] eqn:Hc; [ | discriminate].
  destruct (IH Hf) as [Hg Hcols].
  rewrite Hg. simpl. split; [reflexivity | now rewrite Hcols].
Qed.

(** The builder looks at its input only through [get]. *)
Lemma ensure_ext (d d' : dict V) (order : list string) :
  (forall k, get d k = get d' k) ->
  ensure_feature_dataframe d order = ensure_feature_dataframe d' order.
Proof.
  intros Hget. unfold ensure_feature_dataframe.
  rewrite !missing_is_absent.
  assert (Habs : filter (absent d) order = filter (absent d') order).
  { apply filter_ext. intros c. unfold absent. now rewrite Hget. }
  rewrite Habs.
  destruct (filter (absent d') order) eqn:Hf; [ | reflexivity].
  unfold Pandas.of_record.
  destruct (getitem_present d' order Hf) as [-> _].
  destruct (getitem_present d order Habs) as [-> _].
  unfold select. f_equal.
  apply flat_map_ext. intros c. now rewrite Hget.
Qed.

Lemma get_not_in_keys (d : dict V) (k : string) :
  ~ In k (keys d) -> get d k = None.
Proof.
  induction d as [ | [k' v] d IH]; simpl; intros Hn; [reflexivity | ].
  destruct (String.eqb_spec k k') as [-> | _]; [tauto | ].
  apply IH. tauto.
Qed.

(** A dict read in another insertion order answers [get] the same. *)
Lemma get_permutation (d d' : dict V) :
  Permutation d d' -> wf_dict d ->
  forall k, get d k = get d' k.
Proof.
  unfold wf_dict.
  induction 1 as [ | [k1 v1] l l' Hp IH | [k1 v1] [k2 v2] l
                 | l l' l'' Hp1 IH1 Hp2 IH2]; intros Hnd k.
  - reflexivity.
  - simpl in *. inversion Hnd; subst.
    destruct (String.eqb k k1); [reflexivity | auto].
  - simpl in *. inversion Hnd as [ | ? ? Hn1 Hnd']; subst.
    destruct (String.eqb_spec k k2) as [-> | _];
      destruct (String.eqb_spec k2 k1) as [-> | _]; try reflexivity.
    simpl in Hn1. tauto.
  - rewrite IH1 by assumption. apply IH2.
    eapply Permutation_NoDup; [ | exact Hnd].
    unfold keys. now apply Permutation_map.
Qed.

Lemma get_select (df : Pandas.DataFrame V) (cols : list string)
  (k : string) (v : V) :
  In k cols -> get df k = Some v -> get (select df cols) k = Some v.
Proof.
  induction cols as [ | c cols IH]; simpl; [tauto | ].
  intros [-> | Hin] Hk.
  - rewrite Hk. simpl. now rewrite String.eqb_refl.
  - destruct (get df c) as [w | ] eqn:Hc; simpl; [ | auto].
    destruct (String.eqb_spec k c) as [-> | _]; [congruence | auto].
Qed.

End RecordBuilder.

Lemma patterns_complete (bs : list bool) : In bs (patterns (List.length bs)).
Proof.
induction bs as [ | b bs IH]; simpl; [auto | ].
apply in_flat_map. exists bs. split; [exact IH | ].
destruct b; simpl; auto.
Qed.

Lemma names_exactly_all : forallb names_exactly (patterns 10) = true.
Proof. vm_compute. reflexivity. Qed.

Lemma filter_by_flags {A} (f : A -> bool) (l : list A) :
map fst (filter snd (combine l (map f l))) = filter f l.
Proof.
induction l as [ | a l IH]; simpl; [reflexivity | ].
destruct (f a); simpl; now rewrite IH.
Qed.

Lemma in_combine_map {A} (f : A -> bool) (l : list A) (a : A) :
In a l -> In (a, f a) (combine l (map f l)).
Proof.
induction l as [ | b l IH]; simpl; [tauto | ].
intros [-> | Hin]; auto.
Qed.

Lemma message_names_absent {V} (d : dict V) (k : string) :
In k FINAL_FEATURES ->
contains (repr_str k) (missing_message (filter (absent d) FINAL_FEATURES))
= absent d k.
Proof.
intros Hin.
pose proof names_exactly_all as Hall.
rewrite forallb_forall in Hall.
specialize (Hall (map (absent d) FINAL_FEATURES)
              (patterns_complete (map (absent d) FINAL_FEATURES))).
unfold names_exactly in Hall. rewrite filter_by_flags in Hall.
rewrite forallb_forall in Hall.
specialize (Hall _ (in_combine_map (absent d) FINAL_FEATURES k Hin)).
cbn [fst snd] in Hall. now apply Bool.eqb_prop in Hall.
Qed.

(** C5: when the input mapping lacks one or more of the ten schema
    features, the builder raises [ValueError] with the text
    "Missing required features: [...]"; the bracketed list is the absent
    features in schema order, each schema feature is quoted in the text
    exactly when it is absent, and no table is returned. *)
Theorem missing_features_named_exactly {V : Type} (input_dict : dict V)
  (Hmiss : exists k, In k FINAL_FEATURES /\ get input_dict k = None) :
let missing := filter (absent input_dict) FINAL_FEATURES in
ensure_feature_dataframe input_dict FINAL_FEATURES
= Raise (mk_exn ValueError (missing_message missing))
/\ (forall k, In k missing <-> In k FINAL_FEATURES /\ get input_dict k = None)
/\ (forall k, In k FINAL_FEATURES ->
      (contains (repr_str k) (missing_message missing) = true
       <-> get input_dict k = None))
/\ returns (ensure_feature_dataframe input_dict FINAL_FEATURES) = false.
Proof.
cbv zeta.
assert (Habs : forall k, absent input_dict k = true <-> get input_dict k = None).
{ intros k. unfold absent. destruct (get input_dict k); split; congruence. }
assert (Hraise : ensure_feature_dataframe input_dict FINAL_FEATURES
                 = Raise (mk_exn ValueError
                            (missing_message
                               (filter (absent input_dict) FINAL_FEATURES)))).
{ unfold ensure_feature_dataframe. rewrite missing_is_absent.
  destruct (filter (absent input_dict) FINAL_FEATURES) as [ | c l] eqn:Hf;
    [ | reflexivity].
  destruct Hmiss as (k & Hin & Hk).
  assert (Hk' : In k (filter (absent input_dict) FINAL_FEATURES)).
  { apply filter_In. split; [exact Hin | now apply Habs]. }
  rewrite Hf in Hk'. destruct Hk'. }
split; [exact Hraise | ]. split; [ | split].
- intros k. rewrite filter_In, Habs. tauto.
- intros k Hin. rewrite (message_names_absent input_dict k Hin). apply Habs.
- rewrite Hraise. reflexivity.
Qed.

(** A record with two of the ten features: the other eight are named. *)
Lemma missing_features_named_exactly_witness :
ensure_feature_dataframe [("daydurG", 12); ("adlG", 0)] FINAL_FEATURES
= Raise (mk_exn ValueError
    "Missing required features: ['healthR', 'age_G', 'adlR', 'caredurG', 'healthG', 'ageR', 'hukou_cityR', 'is_citycentre']").
Proof.
apply (missing_features_named_exactly [("daydurG", 12); ("adlG", 0)]).
exists "healthR". split; [simpl; tauto | reflexivity].
Defined.

(** C6: when the input mapping has all ten schema features, the builder
    returns a one-row table whose columns are the schema features in
    schema order, each holding the value the mapping gives it; the same
    table comes out for the mapping written in any other insertion
    order. *)
Theorem columns_in_schema_order {V : Type} (input_dict : dict V)
  (Hall : forall k, In k FINAL_FEATURES -> get input_dict k <> None) :
exists df,
  ensure_feature_dataframe input_dict FINAL_FEATURES = Ok df
  /\ Pandas.columns df = FINAL_FEATURES
  /\ List.length (Pandas.row0 df) = 10%nat
  /\ (forall k v, In k FINAL_FEATURES ->
        get input_dict k = Some v -> get df k = Some v)
  /\ (forall d', wf_dict input_dict -> Permutation input_dict d' ->
        ensure_feature_dataframe d' FINAL_FEATURES = Ok df).
Proof.
assert (Hf : filter (absent input_dict) FINAL_FEATURES = []).
{ destruct (filter (absent input_dict) FINAL_FEATURES) as [ | c l] eqn:Hf;
    [reflexivity | ].
  assert (Hc : In c (filter (absent input_dict) FINAL_FEATURES))
    by (rewrite Hf; now left).
  apply filter_In in Hc. destruct Hc as [Hin Hc].
  unfold absent in Hc. specialize (Hall c Hin).
  destruct (get input_dict c); [discriminate | congruence]. }
destruct (getitem_present input_dict FINAL_FEATURES Hf) as [Hget Hcols].
assert (Hens : ensure_feature_dataframe input_dict FINAL_FEATURES
               = Ok (select input_dict FINAL_FEATURES)).
{ unfold ensure_feature_dataframe. rewrite missing_is_absent, Hf.
  exact Hget. }
exists (select input_dict FINAL_FEATURES).
split; [exact Hens | ]. split; [exact Hcols | ]. split; [ | split].
- unfold Pandas.row0. rewrite length_map.
  rewrite <- (length_map fst). fold (Pandas.columns (select input_dict FINAL_FEATURES)).
  rewrite Hcols. reflexivity.
- intros k v Hin Hk. now apply get_select.
- intros d' Hwf Hperm. rewrite <- Hens. symmetry.
  apply ensure_ext. now apply get_permutation.
Qed.

Lemma columns_in_schema_order_witness :
exists df,
  ensure_feature_dataframe form_record FINAL_FEATURES = Ok df
  /\ Pandas.columns df = FINAL_FEATURES
  /\ List.length (Pandas.row0 df) = 10%nat
  /\ (forall k v, In k FINAL_FEATURES ->
        get form_record k = Some v -> get df k = Some v)
  /\ (forall d', wf_dict form_record -> Permutation form_record d' ->
        ensure_feature_dataframe d' FINAL_FEATURES = Ok df).
Proof.
apply (columns_in_schema_order form_record).
intros k Hin. simpl in Hin.
repeat (destruct Hin as [<- | Hin]; [discriminate | ]). destruct Hin.
Defined.

(* ------------------------------------------------------------------ *)
(** ** Threshold loader *)

Section ThresholdLoaderFacts.

Variable json_loads : string -> result value.
Variable float_of_str : string -> result float.

#[local] Abbreviation load := (load_threshold json_loads float_of_str).

Lemma load_absent (fs : filesystem) (path key : string) (default : float) :
fs path = Absent -> load fs path key default = Ok default.
Proof.
intros H. unfold load_threshold, path_exists. now rewrite H.
Qed.

(** Whatever is at the path, the loader returns: the stored number or
    the default. *)
Lemma load_total (fs : filesystem) (path key : string) (default : float) :
exists x, load fs path key default = Ok x.
Proof.
unfold load_threshold.
destruct (negb (path_exists fs path)); [eauto | ].
unfold try_except.
destruct (bind _ _) as [x | e]; eauto.
Qed.

Lemma load_text (fs : filesystem) (path key : string) (default : float)
  (s : string) :
fs path = Text s ->
load fs path key default
= try_except
    (d <- json_loads s ;;
     v <- dict_get d key (JFloat default) ;;
     py_float float_of_str v)%py
    (fun _ => Ok default).
Proof.
intros H. unfold load_threshold, path_exists, open_read. now rewrite H.
Qed.

(** C4: [load_threshold] never raises.  It returns the number stored
    under the key when the file holds a JSON object with that key bound
    to a float (or to an integer within the range of doubles), and the
    default when the file is missing or cannot be read, when its text is
    not JSON, when the JSON is not an object, or when the object lacks
    the key; the page calls it with the default 0.5. *)
Theorem load_threshold_falls_back
  (fs : filesystem) (path key : string) (default : float) :
(exists x, load fs path key default = Ok x)
/\ (fs path = Absent -> load fs path key default = Ok default)
/\ (forall e, fs path = Unreadable e -> load fs path key default = Ok default)
/\ (forall s e, fs path = Text s -> json_loads s = Raise e ->
      load fs path key default = Ok default)
/\ (forall s kv, fs path = Text s -> json_loads s = Ok (JDict kv) ->
      get kv key = None -> load fs path key default = Ok default)
/\ (forall s d, fs path = Text s -> json_loads s = Ok d ->
      (forall kv, d <> JDict kv) -> load fs path key default = Ok default)
/\ (forall s kv x, fs path = Text s -> json_loads s = Ok (JDict kv) ->
      get kv key = Some (JFloat x) -> load fs path key default = Ok x)
/\ (forall s kv z, fs path = Text s -> json_loads s = Ok (JDict kv) ->
      get kv key = Some (JInt z) -> is_finite (of_Z z) = true ->
      load fs path key default = Ok (of_Z z))
/\ (forall env fs',
      fs' (THRESHOLD_JSON_PATH env) = Absent ->
      BEST_THRESHOLD json_loads float_of_str env fs' = Ok (decimal 5 1)).
Proof.
split; [apply load_total | ].
split; [apply load_absent | ].
split.
{ intros e H. unfold load_threshold, path_exists, open_read.
  rewrite H. reflexivity. }
split.
{ intros s e H Hj. rewrite (load_text _ _ _ _ _ H), Hj. reflexivity. }
split.
{ intros s kv H Hj Hk. rewrite (load_text _ _ _ _ _ H), Hj.
  simpl. rewrite Hk. reflexivity. }
split.
{ intros s d H Hj Hd. rewrite (load_text _ _ _ _ _ H), Hj.
  destruct d; try reflexivity. now elim (Hd d). }
split.
{ intros s kv x H Hj Hk. rewrite (load_text _ _ _ _ _ H), Hj.
  simpl. rewrite Hk. reflexivity. }
split.
{ intros s kv z H Hj Hk Hfin. rewrite (load_text _ _ _ _ _ H), Hj.
  simpl. rewrite Hk. simpl.
  destruct (of_Z z); try reflexivity; discriminate. }
intros env fs' H. unfold BEST_THRESHOLD. now apply load_absent.
Qed.

End ThresholdLoaderFacts.

Lemma load_threshold_falls_back_witness :
load_threshold sample_json_loads sample_float_of_str sample_fs
  "models/best_thresholds.json" "XGBoost" (decimal 5 1) = Ok (decimal 37 2)
/\ load_threshold sample_json_loads sample_float_of_str sample_fs
     "models/best_thresholds.json" "CatBoost" (decimal 5 1) = Ok (decimal 5 1)
/\ load_threshold sample_json_loads sample_float_of_str sample_fs
     "models/broken.json" "XGBoost" (decimal 5 1) = Ok (decimal 5 1)
/\ load_threshold sample_json_loads sample_float_of_str sample_fs
     "models/none.json" "XGBoost" (decimal 5 1) = Ok (decimal 5 1).
Proof.
pose proof (load_threshold_falls_back sample_json_loads sample_float_of_str
              sample_fs) as H.
split; [ | split; [ | split]].
- destruct (H "models/best_thresholds.json" "XGBoost" (decimal 5 1))
    as (_ & _ & _ & _ & _ & _ & Hx & _).
  eapply Hx; reflexivity.
- destruct (H "models/best_thresholds.json" "CatBoost" (decimal 5 1))
    as (_ & _ & _ & _ & Hx & _).
  eapply Hx; reflexivity.
- destruct (H "models/broken.json" "XGBoost" (decimal 5 1))
    as (_ & _ & _ & Hx & _).
  eapply Hx; reflexivity.
- destruct (H "models/none.json" "XGBoost" (decimal 5 1))
    as (_ & Hx & _).
  apply Hx; reflexivity.
Defined.

(* ------------------------------------------------------------------ *)
(** ** Keep-alive script *)

Section KeepAliveFacts.

Import KeepAlive.

Variable url : string.
Variable max_retries : nat.

Lemma unit_result_ok (r : result unit) (u : unit) : r = Ok u -> r = Ok tt.
Proof. destruct u. exact id. Qed.


Lemma attempts_step (browser : nat -> session) (attempt remaining : nat)
  (out : list event) :
attempts url max_retries browser attempt (S remaining) out =
match attempt_body url attempt max_retries (browser attempt) out with
| (Ok (Some b), out') => (Ok b, out')
| (Ok None, out') =>
    attempts url max_retries browser (S attempt) remaining
      (out' ++ if Nat.ltb attempt max_retries
               then [Log Info MsgRetryWait; Sleep 10] else [])%list
| (Raise e, out') => (Raise e, out')
end.
Proof.
cbn [attempts]. unfold sbind at 1.
destruct (attempt_body _ _ _ _ _) as [[[b | ] | e] out']; try reflexivity.
unfold sbind, emit, ret.
destruct (Nat.ltb attempt max_retries); cbn.
- now rewrite <- app_assoc.
- now rewrite app_nil_r.
Qed.


End KeepAliveFacts.



(* ------------------------------------------------------------------ *)
(** ** Attribution formatter *)

Lemma row_reshape_row (a : ndarray) : row (reshape_row a) = data a.
Proof. unfold row, reshape_row. simpl. apply firstn_all. Qed.

Lemma shap_vec_base_selected (expected : baseline) (_sv : shap_output)
  (a : ndarray) :
selected_array _sv = Some a ->
exists base, shap_vec_base expected _sv = Ok (reshape_row a, base)
  /\ match _sv with
     | SvList _ =>
         match expected with
         | Seq (_ :: b1 :: _) => base = Scalar b1
         | _ => base = expected
         end
     | _ => base = given_baseline expected _sv
     end.
Proof.
destruct _sv as [l | values [b | ] | arr]; simpl; intros Hsel;
  try (injection Hsel as <-; eexists; split; reflexivity).
unfold getitem.
destruct (Nat.ltb 1 (List.length l)); rewrite Hsel; simpl;
  (eexists; split; [reflexivity | ]);
  destruct expected as [x | [ | b0 [ | b1 ev]]]; reflexivity.
Qed.

(** C7 as the code has it: a list of arrays contributes its entry of
    index 1 when it has more than one entry and its only entry
    otherwise, with the baseline [expected_value[1]] when
    [expected_value] has more than one entry and [expected_value]
    unchanged otherwise; a structured or a bare-array output
    contributes all its values as they come, with the baseline
    [base_values] (or [expected_value]) unchanged and no class
    selection, whatever the number of its entries; in each shape the
    normalised vector is the cells of the selected array in their
    order, so that it has length ten when that array holds one row of
    ten contributions, and the baseline is a single value when the
    given baseline is one (for a list output also when it has one entry
    per class). *)
Theorem shap_normalised_for_single_case (expected : baseline) :
let list_base :=
  match expected with
  | Seq (_ :: b1 :: _) => Scalar b1
  | _ => expected
  end in
(forall a0 a1 rest,
   shap_vec_base expected (SvList (a0 :: a1 :: rest))
   = Ok (reshape_row a1, list_base))
/\ (forall a,
      shap_vec_base expected (SvList [a]) = Ok (reshape_row a, list_base))
/\ (forall values b,
      shap_vec_base expected (SvStructured values (Some b))
      = Ok (reshape_row values, b))
/\ (forall values,
      shap_vec_base expected (SvStructured values None)
      = Ok (reshape_row values, expected))
/\ (forall a,
      shap_vec_base expected (SvArray a) = Ok (reshape_row a, expected))
/\ (forall a, row (reshape_row a) = data a)
/\ ((1 <= baseline_entries expected)%nat ->
    baseline_entries list_base = 1%nat)
/\ (forall _sv shap_vec base a,
      shap_vec_base expected _sv = Ok (shap_vec, base) ->
      selected_array _sv = Some a ->
      row shap_vec = data a
      /\ (List.length (data a) = 10%nat ->
          List.length (row shap_vec) = 10%nat))
/\ (forall _sv,
      single_case expected _sv ->
      exists shap_vec base,
        shap_vec_base expected _sv = Ok (shap_vec, base)
        /\ List.length (row shap_vec) = 10%nat
        /\ baseline_entries base = 1%nat).
Proof.
cbv zeta.
assert (Hbase : (1 <= baseline_entries expected)%nat ->
                baseline_entries
                  match expected with
                  | Seq (_ :: b1 :: _) => Scalar b1
                  | _ => expected
                  end = 1%nat).
{ destruct expected as [x | [ | b0 [ | b1 ev]]]; cbn; intros H;
    try reflexivity; lia. }
split.
{ intros a0 a1 rest.
  destruct expected as [x | [ | b0 [ | b1 ev]]]; reflexivity. }
split.
{ intros a. destruct expected as [x | [ | b0 [ | b1 ev]]]; reflexivity. }
split; [reflexivity | ].
split; [reflexivity | ].
split; [reflexivity | ].
split; [exact row_reshape_row | ].
split; [exact Hbase | ].
split.
{ intros _sv shap_vec base a Heq Hsel.
  destruct (shap_vec_base_selected expected _sv a Hsel) as (base' & Heq' & _).
  rewrite Heq' in Heq. injection Heq as <- _.
  rewrite row_reshape_row. split; [reflexivity | exact id]. }
intros _sv [(a & Hsel & Hlen) Hone].
destruct (shap_vec_base_selected expected _sv a Hsel) as (base & Heq & Hb).
exists (reshape_row a), base.
split; [exact Heq | ]. rewrite row_reshape_row.
split; [exact Hlen | ].
destruct _sv as [l | values [b | ] | arr]; cbn [given_baseline] in *;
  try (subst base; exact Hone).
specialize (Hbase Hone).
destruct expected as [x | [ | b0 [ | b1 ev]]]; subst base; exact Hbase.
Qed.

Lemma shap_normalised_for_single_case_witness :
(exists v b,
   shap_vec_base (Seq [decimal 4 1; decimal 6 1])
     (SvList [one_row_ten; one_row_ten]) = Ok (v, b)
   /\ List.length (row v) = 10%nat /\ b = Scalar (decimal 6 1))
/\ (exists v b,
      shap_vec_base (Scalar (decimal 6 1))
        (SvStructured one_row_ten (Some (Seq [decimal 6 1]))) = Ok (v, b)
      /\ List.length (row v) = 10%nat /\ baseline_entries b = 1%nat)
/\ (exists v b,
      shap_vec_base (Scalar (decimal 6 1)) (SvArray one_row_ten) = Ok (v, b)
      /\ List.length (row v) = 10%nat /\ baseline_entries b = 1%nat).
Proof.
split; [ | split].
- pose proof (shap_normalised_for_single_case
                (Seq [decimal 4 1; decimal 6 1])) as H.
  cbv zeta in H. destruct H as (H1 & _ & _ & _ & _ & H6 & _).
  exists (reshape_row one_row_ten), (Scalar (decimal 6 1)).
  split; [apply H1 | ]. split; [ | reflexivity].
  rewrite H6. reflexivity.
- destruct (shap_normalised_for_single_case (Scalar (decimal 6 1)))
    as (_ & _ & _ & _ & _ & _ & _ & _ & H9).
  destruct (H9 (SvStructured one_row_ten (Some (Seq [decimal 6 1]))))
    as (v & b & H); [ | exists v, b; exact H].
  split; [exists one_row_ten; split; reflexivity | reflexivity].
- destruct (shap_normalised_for_single_case (Scalar (decimal 6 1)))
    as (_ & _ & _ & _ & _ & _ & _ & _ & H9).
  destruct (H9 (SvArray one_row_ten)) as (v & b & H);
    [ | exists v, b; exact H].
  split; [exists one_row_ten; split; reflexivity | reflexivity].
Defined.

(** Against C7 as stated: a bare array that comes with a two-entry
    [expected_value] keeps both entries as its baseline (entry 1 is not
    selected, and the baseline is not a single value); and a bare array
    with one row of ten features by two classes is flattened to twenty
    contributions. *)
Lemma bare_array_not_sliced :
(shap_vec_base (Seq [decimal 4 1; decimal 6 1]) (SvArray one_row_ten)
 = Ok (reshape_row one_row_ten, Seq [decimal 4 1; decimal 6 1])
 /\ Seq [decimal 4 1; decimal 6 1] <> Scalar (decimal 6 1)
 /\ baseline_entries (Seq [decimal 4 1; decimal 6 1]) = 2%nat)
/\ (exists v b,
      shap_vec_base (Seq [decimal 4 1; decimal 6 1])
        (SvArray one_row_ten_by_two) = Ok (v, b)
      /\ List.length (row v) = 20%nat
      /\ List.length (row v) <> List.length FINAL_FEATURES).
Proof.
split.
- split; [reflexivity | ]. split; [discriminate | reflexivity].
- eexists _, _. split; [reflexivity | ]. split; [reflexivity | ].
  vm_compute. discriminate.
Qed.

(* ------------------------------------------------------------------ *)
(** ** What a submission renders *)

Lemma ensure_ok_columns {V : Type} (d : dict V) (order : list string)
  (df : Pandas.DataFrame V) :
ensure_feature_dataframe d order = Ok df -> Pandas.columns df = order.
Proof.
unfold ensure_feature_dataframe. rewrite missing_is_absent.
destruct (filter (absent d) order) eqn:Hf; [ | discriminate].
unfold Pandas.of_record.
destruct (getitem_present d order Hf) as [-> Hcols].
intros H. injection H as <-. exact Hcols.
Qed.

Lemma get_in_keys {V : Type} (d : dict V) (k : string) :
In k (keys d) -> exists v, get d k = Some v.
Proof.
induction d as [ | [k' v] d IH]; simpl; [tauto | ].
intros Hin. destruct (String.eqb_spec k k') as [-> | Hne]; [eauto | ].
apply IH. destruct Hin as [-> | Hin]; [congruence | exact Hin].
Qed.

Lemma iloc0_keys (df : Pandas.DataFrame cell) :
keys (iloc0 df) = Pandas.columns df.
Proof.
unfold iloc0, keys, Pandas.columns.
destruct (common_dtype _); try reflexivity.
rewrite map_map. reflexivity.
Qed.

Lemma for_each_ok {A B} (f : A -> result B) (l : list A) :
(forall a, In a l -> exists b, f a = Ok b) ->
exists bs, for_each f l = Ok bs.
Proof.
induction l as [ | a l IH]; simpl; intros H; [eauto | ].
destruct (H a (or_introl eq_refl)) as [b ->].
destruct IH as [bs ->]; [auto | ]. simpl. eauto.
Qed.

Section PageFacts.

Variable np_exp : float -> float.
Variable str_float : float -> string.
Variable float_of_array : ndarray -> result float.

Lemma shap_block_outcome (a : artifacts) (df : Pandas.DataFrame cell)
  (X : ndarray) (out : list event) :
shap_block str_float a df X out =
match attribution str_float a df X with
| Ok shap_ex => (Ok tt, (out ++ [shap_title; Pyplot shap_ex])%list)
| Raise e => (Raise e, (out ++ [shap_title])%list)
end.
Proof.
unfold shap_block, attribution, sbind, emit, lift, bind.
destruct (tree_explainer a) as [ex | e]; [ | reflexivity].
destruct (shap_values ex X) as [sv | e]; [ | reflexivity].
destruct (shap_vec_base (expected_value ex) sv) as [[v b] | e];
  [ | reflexivity].
cbn [fst snd].
destruct (for_each (display_val str_float) (iloc0 df)) as [vals | e];
  [ | reflexivity].
destruct (waterfall a _ _) as [[] | e]; [ | reflexivity].
now rewrite <- app_assoc.
Qed.

Lemma disp_rows_ok (df : Pandas.DataFrame cell) :
Pandas.columns df = FINAL_FEATURES ->
exists rows,
  for_each (disp_row str_float (iloc0 df)) FINAL_FEATURES = Ok rows.
Proof.
intros Hcols. apply for_each_ok. intros k Hin.
unfold disp_row.
destruct (get_in_keys (iloc0 df) k) as [v ->]; [ | eauto].
rewrite iloc0_keys, Hcols. exact Hin.
Qed.

(** The page after a prediction that succeeded. *)
Lemma on_submit_after_prediction (a : artifacts) (user_inputs : dict cell)
  (thr : float) (show_shap : bool) (out : list event)
  (df : Pandas.DataFrame cell) (X : ndarray) (prob : float) :
prediction np_exp float_of_array a user_inputs = Ok (df, X, prob) ->
exists rows,
  for_each (disp_row str_float (iloc0 df)) FINAL_FEATURES = Ok rows
  /\ let shown :=
       (out ++ result_events prob thr
          ++ [Markdown "**Input summary**"; Dataframe rows])%list in
     on_submit np_exp str_float float_of_array a user_inputs thr show_shap out =
     if show_shap then
       match attribution str_float a df X with
       | Ok shap_ex => (Ok tt, (shown ++ [shap_title; Pyplot shap_ex])%list)
       | Raise e =>
           (Ok tt,
            (shown ++ [shap_title;
                       Error ("Prediction failed: " ++ exn_str e)])%list)
       end
     else (Ok tt, shown).
Proof.
unfold prediction. intros Hpred.
destruct (ensure_feature_dataframe user_inputs FINAL_FEATURES)
  as [df' | ] eqn:Hens; [ | discriminate].
cbn [bind] in Hpred.
destruct (preprocessor_transform a df') as [X' | ] eqn:Htr; [ | discriminate].
cbn [bind] in Hpred.
destruct (predict_proba np_exp (model a) X') as [p | ] eqn:Hp;
  [ | discriminate].
cbn [bind] in Hpred.
destruct (float_of_array p) as [prob' | ] eqn:Hf; [ | discriminate].
cbn [bind] in Hpred. injection Hpred as -> -> ->.
destruct (disp_rows_ok df (ensure_ok_columns _ _ _ Hens)) as [rows Hrows].
exists rows. split; [exact Hrows | ]. cbv zeta.
unfold on_submit, try_script, try_when, sbind, lift, emit, ret.
rewrite Hens, Htr, Hp, Hf, Hrows.
unfold result_events, risk_narrative, predicted_label.
destruct (ge prob thr); cbn [Z.b2z Z.eqb fst snd Pos.eqb];
  (destruct show_shap;
   [ rewrite shap_block_outcome;
     destruct (attribution str_float a df X) as [ex | e];
     rewrite <- ?app_assoc; reflexivity
   | rewrite <- ?app_assoc; reflexivity ]).
Qed.

End PageFacts.

(** C3 as the code has it: when the prediction of a submission succeeds,
    the metrics, the label and the narrative are rendered before the
    attribution is attempted and stay on the page whatever happens to
    it, and the handler itself never raises; an exception raised while
    computing or drawing the attribution is caught by the handler shared
    with the prediction and shown after them as
    "Prediction failed: <error>"; with the checkbox off no attribution is
    attempted. *)
Theorem attribution_failure_keeps_result
  (np_exp : float -> float) (str_float : float -> string)
  (float_of_array : ndarray -> result float)
  (a : artifacts) (user_inputs : dict cell) (thr : float)
  (out : list event)
  (df : Pandas.DataFrame cell) (X : ndarray) (prob : float)
  (Hpred : prediction np_exp float_of_array a user_inputs = Ok (df, X, prob)) :
(forall show_shap,
   fst (on_submit np_exp str_float float_of_array a user_inputs thr show_shap out) = Ok tt
   /\ exists rest,
        snd (on_submit np_exp str_float float_of_array a user_inputs thr show_shap out)
        = (out ++ result_events prob thr ++ rest)%list)
/\ (forall e, attribution str_float a df X = Raise e ->
      exists rows,
        snd (on_submit np_exp str_float float_of_array a user_inputs thr true out)
        = (out ++ result_events prob thr
             ++ [Markdown "**Input summary**"; Dataframe rows; shap_title;
                 Error ("Prediction failed: " ++ exn_str e)])%list)
/\ (exists rows,
      snd (on_submit np_exp str_float float_of_array a user_inputs thr false out)
      = (out ++ result_events prob thr
           ++ [Markdown "**Input summary**"; Dataframe rows])%list).
Proof.
split; [ | split].
- intros show_shap.
  destruct (on_submit_after_prediction np_exp str_float float_of_array a user_inputs thr
              show_shap out df X prob Hpred) as (rows & _ & Heq).
  cbv zeta in Heq. rewrite Heq.
  destruct show_shap;
    [destruct (attribution str_float a df X) as [ex | e] | ];
    (split; [reflexivity | ]); cbn [snd];
    rewrite <- ?app_assoc; eexists; reflexivity.
- intros e He.
  destruct (on_submit_after_prediction np_exp str_float float_of_array a user_inputs thr
              true out df X prob Hpred) as (rows & _ & Heq).
  cbv zeta in Heq. rewrite Heq, He.
  exists rows. cbn [snd]. now rewrite <- ?app_assoc.
- destruct (on_submit_after_prediction np_exp str_float float_of_array a user_inputs thr
              false out df X prob Hpred) as (rows & _ & Heq).
  cbv zeta in Heq. rewrite Heq.
  exists rows. reflexivity.
Qed.

Lemma attribution_failure_keeps_result_witness :
exists rows,
  snd (on_submit ExpModel.exp sample_str_float legacy_float sample_artifacts scenario_A
         (decimal 50 2) true [])
  = (result_events (decimal 30 2) (decimal 50 2)
       ++ [Markdown "**Input summary**"; Dataframe rows; shap_title;
           Error ("Prediction failed: " ++ exn_str unwrap_error)])%list.
Proof.
destruct (ensure_feature_dataframe scenario_A FINAL_FEATURES)
  as [df | ] eqn:Hens; [ | discriminate].
pose proof (attribution_failure_keeps_result ExpModel.exp sample_str_float legacy_float
              sample_artifacts scenario_A (decimal 50 2) []
              df (mk_array [1; 10]%nat (map as_float (Pandas.row0 df)))
              (decimal 30 2)) as H.
destruct H as (_ & H & _).
- unfold prediction. rewrite Hens. reflexivity.
- apply (H unwrap_error). reflexivity.
Defined.

(** Against C3 as stated: in scenario A the prediction succeeds (0.30,
    "Low stress risk"), the SHAP block raises, and the page ends with an
    error box that reads "Prediction failed: ...". *)
Lemma attribution_failure_shown_as_prediction_failure :
let page :=
  snd (Effects.run
         (on_submit ExpModel.exp sample_str_float legacy_float sample_artifacts
            scenario_A (decimal 50 2) true)) in
In (Success LOW) page
/\ In (Metric "Probability" "30.00%") page
/\ last page (Columns 0)
   = Error "Prediction failed: 'XGBClassifier' object has no attribute 'calibrated_classifiers_'".
Proof.
vm_compute. repeat split; auto 10.
Qed.

(* ------------------------------------------------------------------ *)
(** ** Rounding of doubles

    The steps of [binary_round_aux] on integers: a shift to the exponent
    of the format, a step to the nearest mantissa, a second shift.  From
    them, [1.0 + e] is at least 1 for a positive [e], and [1.0 / y] is at
    most 1 for [y] at least 1. *)

Lemma digits2_pos_bounds (m : positive) :
2 ^ (Zpos (digits2_pos m) - 1) <= Zpos m < 2 ^ Zpos (digits2_pos m).
Proof.
induction m as [m IH | m IH | ]; cbn [digits2_pos].
- rewrite Pos2Z.inj_succ, (Pos2Z.inj_xI m).
  replace (Z.succ (Zpos (digits2_pos m)) - 1) with (Z.succ (Zpos (digits2_pos m) - 1)) by lia.
  rewrite !Z.pow_succ_r by lia. lia.
- rewrite Pos2Z.inj_succ, (Pos2Z.inj_xO m).
  replace (Z.succ (Zpos (digits2_pos m)) - 1) with (Z.succ (Zpos (digits2_pos m) - 1)) by lia.
  rewrite !Z.pow_succ_r by lia. lia.
- simpl. lia.
Qed.

Lemma shr_1_m (mrs : shr_record) :
0 <= shr_m mrs -> shr_m (shr_1 mrs) = shr_m mrs / 2.
Proof.
destruct mrs as [m r s]. cbn [shr_m]. intros Hm.
destruct m as [ | [p | p | ] | p]; cbn [shr_1 shr_m]; try lia.
- reflexivity.
- rewrite (Pos2Z.inj_xI p). apply Z.div_unique with (r := 1); lia.
- rewrite (Pos2Z.inj_xO p). apply Z.div_unique with (r := 0); lia.
- reflexivity.
Qed.

Lemma iter_shr_m (p : positive) (mrs : shr_record) :
0 <= shr_m mrs ->
shr_m (iter_pos shr_1 p mrs) = shr_m mrs / 2 ^ Zpos p.
Proof.
revert mrs. induction p as [p IH | p IH | ]; intros mrs Hm; cbn [iter_pos].
- assert (H1 : 0 <= shr_m (shr_1 mrs))
    by (rewrite shr_1_m by exact Hm; apply Z.div_pos; lia).
  assert (H2 : 0 <= shr_m (iter_pos shr_1 p (shr_1 mrs)))
    by (rewrite IH by exact H1; apply Z.div_pos; lia).
  rewrite IH, IH, shr_1_m by assumption.
  rewrite (Pos2Z.inj_xI p).
  replace (2 * Zpos p + 1) with (1 + Zpos p + Zpos p) by lia.
  rewrite !Z.pow_add_r by lia.
  rewrite !Z.div_div by lia. f_equal. change (2 ^ 1) with 2. ring.
- assert (H2 : 0 <= shr_m (iter_pos shr_1 p mrs))
    by (rewrite IH by exact Hm; apply Z.div_pos; lia).
  rewrite IH, IH by assumption.
  rewrite (Pos2Z.inj_xO p).
  replace (2 * Zpos p) with (Zpos p + Zpos p) by lia.
  rewrite !Z.pow_add_r by lia.
  rewrite !Z.div_div by lia. reflexivity.
- apply shr_1_m. exact Hm.
Qed.

Lemma fexp64_eq (e : Z) : fexp64 e = Z.max (e - 53) (-1074).
Proof. reflexivity. Qed.

Lemma Zdigits2_bounds (m : Z) :
0 < m -> 2 ^ (Zdigits2 m - 1) <= m < 2 ^ Zdigits2 m.
Proof.
destruct m as [ | p | p]; try lia. intros _. apply digits2_pos_bounds.
Qed.

Lemma Zdigits2_pos (m : Z) : 0 < m -> 0 < Zdigits2 m.
Proof. destruct m; simpl; lia. Qed.

(** A positive number below [2^k] has at most [k] digits. *)
Lemma Zdigits2_le (m k : Z) : 0 < m -> m < 2 ^ k -> Zdigits2 m <= k.
Proof.
intros Hm Hk.
destruct (Z.le_gt_cases (Zdigits2 m) k) as [H | H]; [exact H | exfalso].
pose proof (Zdigits2_bounds m Hm) as [Hlo _].
assert (2 ^ k <= 2 ^ (Zdigits2 m - 1)); [ | lia].
destruct (Z.le_gt_cases 0 k).
- apply Z.pow_le_mono_r; lia.
- rewrite (Z.pow_neg_r 2 k) by lia. apply Z.pow_nonneg. lia.
Qed.

(** A number of at least [2^k] has more than [k] digits. *)
Lemma Zdigits2_gt (m k : Z) : 0 <= k -> 2 ^ k <= m -> k < Zdigits2 m.
Proof.
intros Hk Hm.
assert (0 < m) by (pose proof (Z.pow_pos_nonneg 2 k); lia).
pose proof (Zdigits2_bounds m H) as [_ Hhi].
apply (Z.pow_lt_mono_r_iff 2); [lia | | lia].
pose proof (Zdigits2_pos m H). lia.
Qed.

Lemma shr_fexp_spec (m e : Z) (l : location) :
0 <= m ->
exists mrs,
  shr_fexp prec emax m e l = (mrs, Z.max e (fexp64 (Zdigits2 m + e)))
  /\ shr_m mrs = m / 2 ^ (Z.max e (fexp64 (Zdigits2 m + e)) - e).
Proof.
intros Hm. unfold shr_fexp, shr. fold (fexp64 (Zdigits2 m + e)).
assert (Hrec : shr_m (shr_record_of_loc m l) = m)
  by (destruct l as [ | []]; reflexivity).
destruct (fexp64 (Zdigits2 m + e) - e) as [ | p | p] eqn:Hn.
- eexists. split; [f_equal; lia | ].
  rewrite Hrec. replace (Z.max _ _ - e) with 0 by lia.
  now rewrite Z.pow_0_r, Z.div_1_r.
- eexists. split; [f_equal; lia | ].
  rewrite iter_shr_m by (rewrite Hrec; exact Hm).
  rewrite Hrec. f_equal. f_equal. lia.
- eexists. split; [f_equal; lia | ].
  rewrite Hrec. replace (Z.max _ _ - e) with 0 by lia.
  now rewrite Z.pow_0_r, Z.div_1_r.
Qed.

Lemma round_nearest_even_bounds (m : Z) (l : location) :
m <= round_nearest_even m l <= m + 1.
Proof.
destruct l as [ | []]; simpl; try lia. destruct (Z.even m); lia.
Qed.

(** The two shifts and the rounding step of [binary_round_aux]. *)
Lemma binary_round_aux_spec (sx : bool) (mx ex : Z) (lx : location) :
0 <= mx ->
exists m2,
  let e1 := Z.max ex (fexp64 (Zdigits2 mx + ex)) in
  let m1 := mx / 2 ^ (e1 - ex) in
  let e3 := Z.max e1 (fexp64 (Zdigits2 m2 + e1)) in
  let m3 := m2 / 2 ^ (e3 - e1) in
  m1 <= m2 <= m1 + 1
  /\ binary_round_aux prec emax sx mx ex lx =
     match m3 with
     | Z0 => S754_zero sx
     | Zpos m => if e3 <=? emax - prec then S754_finite sx m e3
                 else S754_infinity sx
     | Zneg _ => S754_nan
     end.
Proof.
intros Hm. unfold binary_round_aux.
destruct (shr_fexp_spec mx ex lx Hm) as (mrs1 & -> & Hm1).
set (e1 := Z.max ex (fexp64 (Zdigits2 mx + ex))) in *.
set (m2 := round_nearest_even (shr_m mrs1) (loc_of_shr_record mrs1)).
pose proof (round_nearest_even_bounds (shr_m mrs1) (loc_of_shr_record mrs1))
  as Hb. fold m2 in Hb.
assert (H1 : 0 <= shr_m mrs1)
  by (rewrite Hm1; apply Z.div_pos; [lia | apply Z.pow_pos_nonneg; lia]).
assert (H2 : 0 <= m2) by lia.
destruct (shr_fexp_spec m2 e1 loc_Exact H2) as (mrs2 & -> & Hm2).
exists m2. cbv zeta. rewrite <- Hm1, <- Hm2. split; [exact Hb | reflexivity].
Qed.

Lemma ge_one_pos (m e : Z) : ge_one m e -> 0 < m.
Proof.
intros [[He Hm] | [He Hm]]; [ | lia].
pose proof (Z.pow_pos_nonneg 2 (- e)). lia.
Qed.

Lemma ge_one_mono (m m' e : Z) : ge_one m e -> m <= m' -> ge_one m' e.
Proof. unfold ge_one. intros [[? ?] | [? ?]] ?; [left | right]; lia. Qed.

(** Shifting to the exponent of the format keeps a value of at least 1
    at least 1. *)
Lemma shift_ge_one (m e : Z) :
ge_one m e ->
ge_one (m / 2 ^ (Z.max e (fexp64 (Zdigits2 m + e)) - e))
  (Z.max e (fexp64 (Zdigits2 m + e))).
Proof.
intros Hge. pose proof (ge_one_pos m e Hge) as Hpos.
set (e' := Z.max e (fexp64 (Zdigits2 m + e))).
destruct (Z.eq_dec e' e) as [-> | Hne].
- rewrite Z.sub_diag, Z.pow_0_r, Z.div_1_r. exact Hge.
- assert (He' : e < e' /\ e' = fexp64 (Zdigits2 m + e)) by (unfold e' in *; lia).
  destruct He' as [Hlt Hfe].
  assert (Hpow : 0 < 2 ^ (e' - e)) by (apply Z.pow_pos_nonneg; lia).
  destruct (Z.le_gt_cases e' 0) as [Hle | Hgt].
  + left. split; [exact Hle | ].
    apply Z.div_le_lower_bound; [exact Hpow | ].
    rewrite <- Z.pow_add_r by lia.
    replace (e' - e + - e') with (- e) by lia.
    destruct Hge as [[_ H] | [H _]]; [exact H | lia].
  + right. split; [exact Hgt | ].
    apply Z.div_le_lower_bound; [exact Hpow | ].
    rewrite Z.mul_1_r.
    rewrite fexp64_eq in Hfe.
    assert (Hd : e' - e = Zdigits2 m - 53) by lia.
    rewrite Hd.
    pose proof (Zdigits2_bounds m Hpos) as [Hlo _].
    eapply Z.le_trans; [ | exact Hlo].
    apply Z.pow_le_mono_r; lia.
Qed.

(** Rounding a value of at least 1 gives an infinity or a finite double
    of at least 1. *)
Lemma round_ge_one (mx ex : Z) (lx : location) :
ge_one mx ex ->
binary_round_aux prec emax false mx ex lx = S754_infinity false
\/ exists m e, binary_round_aux prec emax false mx ex lx = S754_finite false m e
               /\ ge_one (Zpos m) e.
Proof.
intros Hge. pose proof (ge_one_pos mx ex Hge) as Hpos.
destruct (binary_round_aux_spec false mx ex lx ltac:(lia)) as (m2 & Hb & ->).
cbv zeta in Hb |- *.
set (e1 := Z.max ex (fexp64 (Zdigits2 mx + ex))) in *.
pose proof (shift_ge_one mx ex Hge) as H1. fold e1 in H1.
pose proof (ge_one_mono _ m2 _ H1 ltac:(lia)) as H2.
pose proof (shift_ge_one m2 e1 H2) as H3.
set (e3 := Z.max e1 (fexp64 (Zdigits2 m2 + e1))) in *.
pose proof (ge_one_pos _ _ H3) as Hp3.
destruct (m2 / 2 ^ (e3 - e1)) as [ | m3 | m3]; try lia.
destruct (e3 <=? emax - prec); [right | left; reflexivity].
exists m3, e3. split; [reflexivity | exact H3].
Qed.

(** Rounding a value below 1, given at an exponent of at most -53,
    gives zero or a finite double of at most 1. *)
Lemma round_lt_one (mx ex : Z) (lx : location) :
0 <= mx -> ex <= -53 -> mx < 2 ^ (- ex) ->
binary_round_aux prec emax false mx ex lx = S754_zero false
\/ exists m e, binary_round_aux prec emax false mx ex lx = S754_finite false m e
               /\ e <= -52 /\ Zpos m <= 2 ^ (- e).
Proof.
intros Hm Hex Hlt.
destruct (binary_round_aux_spec false mx ex lx Hm) as (m2 & Hb & ->).
cbv zeta in Hb |- *.
set (e1 := Z.max ex (fexp64 (Zdigits2 mx + ex))) in *.
assert (He1 : ex <= e1 <= -53).
{ unfold e1. rewrite fexp64_eq.
  destruct (Z.eq_dec mx 0) as [-> | Hne]; [simpl; lia | ].
  pose proof (Zdigits2_le mx (- ex) ltac:(lia) Hlt). lia. }
assert (Hp1 : 0 < 2 ^ (e1 - ex)) by (apply Z.pow_pos_nonneg; lia).
assert (Hm1 : 0 <= mx / 2 ^ (e1 - ex) < 2 ^ (- e1)).
{ split; [apply Z.div_pos; lia | ].
  apply Z.div_lt_upper_bound; [exact Hp1 | ].
  rewrite <- Z.pow_add_r by lia.
  now replace (e1 - ex + - e1) with (- ex) by lia. }
assert (Hm2 : 0 <= m2 <= 2 ^ (- e1)) by lia.
set (e3 := Z.max e1 (fexp64 (Zdigits2 m2 + e1))) in *.
assert (He3 : e1 <= e3 <= -52).
{ unfold e3. rewrite fexp64_eq.
  destruct (Z.eq_dec m2 0) as [-> | Hne]; [simpl; lia | ].
  assert (Hd : Zdigits2 m2 <= - e1 + 1); [ | lia].
  apply Zdigits2_le; [lia | ].
  rewrite Z.pow_add_r, Z.pow_1_r by lia. lia. }
assert (Hp3 : 0 < 2 ^ (e3 - e1)) by (apply Z.pow_pos_nonneg; lia).
assert (Hm3 : 0 <= m2 / 2 ^ (e3 - e1) <= 2 ^ (- e3)).
{ split; [apply Z.div_pos; lia | ].
  apply Z.div_le_upper_bound; [exact Hp3 | ].
  rewrite <- Z.pow_add_r by lia.
  now replace (e3 - e1 + - e3) with (- e1) by lia. }
destruct (m2 / 2 ^ (e3 - e1)) as [ | m3 | m3]; [left; reflexivity | | lia].
right. exists m3, e3.
replace (e3 <=? emax - prec) with true
  by (symmetry; apply Z.leb_le; unfold emax, prec; lia).
split; [reflexivity | split; lia].
Qed.

Lemma one_of_Z : one = of_Z 1.
Proof. reflexivity. Qed.

Lemma pow2_52 : 2 ^ 52 = 4503599627370496.
Proof. reflexivity. Qed.

Lemma SFleb_same_sign (m m' : positive) (e e' : Z) :
e < e' \/ (e = e' /\ Zpos m <= Zpos m') ->
SFleb (S754_finite false m e) (S754_finite false m' e') = true.
Proof.
intros H. unfold SFleb, SFcompare.
destruct (Z.compare_spec e e') as [Heq | Hlt | Hgt];
  [ | reflexivity | lia].
destruct H as [H | [_ H]]; [lia | ].
pose proof (Pos.compare_spec m m') as Hc. unfold Pos.compare in Hc.
destruct Hc as [Hc | Hc | Hc]; try reflexivity. lia.
Qed.

(** A positive double of at most 1, in that form, compares [<= 1.0]. *)
Lemma le_one_finite (m : positive) (e : Z) :
e <= -52 -> Zpos m <= 2 ^ (- e) -> le (S754_finite false m e) one = true.
Proof.
intros He Hm. unfold le, one. apply SFleb_same_sign.
destruct (Z.eq_dec e (-52)) as [Heq | Hne]; [right | left; lia].
split; [exact Heq | ].
rewrite Heq in Hm. change (- -52) with 52 in Hm. rewrite pow2_52 in Hm.
exact Hm.
Qed.

Lemma pos_iter_xO (m d : positive) :
Zpos (Pos.iter xO m d) = Zpos m * 2 ^ Zpos d.
Proof.
induction d as [ | d IH] using Pos.peano_ind.
- simpl. lia.
- rewrite Pos.iter_succ, (Pos2Z.inj_xO (Pos.iter xO m d)), IH.
  rewrite Pos2Z.inj_succ, Z.pow_succ_r by lia. ring.
Qed.

Lemma shl_align_spec (mx : positive) (ex ex' : Z) :
snd (shl_align mx ex ex') = Z.min ex ex'
/\ Zpos (fst (shl_align mx ex ex')) = Zpos mx * 2 ^ (ex - Z.min ex ex').
Proof.
unfold shl_align. destruct (ex' - ex) as [ | d | d] eqn:Hd; cbn [fst snd].
- replace (Z.min ex ex') with ex by lia.
  rewrite Z.sub_diag, Z.pow_0_r. lia.
- replace (Z.min ex ex') with ex by lia.
  rewrite Z.sub_diag, Z.pow_0_r. lia.
- replace (Z.min ex ex') with ex' by lia.
  rewrite pos_iter_xO. split; [reflexivity | ]. do 2 f_equal. lia.
Qed.

(** [binary_round] of a value of at least 1. *)
Lemma binary_round_ge_one (p : positive) (e : Z) :
ge_one (Zpos p) e ->
binary_round prec emax false p e = S754_infinity false
\/ exists m e', binary_round prec emax false p e = S754_finite false m e'
                /\ ge_one (Zpos m) e'.
Proof.
intros Hge. unfold binary_round.
pose proof (shl_align_spec p e (fexp prec emax (Zpos (digits2_pos p) + e)))
  as [He Hm].
destruct (shl_align p e (fexp prec emax (Zpos (digits2_pos p) + e)))
  as [mz ez]. cbn [fst snd] in He, Hm.
apply round_ge_one.
set (t := fexp prec emax (Zpos (digits2_pos p) + e)) in *.
assert (Hp : 0 < 2 ^ (e - ez)) by (apply Z.pow_pos_nonneg; lia).
rewrite Hm, <- He.
destruct Hge as [[H0 H1] | [H0 H1]].
- left. split; [lia | ].
  replace (- ez) with (- e + (e - ez)) by lia.
  rewrite Z.pow_add_r by lia.
  apply Z.mul_le_mono_nonneg_r; lia.
- destruct (Z.le_gt_cases ez 0).
  + left. split; [assumption | ].
    assert (2 ^ (- ez) <= 2 ^ (e - ez)) by (apply Z.pow_le_mono_r; lia).
    nia.
  + right. split; [assumption | nia].
Qed.

(** [1.0 + e] for a positive finite [e] is an infinity or a finite
    double of at least 1. *)
Lemma add_one_ge_one (m : positive) (ex : Z) :
add one (S754_finite false m ex) = S754_infinity false
\/ exists my ey, add one (S754_finite false m ex) = S754_finite false my ey
                 /\ ge_one (Zpos my) ey.
Proof.
unfold add, one, SFadd. cbn [cond_Zopp].
set (ez := Z.min (-52) ex).
pose proof (shl_align_spec 4503599627370496 (-52) ez) as [_ H1].
pose proof (shl_align_spec m ex ez) as [_ H2].
set (a := fst (shl_align 4503599627370496 (-52) ez)) in *.
set (b := fst (shl_align m ex ez)) in *.
change (Zpos a + Zpos b) with (Zpos (a + b)).
cbn [binary_normalize].
apply binary_round_ge_one.
left. split; [unfold ez; lia | ].
rewrite Pos2Z.inj_add, H1.
replace (Z.min (-52) ez) with ez in * by (unfold ez; lia).
rewrite <- pow2_52, <- Z.pow_add_r by (unfold ez; lia).
replace (52 + (-52 - ez)) with (- ez) by lia. lia.
Qed.

(** The quotient that [1.0 / y] rounds, for a positive finite [y]. *)
Lemma div_core_one (my : positive) (ey : Z) :
let e' := Z.min (fexp64 (1 - (Zpos (digits2_pos my) + ey))) (-52 - ey) in
SFdiv_core_binary prec emax 4503599627370496 (-52) (Zpos my) ey
= (2 ^ (- ey - e') / Zpos my, e',
   new_location (Zpos my) (2 ^ (- ey - e') mod Zpos my)).
Proof.
cbv zeta. unfold SFdiv_core_binary.
change (Zdigits2 4503599627370496) with 53.
change (Zdigits2 (Zpos my)) with (Zpos (digits2_pos my)).
replace (53 + -52 - (Zpos (digits2_pos my) + ey))
  with (1 - (Zpos (digits2_pos my) + ey)) by lia.
fold (fexp64 (1 - (Zpos (digits2_pos my) + ey))).
set (e' := Z.min (fexp64 (1 - (Zpos (digits2_pos my) + ey))) (-52 - ey)).
assert (Hm' : match -52 - ey - e' with
              | Zpos _ => Z.shiftl 4503599627370496 (-52 - ey - e')
              | Z0 => 4503599627370496
              | Zneg _ => 0
              end = 2 ^ (- ey - e')).
{ destruct (-52 - ey - e') as [ | s | s] eqn:Hs.
  - replace (- ey - e') with 52 by lia. symmetry. exact pow2_52.
  - rewrite Z.shiftl_mul_pow2 by lia.
    rewrite <- pow2_52, <- Z.pow_add_r by lia. f_equal. lia.
  - unfold e' in Hs. lia. }
rewrite Hm'.
unfold Z.div, Z.modulo.
destruct (Z.div_eucl (2 ^ (- ey - e')) (Zpos my)) as [q r]. reflexivity.
Qed.

Lemma new_location_zero (n : Z) : new_location n 0 = loc_Exact.
Proof.
unfold new_location, new_location_even, new_location_odd.
destruct (Z.even n); reflexivity.
Qed.

Lemma le_zero_nonneg (x : float) :
match x with
| S754_zero _ | S754_finite false _ _ | S754_infinity false => le zero x = true
| _ => True
end.
Proof. destruct x as [s | [ | ] | | [ | ] m e]; try exact I; reflexivity. Qed.

(** [1.0 / y] for a finite [y >= 1] lies between 0 and 1. *)
Lemma div_one_ge_one (my : positive) (ey : Z) :
ge_one (Zpos my) ey ->
le zero (div one (S754_finite false my ey)) = true
/\ le (div one (S754_finite false my ey)) one = true.
Proof.
intros Hge. unfold div, one, SFdiv. rewrite div_core_one. cbn [xorb].
set (d := Zpos (digits2_pos my)).
set (e' := Z.min (fexp64 (1 - (d + ey))) (-52 - ey)).
assert (Hd : 1 <= d + ey).
{ unfold d. change (Zpos (digits2_pos my)) with (Zdigits2 (Zpos my)).
  destruct Hge as [[H0 H1] | [H0 H1]].
  - pose proof (Zdigits2_gt (Zpos my) (- ey) ltac:(lia) H1). lia.
  - pose proof (Zdigits2_pos (Zpos my) ltac:(lia)). lia. }
assert (He' : e' <= -53) by (unfold e'; rewrite fexp64_eq; lia).
assert (Hs : 0 <= - ey - e') by (unfold e'; lia).
assert (Hexact : (ey <= 0 /\ Zpos my = 2 ^ (- ey))
                 \/ 2 ^ (- ey - e') < Zpos my * 2 ^ (- e')).
{ assert (Hp : 0 < 2 ^ (- e')) by (apply Z.pow_pos_nonneg; lia).
  destruct Hge as [[H0 H1] | [H0 H1]].
  - destruct (Z.eq_dec (Zpos my) (2 ^ (- ey))) as [Heq | Hne]; [now left | ].
    right. replace (- ey - e') with (- ey + - e') by lia.
    rewrite Z.pow_add_r by lia. nia.
  - right.
    assert (2 ^ (- ey - e') < 2 ^ (- e')) by (apply Z.pow_lt_mono_r; lia).
    nia. }
destruct Hexact as [[H0 Hmy] | Hlt].
- (* y is exactly 1 *)
  assert (Hd1 : d = 1 - ey).
  { unfold d. change (Zpos (digits2_pos my)) with (Zdigits2 (Zpos my)).
    pose proof (Zdigits2_gt (Zpos my) (- ey) ltac:(lia) ltac:(lia)).
    pose proof (Zdigits2_le (Zpos my) (- ey + 1) ltac:(lia)) as Hle.
    rewrite Z.pow_add_r, Z.pow_1_r in Hle by lia. lia. }
  assert (He53 : e' = -53) by (unfold e'; rewrite fexp64_eq; lia).
  rewrite He53, Hmy.
  replace (- ey - -53) with (53 + - ey) by lia.
  rewrite Z.pow_add_r by lia.
  rewrite Z.div_mul, Z.mod_mul
    by (pose proof (Z.pow_pos_nonneg 2 (- ey)); lia).
  rewrite new_location_zero.
  split; vm_compute; reflexivity.
- (* y is above 1 *)
  assert (Hq : 0 <= 2 ^ (- ey - e') / Zpos my < 2 ^ (- e')).
  { split; [apply Z.div_pos; [apply Z.pow_nonneg | ]; lia | ].
    apply Z.div_lt_upper_bound; [lia | exact Hlt]. }
  destruct (round_lt_one (2 ^ (- ey - e') / Zpos my) e'
              (new_location (Zpos my) (2 ^ (- ey - e') mod Zpos my))
              ltac:(lia) He' ltac:(lia)) as [-> | (m & e & -> & He & Hm)].
  + split; reflexivity.
  + split; [reflexivity | now apply le_one_finite].
Qed.

(** The logistic value of a score is in the closed unit interval as soon
    as the exponential is not negative. *)
Lemma logistic_in_closed_unit (np_exp : float -> float) (z : float) :
exp_value_ok (np_exp (opp z)) = true ->
in_closed_unit (logistic np_exp z) = true.
Proof.
unfold logistic, in_closed_unit.
destruct (np_exp (opp z)) as [s | [ | ] | | [ | ] m e]; try discriminate;
  intros _.
- reflexivity.
- reflexivity.
- destruct (add_one_ge_one m e) as [-> | (my & ey & -> & Hge)];
    [reflexivity | ].
  destruct (div_one_ge_one my ey Hge) as [-> ->]. reflexivity.
Qed.

(* ------------------------------------------------------------------ *)
(** ** Probability engine *)

Lemma in_firstn {A} (n : nat) (l : list A) (x : A) :
In x (firstn n l) -> In x l.
Proof.
intros H. rewrite <- (firstn_skipn n l). apply in_or_app. now left.
Qed.

Lemma in_skipn {A} (n : nat) (l : list A) (x : A) :
In x (skipn n l) -> In x l.
Proof.
intros H. rewrite <- (firstn_skipn n l). apply in_or_app. now right.
Qed.

(** Slicing column 1 only picks cells of the array. *)
Lemma take_col1_incl (n k r : nat) (l : list float) :
incl (take_col1 n k r l) l.
Proof.
revert l. induction n as [ | n IH]; intros l x; cbn [take_col1]; [intros [] | ].
intros H. apply in_app_or in H. destruct H as [H | H].
- eapply in_skipn, in_firstn, H.
- eapply in_skipn, IH, H.
Qed.

(** In a matrix of [n] rows and [k >= 2] columns, the cell [i] of the
    slice is the cell of row [i] and column 1. *)
Lemma take_col1_nth (n k : nat) (l : list float) (i : nat) (d : float) :
(2 <= k)%nat -> List.length l = (n * k)%nat -> (i < n)%nat ->
nth i (take_col1 n k 1 l) d = nth (i * k + 1) l d.
Proof.
intros Hk. revert l i.
induction n as [ | n IH]; intros l i Hlen Hi; [lia | ].
cbn [take_col1].
assert (H1 : List.length (firstn 1 (skipn 1 l)) = 1%nat).
{ rewrite length_firstn, length_skipn. nia. }
destruct i as [ | i].
- rewrite app_nth1 by lia.
  destruct l as [ | a [ | b l]]; simpl in *; try nia. reflexivity.
- rewrite app_nth2 by lia. rewrite H1.
  replace (S i - 1)%nat with i by lia.
  rewrite IH; [ | rewrite length_skipn; nia | lia].
  rewrite nth_skipn. f_equal. nia.
Qed.

Lemma take_col1_length (n k : nat) (l : list float) :
(2 <= k)%nat -> List.length l = (n * k)%nat ->
List.length (take_col1 n k 1 l) = n.
Proof.
intros Hk. revert l. induction n as [ | n IH]; intros l Hlen; [reflexivity | ].
cbn [take_col1]. rewrite length_app, length_firstn, length_skipn.
rewrite IH by (rewrite length_skipn; nia). nia.
Qed.

(** C2 as the code has it: the engine tries [predict_proba] first and
    returns column 1 of what the model gives, unchanged, so that the
    result is in [0, 1] when the model's cells are; failing that it
    tries [decision_function] and returns [1.0 / (1.0 + exp(-z))] for
    each score, computed in doubles, which is in the closed interval
    [0, 1] whenever the exponential is not negative; failing both it
    raises [RuntimeError] "Model does not support probability outputs". *)
Theorem predict_proba_priority
  (np_exp : float -> float) (model : classifier) (X : ndarray) :
(forall proba, cl_predict_proba model = Some proba ->
   predict_proba np_exp model X = (p <- proba X ;; column1 p)%py
   /\ forall n k cells,
        proba X = Ok (mk_array [n; k] cells) -> (2 <= k)%nat ->
        List.length cells = (n * k)%nat ->
        exists out,
          predict_proba np_exp model X = Ok (mk_array [n] out)
          /\ List.length out = n
          /\ (forall i d, (i < n)%nat -> nth i out d = nth (i * k + 1) cells d)
          /\ (Forall (fun c => in_closed_unit c = true) cells ->
              Forall (fun c => in_closed_unit c = true) out))
/\ (forall decision,
      cl_predict_proba model = None ->
      cl_decision_function model = Some decision ->
      predict_proba np_exp model X
      = (z <- decision X ;; Ok (map_array (logistic np_exp) z))%py
      /\ forall zs,
           decision X = Ok zs ->
           predict_proba np_exp model X
           = Ok (mk_array (shape zs) (map (logistic np_exp) (data zs)))
           /\ (Forall (fun z => exp_value_ok (np_exp (opp z)) = true) (data zs) ->
               Forall (fun r => in_closed_unit r = true)
                 (map (logistic np_exp) (data zs))))
/\ (cl_predict_proba model = None -> cl_decision_function model = None ->
    predict_proba np_exp model X
    = Raise (mk_exn RuntimeError "Model does not support probability outputs")).
Proof.
unfold predict_proba. split; [ | split].
- intros proba ->. split; [reflexivity | ].
  intros n k cells -> Hk Hlen. cbn [bind column1 shape data numel fold_right].
  replace (Nat.ltb 1 k) with true by (symmetry; apply Nat.ltb_lt; lia).
  exists (take_col1 n k 1 cells). split; [reflexivity | ].
  split; [now apply take_col1_length | ].
  split; [intros i d Hi; now apply take_col1_nth | ].
  intros Hall. rewrite Forall_forall in *. intros c Hc.
  apply Hall. eapply take_col1_incl, Hc.
- intros decision -> ->. split; [reflexivity | ].
  intros zs ->. split; [reflexivity | ].
  intros Hall. rewrite Forall_forall in *. intros r Hr.
  apply in_map_iff in Hr. destruct Hr as (z & <- & Hz).
  apply logistic_in_closed_unit. now apply Hall.
- intros -> ->. reflexivity.
Qed.

Lemma predict_proba_priority_witness :
predict_proba ExpModel.exp (margin_model [zero; of_Z 2; of_Z (-3)])
  sample_matrix
= Ok (mk_array [3%nat]
        (map (logistic ExpModel.exp) [zero; of_Z 2; of_Z (-3)]))
/\ Forall (fun r => in_closed_unit r = true)
     (map (logistic ExpModel.exp) [zero; of_Z 2; of_Z (-3)]).
Proof.
destruct (predict_proba_priority ExpModel.exp
            (margin_model [zero; of_Z 2; of_Z (-3)]) sample_matrix)
  as (_ & Hb & _).
destruct (Hb (fun _ => Ok (mk_array [3%nat] [zero; of_Z 2; of_Z (-3)]))
            eq_refl eq_refl) as [_ Hz].
destruct (Hz (mk_array [3%nat] [zero; of_Z 2; of_Z (-3)]) eq_refl)
  as [Heq Hall].
split; [exact Heq | ].
apply Hall. cbn [data].
apply Forall_cons; [vm_compute; reflexivity | ].
apply Forall_cons; [vm_compute; reflexivity | ].
apply Forall_cons; [vm_compute; reflexivity | ].
apply Forall_nil.
Defined.

(** Against C2 as stated: at the scores 40 and -800 the logistic value
    is exactly 1.0 and exactly 0.0, neither strictly between 0 and 1;
    and a model whose [predict_proba] answers 1.5 in column 1 has 1.5
    returned. *)
Lemma logistic_reaches_both_ends :
predict_proba ExpModel.exp (margin_model [of_Z 40; of_Z (-800)])
  sample_matrix
= Ok (mk_array [2%nat] [one; zero])
/\ in_open_unit one = false
/\ in_open_unit zero = false
/\ predict_proba ExpModel.exp off_scale_model sample_matrix
   = Ok (mk_array [1%nat] [decimal 15 1])
/\ in_closed_unit (decimal 15 1) = false.
Proof.
split; [vm_compute; reflexivity | ].
split; [vm_compute; reflexivity | ].
split; [vm_compute; reflexivity | ].
split; vm_compute; reflexivity.
Qed.

(* ------------------------------------------------------------------ *)
(** ** The input form *)

Lemma NUM_CAT_COLS :
NUM_COLS = ["daydurG"; "age_G"; "ageR"; "caredurG"]
/\ CAT_COLS = ["healthR"; "healthG"; "adlR"; "adlG"; "hukou_cityR";
               "is_citycentre"].
Proof. split; reflexivity. Qed.

Ltac answer_select Hsel :=
match goal with
| |- context [selectbox ?w ?k ?opts] =>
    let E := fresh "E" in
    destruct (selectbox w k opts) as [[? ?] | ] eqn:E;
    [ | exfalso; apply (Hsel k opts); [discriminate | exact E] ]
end.

(** X1: Whatever is entered in the form, the record it builds has the four
    numbers and then the six categories as keys, and
    [ensure_feature_dataframe] accepts it: a submission of the form is
    never rejected for missing features. *)
Theorem form_record_is_complete (w : widgets)
  (Hsel : forall key options, options <> [] -> selectbox w key options <> None) :
exists user_inputs df,
  form_inputs w = Ok user_inputs
  /\ keys user_inputs = (NUM_COLS ++ CAT_COLS)%list
  /\ Permutation (keys user_inputs) FINAL_FEATURES
  /\ ensure_feature_dataframe user_inputs FINAL_FEATURES = Ok df
  /\ Pandas.columns df = FINAL_FEATURES.
Proof.
unfold form_inputs, feature_ranges.
cbn [categorical_inputs numeric_inputs select_options option_values].
repeat answer_select Hsel.
cbn [bind app].
eexists _, _. split; [reflexivity | ].
split; [reflexivity | ].
split.
- cbn [keys map fst]. unfold FINAL_FEATURES.
  apply NoDup_Permutation.
  + repeat (constructor; [cbn; intuition discriminate | ]). constructor.
  + repeat (constructor; [cbn; intuition discriminate | ]). constructor.
  + intros x. cbn. intuition.
- split; reflexivity.
Qed.

Lemma form_record_is_complete_witness :
exists user_inputs df,
  form_inputs untouched = Ok user_inputs
  /\ keys user_inputs = (NUM_COLS ++ CAT_COLS)%list
  /\ Permutation (keys user_inputs) FINAL_FEATURES
  /\ ensure_feature_dataframe user_inputs FINAL_FEATURES = Ok df
  /\ Pandas.columns df = FINAL_FEATURES.
Proof.
apply (form_record_is_complete untouched).
intros key options Hne. destruct options; [congruence | discriminate].
Defined.

Ltac split_select H :=
match type of H with
| context [selectbox ?w ?k ?opts] =>
    let E := fresh "E" in
    destruct (selectbox w k opts) as [[? ?] | ] eqn:E; [ | discriminate H]
end.

(** X2: Every category of a submitted form holds one of the codes declared
    for it in [feature_ranges] (between the two bounds), and that code
    has a text in [VALUE_MAPPINGS], given that a select box returns one
    of its options. *)
Theorem form_categories_are_declared_codes (w : widgets)
  (Hmem : forall key options o,
      selectbox w key options = Some o -> In o options)
  (user_inputs : dict cell) (Hform : form_inputs w = Ok user_inputs)
  (key : string) (lo hi : Z)
  (Hkey : get feature_ranges key = Some (Categorical [lo; hi])) :
exists v text,
  get user_inputs key = Some (CInt v)
  /\ lo <= v <= hi
  /\ mapping_get (get_default VALUE_MAPPINGS key []) (CInt v) = Some text.
Proof.
unfold form_inputs, feature_ranges in Hform.
cbn [categorical_inputs numeric_inputs select_options option_values] in Hform.
repeat split_select Hform.
cbn [bind app] in Hform. injection Hform as <-.
unfold feature_ranges in Hkey. cbn [get] in Hkey.
repeat match type of Hkey with
       | context [String.eqb key ?k] =>
           destruct (String.eqb_spec key k) as [-> | ?];
           [ try discriminate Hkey; injection Hkey as <- <- | ]
       end;
  try discriminate Hkey;
  cbn [get String.eqb Ascii.eqb Bool.eqb];
  match goal with
  | E : selectbox _ _ _ = Some (?z, _)
    |- exists v text, Some (CInt ?z) = _ /\ _ =>
      apply Hmem in E; vm_compute in E;
      repeat (destruct E as [E | E];
              [ injection E as ? ?; subst; eexists _, _;
                split; [reflexivity | split; [lia | reflexivity]]
              | ]);
      destruct E
  end.
Qed.

Lemma form_categories_are_declared_codes_witness :
exists v text,
  get [("daydurG", CFloat (of_Z 12)); ("age_G", CFloat (of_Z 60));
       ("ageR", CFloat (of_Z 60)); ("caredurG", CFloat (of_Z 60));
       ("healthR", CInt 1); ("healthG", CInt 1); ("adlR", CInt 0);
       ("adlG", CInt 0); ("hukou_cityR", CInt 0); ("is_citycentre", CInt 0)]
    "healthR" = Some (CInt v)
  /\ 1 <= v <= 5
  /\ mapping_get (get_default VALUE_MAPPINGS "healthR" []) (CInt v) = Some text.
Proof.
apply (form_categories_are_declared_codes untouched).
- intros key options o H. destruct options; [discriminate | ].
  injection H as <-. now left.
- reflexivity.
- reflexivity.
Defined.

(* ------------------------------------------------------------------ *)
(** ** Order of doubles and the label *)

Lemma compare_cont_eq (m1 m2 : positive) :
Pos.compare_cont Eq m1 m2 = Pos.compare m1 m2.
Proof. reflexivity. Qed.

(** [<=] on doubles is transitive. *)
Lemma SFleb_trans (x y z : float) :
SFleb x y = true -> SFleb y z = true -> SFleb x z = true.
Proof.
unfold SFleb.
destruct x as [sx | sx | | sx mx ex], y as [sy | sy | | sy my ey],
  z as [sz | sz | | sz mz ez];
  try destruct sx; try destruct sy; try destruct sz;
  cbn [SFcompare]; try discriminate; try reflexivity;
  repeat match goal with
         | |- context [Z.compare ?a ?b] =>
             destruct (Z.compare_spec a b); try subst
         | |- context [Pos.compare_cont Eq ?a ?b] =>
             let H := fresh "H" in
             pose proof (Pos.compare_spec a b) as H;
             unfold Pos.compare in H; destruct H; try subst
         end;
  cbn [CompOpp]; intros; try reflexivity; try discriminate; lia.
Qed.

(** X3: Raising the probability or lowering the threshold never turns a
    "High stress risk" label into "Low stress risk": the label, and the
    numeric label with it, is monotone in both. *)
Theorem label_is_monotone (p p' t t' : float)
  (Hlabel : fst (risk_narrative p t) = HIGH)
  (Hp : ge p' p = true) (Ht : ge t t' = true) :
fst (risk_narrative p' t') = HIGH /\ predicted_label p' t' = 1.
Proof.
rewrite label_of_narrative in *. unfold predicted_label.
assert (Hpt : ge p t = true).
{ destruct (ge p t); [reflexivity | ]. now elim HIGH_neq_LOW. }
assert (H : ge p' t' = true).
{ unfold ge in *. eapply SFleb_trans; [exact Ht | ].
  eapply SFleb_trans; [exact Hpt | exact Hp]. }
rewrite H. split; reflexivity.
Qed.

Lemma label_is_monotone_witness :
fst (risk_narrative (decimal 50 2) (decimal 20 2)) = HIGH
/\ predicted_label (decimal 50 2) (decimal 20 2) = 1.
Proof.
apply (label_is_monotone (decimal 30 2) (decimal 50 2)
         (decimal 30 2) (decimal 20 2)); reflexivity.
Defined.

(* ------------------------------------------------------------------ *)
(** ** The page when the prediction fails or succeeds *)

(** X4: When one of the steps up to the probability raises (a missing
    feature, the preprocessor, the model, a result that is not one
    number), the page shows the error box [Prediction failed: ...] and
    nothing else of the result, and the handler returns normally. *)
Theorem failed_prediction_renders_only_the_error
  (np_exp : float -> float) (str_float : float -> string)
  (float_of_array : ndarray -> result float)
  (a : artifacts) (user_inputs : dict cell) (thr : float)
  (show_shap : bool) (out : list event) (e : exn)
  (Hfail : prediction np_exp float_of_array a user_inputs = Raise e) :
on_submit np_exp str_float float_of_array a user_inputs thr show_shap out
= (Ok tt, (out ++ [Error ("Prediction failed: " ++ exn_str e)])%list).
Proof.
unfold prediction in Hfail.
unfold on_submit, try_script, try_when, sbind, lift.
destruct (ensure_feature_dataframe user_inputs FINAL_FEATURES) as [df | e1];
  cbn [bind] in Hfail; [ | injection Hfail as ->; reflexivity].
destruct (preprocessor_transform a df) as [X | e2];
  cbn [bind] in Hfail; [ | injection Hfail as ->; reflexivity].
destruct (predict_proba np_exp (model a) X) as [p | e3];
  cbn [bind] in Hfail; [ | injection Hfail as ->; reflexivity].
destruct (float_of_array p) as [prob | e4];
  cbn [bind] in Hfail; [discriminate | injection Hfail as ->; reflexivity].
Qed.

Lemma failed_prediction_renders_only_the_error_witness :
on_submit ExpModel.exp sample_str_float legacy_float sample_artifacts
  [("daydurG", CFloat (of_Z 12))] (decimal 50 2) true []
= (Ok tt,
   [Error ("Prediction failed: "
             ++ missing_message
                  ["healthR"; "age_G"; "adlR"; "caredurG"; "healthG"; "ageR";
                   "adlG"; "hukou_cityR"; "is_citycentre"])]).
Proof.
apply (failed_prediction_renders_only_the_error ExpModel.exp sample_str_float legacy_float
         sample_artifacts [("daydurG", CFloat (of_Z 12))] (decimal 50 2) true []
         (mk_exn ValueError
            (missing_message
               ["healthR"; "age_G"; "adlR"; "caredurG"; "healthG"; "ageR";
                "adlG"; "hukou_cityR"; "is_citycentre"]))).
vm_compute. reflexivity.
Defined.

(** X5: For a classifier with [predict_proba] that answers a matrix of [n]
    rows and [k >= 2] columns, the page hands [float] the array of one
    dimension that holds the [n] cells of column 1.  With the conversion
    of NumPy before 2.4 and one row the probability is the cell of
    row 0 and column 1; with the conversion of NumPy 2.4 and later the
    prediction fails for every number of rows. *)
Theorem page_probability_is_second_cell
  (np_exp : float -> float) (float_of_array : ndarray -> result float)
  (a : artifacts) (user_inputs : dict cell)
  (df : Pandas.DataFrame cell) (X : ndarray)
  (proba : ndarray -> result ndarray) (n k : nat) (cells : list float)
  (Hdf : ensure_feature_dataframe user_inputs FINAL_FEATURES = Ok df)
  (HX : preprocessor_transform a df = Ok X)
  (Hmodel : cl_predict_proba (model a) = Some proba)
  (Hproba : proba X = Ok (mk_array [n; k] cells))
  (Hk : (2 <= k)%nat) (Hlen : List.length cells = (n * k)%nat) :
exists column,
  List.length column = n
  /\ (forall i, (i < n)%nat -> nth i column nan = nth (i * k + 1) cells nan)
  /\ prediction np_exp float_of_array a user_inputs
     = bind (float_of_array (mk_array [n] column))
         (fun prob => Ok (df, X, prob))
  /\ (n = 1%nat ->
      prediction np_exp legacy_float a user_inputs
      = Ok (df, X, nth 1 cells nan))
  /\ prediction np_exp strict_float a user_inputs
     = Raise (mk_exn TypeError
                "only 0-dimensional arrays can be converted to Python scalars").
Proof.
pose proof (take_col1_length n k cells Hk Hlen) as Hl.
pose proof (fun i => take_col1_nth n k cells i nan Hk Hlen) as Hn.
assert (Hpred : forall f,
          prediction np_exp f a user_inputs
          = bind (f (mk_array [n] (take_col1 n k 1 cells)))
              (fun prob => Ok (df, X, prob))).
{ intros f. unfold prediction, predict_proba.
  rewrite Hdf. cbn [bind]. rewrite HX. cbn [bind]. rewrite Hmodel, Hproba.
  cbn [bind column1 shape data numel fold_right].
  replace (Nat.ltb 1 k) with true by (symmetry; apply Nat.ltb_lt; lia).
  reflexivity. }
exists (take_col1 n k 1 cells).
split; [exact Hl | ]. split; [exact Hn | ]. split; [apply Hpred | ].
split.
- intros ->. rewrite Hpred. unfold legacy_float. cbn [data].
  specialize (Hn 0%nat ltac:(lia)). cbn [Nat.mul Nat.add] in Hn.
  destruct (take_col1 1 k 1 cells) as [ | x [ | y rest]]; cbn in Hl;
    try lia.
  cbn [nth] in Hn. cbn [bind]. now rewrite Hn.
- rewrite Hpred. unfold strict_float. cbn [shape]. reflexivity.
Qed.

Lemma page_probability_is_second_cell_witness :
exists df X,
  prediction ExpModel.exp legacy_float sample_artifacts scenario_A
  = Ok (df, X, nth 1 [decimal 70 2; decimal 30 2] nan)
  /\ prediction ExpModel.exp strict_float sample_artifacts scenario_A
     = Raise (mk_exn TypeError
                "only 0-dimensional arrays can be converted to Python scalars").
Proof.
destruct (ensure_feature_dataframe scenario_A FINAL_FEATURES)
  as [df | ] eqn:Hens; [ | discriminate].
exists df, (mk_array [1; 10]%nat (map as_float (Pandas.row0 df))).
destruct (page_probability_is_second_cell ExpModel.exp legacy_float
            sample_artifacts scenario_A
            df (mk_array [1; 10]%nat (map as_float (Pandas.row0 df)))
            (fun _ => Ok (mk_array [1; 2]%nat [decimal 70 2; decimal 30 2]))
            1 2 [decimal 70 2; decimal 30 2])
  as (column & _ & _ & _ & Hlegacy & Hstrict);
  try reflexivity; try exact Hens; try lia.
split; [now apply Hlegacy | exact Hstrict].
Defined.

(* ------------------------------------------------------------------ *)
(** ** Threshold file with a value that is not a number *)

(** X6: A key bound to [null], to a list or to an object gives the default
    ([float()] raises [TypeError], which the loader catches); a key bound
    to [true] or [false] gives 1.0 or 0.0; an integer too large for a
    double gives the default. *)
Theorem load_threshold_other_values
  (json_loads : string -> result value)
  (float_of_str : string -> result float)
  (fs : filesystem) (path key : string) (default : float)
  (s : string) (kv : list (string * value)) (v : value)
  (Hfile : fs path = Text s) (Hjson : json_loads s = Ok (JDict kv))
  (Hkey : get kv key = Some v) :
load_threshold json_loads float_of_str fs path key default
= Ok match v with
     | JNull | JList _ | JDict _ => default
     | JBool b => if b then one else zero
     | JInt z =>
         match of_Z z with S754_infinity _ => default | x => x end
     | JFloat x => x
     | JStr text =>
         match float_of_str text with Ok x => x | Raise _ => default end
     end.
Proof.
rewrite (load_text json_loads float_of_str fs path key default s Hfile).
rewrite Hjson. cbn [bind dict_get]. rewrite Hkey.
destruct v as [ | b | z | x | text | l | d]; cbn [bind py_float try_except];
  try reflexivity.
- destruct (of_Z z); reflexivity.
- destruct (float_of_str text); reflexivity.
Qed.

Lemma load_threshold_other_values_witness :
load_threshold (fun _ => Ok (JDict [("XGBoost", JNull)]))
  sample_float_of_str sample_fs "models/best_thresholds.json" "XGBoost"
  (decimal 5 1)
= Ok (decimal 5 1).
Proof.
apply (load_threshold_other_values (fun _ => Ok (JDict [("XGBoost", JNull)]))
         sample_float_of_str sample_fs "models/best_thresholds.json" "XGBoost"
         (decimal 5 1) sample_text [("XGBoost", JNull)] JNull);
  reflexivity.
Defined.

(* ------------------------------------------------------------------ *)
(** ** The input summary and the chart *)

Lemma for_each_fst {A B C} (f : A -> result B) (g : B -> C) (h : A -> C)
  (l : list A) (bs : list B) :
(forall a b, f a = Ok b -> g b = h a) ->
for_each f l = Ok bs -> map g bs = map h l.
Proof.
intros Hf. revert bs. induction l as [ | a l IH]; cbn [for_each map];
  intros bs H.
- injection H as <-. reflexivity.
- destruct (f a) as [b | ] eqn:Hb; [ | discriminate]. cbn [bind] in H.
  destruct (for_each f l) as [bs' | ]; [ | discriminate]. cbn [bind] in H.
  injection H as <-. cbn [map]. f_equal; [now apply Hf | now apply IH].
Qed.

Lemma disp_row_label (str_float : float -> string)
  (row : list (string * cell)) (k : string) (r : string * display) :
disp_row str_float row k = Ok r ->
fst r = get_default VARIABLE_LABELS_DICT k k.
Proof.
unfold disp_row. destruct (get row k); [ | discriminate].
intros H. injection H as <-. reflexivity.
Qed.

Lemma prediction_columns (np_exp : float -> float)
  (float_of_array : ndarray -> result float) (a : artifacts)
  (user_inputs : dict cell) (df : Pandas.DataFrame cell) (X : ndarray)
  (prob : float) :
prediction np_exp float_of_array a user_inputs = Ok (df, X, prob) ->
Pandas.columns df = FINAL_FEATURES.
Proof.
unfold prediction. intros H.
destruct (ensure_feature_dataframe user_inputs FINAL_FEATURES)
  as [df' | ] eqn:Hens; [ | discriminate].
cbn [bind] in H.
destruct (preprocessor_transform a df'); [ | discriminate]. cbn [bind] in H.
destruct (predict_proba np_exp (model a) _); [ | discriminate].
cbn [bind] in H.
destruct (float_of_array _); [ | discriminate]. cbn [bind] in H.
injection H as <- _ _. now apply ensure_ok_columns in Hens.
Qed.

(** X7: After a prediction that succeeded the page shows one input summary:
    a table of ten rows whose [Feature] cells are the ten labels in
    schema order, whatever order the record was entered in. *)
Theorem input_summary_follows_schema
  (np_exp : float -> float) (str_float : float -> string)
  (float_of_array : ndarray -> result float)
  (a : artifacts) (user_inputs : dict cell) (thr : float)
  (show_shap : bool) (out : list event)
  (df : Pandas.DataFrame cell) (X : ndarray) (prob : float)
  (Hpred : prediction np_exp float_of_array a user_inputs = Ok (df, X, prob)) :
exists rows rest,
  snd (on_submit np_exp str_float float_of_array a user_inputs thr show_shap out)
  = (out ++ result_events prob thr
       ++ Markdown "**Input summary**" :: Dataframe rows :: rest)%list
  /\ map fst rows = schema_labels
  /\ List.length rows = 10%nat.
Proof.
destruct (on_submit_after_prediction np_exp str_float float_of_array a user_inputs thr
            show_shap out df X prob Hpred) as (rows & Hrows & Heq).
cbv zeta in Heq.
assert (Hl : map fst rows = schema_labels).
{ apply (for_each_fst _ fst (fun k => get_default VARIABLE_LABELS_DICT k k))
    in Hrows; [exact Hrows | ].
  intros k r. apply disp_row_label. }
exists rows.
assert (Hn : List.length rows = 10%nat).
{ rewrite <- (length_map fst), Hl. reflexivity. }
rewrite Heq.
destruct show_shap;
  [destruct (attribution str_float a df X) as [ex | e] | ]; cbn [snd].
- rewrite <- app_assoc. exists [shap_title; Pyplot ex]. now split.
- rewrite <- app_assoc.
  exists [shap_title; Error ("Prediction failed: " ++ exn_str e)]. now split.
- exists []. now split.
Qed.

Lemma input_summary_follows_schema_witness :
exists rows rest,
  snd (on_submit ExpModel.exp sample_str_float legacy_float sample_artifacts scenario_A
         (decimal 50 2) false [])
  = (result_events (decimal 30 2) (decimal 50 2)
       ++ Markdown "**Input summary**" :: Dataframe rows :: rest)%list
  /\ map fst rows = schema_labels
  /\ List.length rows = 10%nat.
Proof.
destruct (ensure_feature_dataframe scenario_A FINAL_FEATURES)
  as [df | ] eqn:Hens; [ | discriminate].
apply (input_summary_follows_schema ExpModel.exp sample_str_float legacy_float
         sample_artifacts scenario_A (decimal 50 2) false []
         df (mk_array [1; 10]%nat (map as_float (Pandas.row0 df)))
         (decimal 30 2)).
unfold prediction. rewrite Hens. reflexivity.
Defined.

Lemma iloc0_length (df : Pandas.DataFrame cell) :
List.length (iloc0 df) = List.length (Pandas.columns df).
Proof.
unfold iloc0, Pandas.columns.
destruct (common_dtype _); now rewrite !length_map.
Qed.

(** X8: When the SHAP block succeeds, the chart is the last thing on the
    page; it is drawn with the ten labels in schema order as feature
    names, ten display values, and [max_display] ten, and the
    contributions are the one row of the normalised vector. *)
Theorem chart_follows_schema
  (np_exp : float -> float) (str_float : float -> string)
  (float_of_array : ndarray -> result float)
  (a : artifacts) (user_inputs : dict cell) (thr : float)
  (out : list event)
  (df : Pandas.DataFrame cell) (X : ndarray) (prob : float)
  (shap_ex : explanation)
  (Hpred : prediction np_exp float_of_array a user_inputs = Ok (df, X, prob))
  (Hattr : attribution str_float a df X = Ok shap_ex) :
ex_feature_names shap_ex = schema_labels
/\ List.length (ex_data shap_ex) = 10%nat
/\ waterfall a shap_ex 10 = Ok tt
/\ (exists ex sv vb,
      tree_explainer a = Ok ex /\ shap_values ex X = Ok sv
      /\ shap_vec_base (expected_value ex) sv = Ok vb
      /\ ex_values shap_ex = row (fst vb)
      /\ ex_base_values shap_ex = snd vb)
/\ (exists before,
      on_submit np_exp str_float float_of_array a user_inputs thr true out
      = (Ok tt, (out ++ before ++ [shap_title; Pyplot shap_ex])%list)).
Proof.
pose proof (prediction_columns np_exp float_of_array a user_inputs df X prob Hpred) as Hcols.
destruct (on_submit_after_prediction np_exp str_float float_of_array a user_inputs thr
            true out df X prob Hpred) as (rows & _ & Heq).
cbv zeta in Heq. rewrite Hattr in Heq.
unfold attribution in Hattr.
destruct (tree_explainer a) as [ex | ] eqn:Hex; [ | discriminate].
cbn [bind] in Hattr.
destruct (shap_values ex X) as [sv | ] eqn:Hsv; [ | discriminate].
cbn [bind] in Hattr.
destruct (shap_vec_base (expected_value ex) sv) as [vb | ] eqn:Hvb;
  [ | discriminate].
cbn [bind] in Hattr. rewrite Hcols in Hattr.
destruct (for_each (display_val str_float) (iloc0 df)) as [vals | ] eqn:Hvals;
  [ | discriminate].
cbn [bind] in Hattr.
destruct (waterfall a _ _) as [[] | ] eqn:Hw; [ | discriminate].
cbn [bind] in Hattr. injection Hattr as <-.
cbn [ex_feature_names ex_data ex_values ex_base_values].
split; [reflexivity | ].
split.
{ pose proof (for_each_fst _ (fun _ => tt) (fun _ => tt) _ _
                (fun _ _ _ => eq_refl) Hvals) as Hl.
  apply (f_equal (@List.length unit)) in Hl. rewrite !length_map in Hl.
  rewrite Hl, iloc0_length, Hcols. reflexivity. }
split; [exact Hw | ].
split; [exists ex, sv, vb; repeat split; assumption | ].
exists (result_events prob thr
          ++ [Markdown "**Input summary**"; Dataframe rows])%list.
rewrite Heq. now rewrite <- app_assoc.
Qed.

Lemma chart_follows_schema_witness :
exists shap_ex before,
  ex_feature_names shap_ex = schema_labels
  /\ on_submit ExpModel.exp sample_str_float legacy_float calibrated_artifacts scenario_A
       (decimal 50 2) true []
     = (Ok tt, (before ++ [shap_title; Pyplot shap_ex])%list).
Proof.
pose (df := select scenario_A FINAL_FEATURES).
pose (X := mk_array [1; 10]%nat (map as_float (Pandas.row0 df))).
assert (Hattr : exists shap_ex,
          attribution sample_str_float calibrated_artifacts df X
          = Ok shap_ex).
{ eexists. vm_compute. reflexivity. }
destruct Hattr as [shap_ex Hattr].
destruct (chart_follows_schema ExpModel.exp sample_str_float legacy_float
            calibrated_artifacts scenario_A (decimal 50 2) [] df X
            (decimal 30 2) shap_ex)
  as (Hnames & _ & _ & _ & before & Hpage).
- vm_compute. reflexivity.
- exact Hattr.
- exists shap_ex, before. split; [exact Hnames | exact Hpage].
Defined.

Lemma get_map_values {V W} (f : V -> W) (d : dict V) (k : string) :
get (map (fun kc => (fst kc, f (snd kc))) d) k = option_map f (get d k).
Proof.
induction d as [ | [k' v] d IH]; cbn [map get fst snd]; [reflexivity | ].
destruct (String.eqb k k'); [reflexivity | exact IH].
Qed.

Lemma get_In {V} (d : dict V) (k : string) (v : V) :
get d k = Some v -> In (k, v) d.
Proof.
induction d as [ | [k' w] d IH]; cbn [get]; [discriminate | ].
destruct (String.eqb_spec k k') as [-> | _].
- intros H. injection H as ->. now left.
- intros H. right. now apply IH.
Qed.

Lemma numeric_row_is_upcast (df : Pandas.DataFrame cell) :
forallb int64_or_float (Pandas.row0 df) = true ->
existsb is_float_cell (Pandas.row0 df) = true ->
iloc0 df = map (fun kc => (fst kc, CFloat (as_float (snd kc)))) df.
Proof.
intros Hnum Hfl. unfold iloc0, common_dtype.
replace (existsb is_object (map cell_dtype (Pandas.row0 df))) with false.
- replace (existsb is_float64 (map cell_dtype (Pandas.row0 df))) with true;
    [reflexivity | ].
  symmetry. rewrite existsb_exists in *. destruct Hfl as (c & Hin & Hc).
  exists (cell_dtype c). split; [now apply in_map | ].
  destruct c; [discriminate Hc | reflexivity].
- symmetry. apply not_true_is_false. intros H.
  apply existsb_exists in H. destruct H as (t & Hin & Ht).
  apply in_map_iff in Hin. destruct Hin as (c & <- & Hin).
  rewrite forallb_forall in Hnum. specialize (Hnum c Hin).
  unfold int64_or_float in Hnum. destruct (cell_dtype c); discriminate.
Qed.

Lemma object_row_is_kept (df : Pandas.DataFrame cell) :
existsb is_object (map cell_dtype (Pandas.row0 df)) = true ->
iloc0 df = df.
Proof. intros H. unfold iloc0, common_dtype. now rewrite H. Qed.

(** X9: A category code of a form record, where the numbers are floats and
    every integer fits an [int64]: the row the page reads back has the
    code as a double, so the input summary writes it with [str] of a
    double before its text, while the chart, which turns whole doubles
    back into integers, writes it as an integer.  When the record holds
    an integer beyond 64 bits the row is a row of objects, the code
    stays an integer, and the summary writes it as the chart does. *)
Theorem category_code_is_a_double_in_the_summary
  (str_float : float -> string) (df : Pandas.DataFrame cell)
  (k : string) (v : Z) (text : string)
  (Hcell : get df k = Some (CInt v))
  (Htext : mapping_get (get_default VALUE_MAPPINGS k []) (CInt v) = Some text) :
(forallb int64_or_float (Pandas.row0 df) = true ->
 existsb is_float_cell (Pandas.row0 df) = true ->
 disp_row str_float (iloc0 df) k
 = Ok (get_default VARIABLE_LABELS_DICT k k,
       DText (str_float (of_Z v) ++ " - " ++ text))
 /\ In (k, CFloat (of_Z v)) (iloc0 df)
 /\ display_val str_float (k, CFloat (of_Z v))
    = Ok (DText (str_int v ++ " - " ++ text)))
/\ (existsb is_object (map cell_dtype (Pandas.row0 df)) = true ->
    disp_row str_float (iloc0 df) k
    = Ok (get_default VARIABLE_LABELS_DICT k k,
          DText (str_int v ++ " - " ++ text))
    /\ In (k, CInt v) (iloc0 df)
    /\ display_val str_float (k, CInt v)
       = Ok (DText (str_int v ++ " - " ++ text))).
Proof.
assert (Hcases :
  disp_row str_float
    (map (fun kc => (fst kc, CFloat (as_float (snd kc)))) df) k
  = Ok (get_default VARIABLE_LABELS_DICT k k,
        DText (str_float (of_Z v) ++ " - " ++ text))
  /\ display_val str_float (k, CFloat (of_Z v))
     = Ok (DText (str_int v ++ " - " ++ text))
  /\ disp_row str_float df k
     = Ok (get_default VARIABLE_LABELS_DICT k k,
           DText (str_int v ++ " - " ++ text))
  /\ display_val str_float (k, CInt v)
     = Ok (DText (str_int v ++ " - " ++ text))).
{ unfold disp_row, display_val.
  rewrite (get_map_values (fun c => CFloat (as_float c))), Hcell.
  cbn [option_map as_float].
  unfold get_default in Htext at 1.
  unfold VALUE_MAPPINGS in *. cbn [get] in *.
  repeat match goal with
         | |- context [String.eqb k ?s] => destruct (String.eqb k s)
         end;
    try discriminate Htext;
    cbn [mapping_get cell_eq_int] in Htext;
    repeat match type of Htext with
           | context [Z.eqb v ?i] =>
               destruct (Z.eqb_spec v i) as [-> | _];
               [ injection Htext as <-;
                 split; [reflexivity | ];
                 split; [reflexivity | ];
                 split; reflexivity
               | ]
           end;
    discriminate Htext. }
destruct Hcases as (H1 & H2 & H3 & H4).
split.
- intros Hnum Hfl. rewrite (numeric_row_is_upcast df Hnum Hfl).
  split; [exact H1 | ]. split; [ | exact H2].
  apply get_In.
  rewrite (get_map_values (fun c => CFloat (as_float c))), Hcell.
  reflexivity.
- intros Hobj. rewrite (object_row_is_kept df Hobj).
  split; [exact H3 | ]. split; [now apply get_In | exact H4].
Qed.

Lemma category_code_is_a_double_in_the_summary_witness :
(disp_row sample_str_float (iloc0 scenario_A) "healthR"
 = Ok ("Self-rated health (Recipient)", DText "5.0 - Excellent")
 /\ In ("healthR", CFloat (of_Z 5)) (iloc0 scenario_A)
 /\ display_val sample_str_float ("healthR", CFloat (of_Z 5))
    = Ok (DText "5 - Excellent"))
/\ (disp_row sample_str_float (iloc0 wide_record) "healthR"
    = Ok ("Self-rated health (Recipient)", DText "5 - Excellent")).
Proof.
split.
- apply (category_code_is_a_double_in_the_summary sample_str_float scenario_A
           "healthR" 5 "Excellent"); reflexivity.
- apply (category_code_is_a_double_in_the_summary sample_str_float
           wide_record "healthR" 5 "Excellent"); reflexivity.
Defined.

(* ------------------------------------------------------------------ *)
(** ** The record builder for any feature order *)

Lemma select_keeps {V} (d : dict V) (order : list string) (k : string) :
In k order -> get (select d order) k = get d k.
Proof.
intros Hin. destruct (get d k) as [v | ] eqn:Hk.
- now apply get_select.
- apply get_not_in_keys. intros Hkeys.
  unfold keys, select in Hkeys. apply in_map_iff in Hkeys.
  destruct Hkeys as ([k' v] & Hfst & Hin'). cbn in Hfst. subst k'.
  apply in_flat_map in Hin'. destruct Hin' as (c & _ & Hc).
  destruct (get d c) as [w | ] eqn:Hdc; [ | destruct Hc].
  destruct Hc as [Hc | []]. injection Hc as -> ->. congruence.
Qed.

(** X10: For any feature order: the builder returns exactly when every listed
    feature is a key of the record; the table it returns then has the
    listed columns, each with the value of the record, and has no other
    column (keys outside the order are dropped). *)
Theorem builder_keeps_listed_columns_only {V : Type} (d : dict V)
  (order : list string) :
(returns (ensure_feature_dataframe d order) = true
 <-> forall k, In k order -> get d k <> None)
/\ (forall df, ensure_feature_dataframe d order = Ok df ->
      Pandas.columns df = order
      /\ (forall k, In k order -> get df k = get d k)
      /\ (forall k, ~ In k order -> get df k = None)).
Proof.
unfold ensure_feature_dataframe at 1 2. rewrite missing_is_absent.
destruct (filter (absent d) order) as [ | c rest] eqn:Hf.
- unfold Pandas.of_record.
  destruct (getitem_present d order Hf) as [Hget Hcols]. rewrite Hget.
  assert (Hall : forall k, In k order -> get d k <> None).
  { intros k Hin Hk.
    assert (Hc : In k (filter (absent d) order)).
    { apply filter_In. split; [exact Hin | ]. unfold absent. now rewrite Hk. }
    rewrite Hf in Hc. destruct Hc. }
  split; [split; [intros _; exact Hall | reflexivity] | ].
  intros df H. injection H as <-.
  split; [exact Hcols | ].
  split; [intros k Hin; now apply select_keeps | ].
  intros k Hn. apply get_not_in_keys. unfold keys.
  fold (Pandas.columns (select d order)). now rewrite Hcols.
- split; [ | discriminate].
  split; [discriminate | ].
  intros Hall. exfalso.
  assert (Hc : In c (filter (absent d) order)) by (rewrite Hf; now left).
  apply filter_In in Hc. destruct Hc as [Hin Hc]. unfold absent in Hc.
  specialize (Hall c Hin). destruct (get d c); [discriminate | congruence].
Qed.

(* ------------------------------------------------------------------ *)
(** ** The SHAP dispatch at its edges *)

(** X11: The dispatch on the explainer's output raises in one case only: an
    empty list, where [_sv[0]] is an [IndexError]; a list of one array
    contributes that array, and its baseline is entry 1 of the expected
    values when they have more than one entry. *)
Theorem shap_dispatch_fails_only_on_empty_list
  (expected : baseline) (_sv : shap_output) :
(returns (shap_vec_base expected _sv) = false <-> _sv = SvList [])
/\ shap_vec_base expected (SvList [])
   = Raise (mk_exn IndexError "list index out of range")
/\ (forall a,
      shap_vec_base expected (SvList [a])
      = Ok (reshape_row a,
            match expected with
            | Seq (_ :: b1 :: _) => Scalar b1
            | _ => expected
            end)).
Proof.
split; [ | split].
- destruct _sv as [[ | a0 [ | a1 l]] | values base_values | arr];
    cbn; split; intros H; try reflexivity; discriminate H.
- reflexivity.
- intros a. destruct expected as [x | [ | b0 [ | b1 ev]]]; reflexivity.
Qed.

(* ------------------------------------------------------------------ *)
(** ** A probability that is not a number *)

(** X12: When the probability or the threshold is a NaN the comparison
    [prob >= thr] is false, so the label is "Low stress risk" and the
    numeric label 0, and the page shows the green box; the narrative
    then reads "(< threshold ...)" although [prob < thr] is false as
    well, and a NaN probability is printed as "nan%". *)
Theorem nan_probability_is_labelled_low (p t : float)
  (Hnan : is_nan p = true \/ is_nan t = true) :
fst (risk_narrative p t) = LOW
/\ predicted_label p t = 0
/\ lt p t = false
/\ In (Success LOW) (result_events p t)
/\ In (Metric "Predicted label" "0") (result_events p t)
/\ (is_nan p = true ->
    snd (risk_narrative p t)
    = "Predicted probability of caregiver stress is nan% (< threshold "
        ++ format_fixed 2 t ++ "). "
        ++ "No immediate concern indicated by this model.").
Proof.
assert (Hge : ge p t = false /\ lt p t = false).
{ destruct Hnan as [H | H].
  - destruct p; try discriminate H. split; apply (nan_compares_false t).
  - destruct t; try discriminate H. split; apply (nan_compares_false p). }
destruct Hge as [Hge Hlt].
unfold result_events, predicted_label. rewrite label_of_narrative, Hge.
split; [reflexivity | ]. split; [reflexivity | ]. split; [exact Hlt | ].
split; [cbn; tauto | ]. split; [cbn; tauto | ].
intros Hp. destruct p; try discriminate Hp.
unfold risk_narrative. rewrite Hge. reflexivity.
Qed.

Lemma nan_probability_is_labelled_low_witness :
fst (risk_narrative nan (decimal 50 2)) = LOW
/\ predicted_label nan (decimal 50 2) = 0.
Proof.
destruct (nan_probability_is_labelled_low nan (decimal 50 2))
  as (H1 & H2 & _); [left; reflexivity | ].
split; [exact H1 | exact H2].
Defined.

(* ------------------------------------------------------------------ *)
(** ** Keep-alive: the loop as a whole *)

Section KeepAliveLoop.

Import KeepAlive.

Variable url : string.
Variable max_retries : nat.

Lemma count_app {A} (p : A -> bool) (l l' : list A) :
count p (l ++ l') = (count p l + count p l')%nat.
Proof. unfold count. now rewrite filter_app, length_app. Qed.

Lemma last_app_nonempty {A} (l l' : list A) (d : A) :
l' <> [] -> last (l ++ l') d = last l' d.
Proof.
intros Hne. induction l as [ | a l IH]; [reflexivity | ].
cbn [app last]. destruct (l ++ l')%list eqn:E; [ | exact IH].
apply app_eq_nil in E. now elim Hne.
Qed.

Lemma existsb_seq (p : nat -> bool) (i n : nat) :
existsb p (seq i n) = true <-> exists j, (i <= j < i + n)%nat /\ p j = true.
Proof.
rewrite existsb_exists. split; intros (j & Hj & Hp); exists j;
  (split; [ | exact Hp]); [now apply in_seq in Hj | now apply in_seq].
Qed.

(** One attempt, whatever the browser answers: it never raises, it
    returns [True] exactly under [wakes], it starts one driver, and it
    quits the driver exactly when the driver came up. *)
Lemma attempt_body_shape (attempt : nat) (b : session) (out : list event) :
exists new,
  attempt_body url attempt max_retries b out
  = (Ok (if wakes b then Some true else None), (out ++ new)%list)
  /\ count is_create new = 1%nat
  /\ count is_ready new = (if returns (create_driver_outcome b) then 1 else 0)%nat
  /\ count is_quit new = count is_ready new
  /\ count is_retry_wait new = 0%nat
  /\ (wait_present_outcome b <> Ok tt -> count is_click new = 0%nat)
  /\ last new Quit
     = (if returns (create_driver_outcome b) then Quit
        else Log LogError
               match create_driver_outcome b with
               | Raise e => if is_webdriver e then MsgWebDriverError e
                            else MsgUnknownError e
               | Ok _ => MsgDriverReady
               end).
Proof.
unfold attempt_body, create_driver, finally, try_script, try_when, sbind,
  emit, call, ret, wakes.
destruct (create_driver_outcome b) as [[] | e0]; cbn [returns andb];
  [ destruct (get_outcome b) as [[] | e1]; cbn [returns andb];
    [ destruct (wait_present_outcome b) as [[] | e2];
      [ destruct (click_outcome b) as [[] | e3];
        [ destruct (wait_invisible_outcome b) as [[] | e4];
          [ | destruct (is_timeout e4) eqn:T4 ]
        | destruct (is_timeout e3) eqn:T3 ]
      | destruct (is_timeout e2) eqn:T2 ]
    | ]
  | ];
  try (destruct (quit_outcome b) as [[] | eq]);
  cbn [fst snd returns]; rewrite ?T2, ?T3, ?T4; cbn [fst snd];
  rewrite <- ?app_assoc; cbn [app];
  (eexists; split; [reflexivity | ]);
  (split; [reflexivity | ]); (split; [reflexivity | ]);
  (split; [reflexivity | ]); (split; [reflexivity | ]);
  (split; [ | reflexivity]);
  intros Hw; try reflexivity; now elim Hw.
Qed.

(** The loop from attempt [i] on, with [r] attempts left. *)
Lemma attempts_shape (browser : nat -> session) (r i : nat)
  (out : list event) :
(i + r = max_retries + 1)%nat ->
exists new,
  attempts url max_retries browser i r out
  = (Ok (existsb (fun j => wakes (browser j)) (seq i r)), (out ++ new)%list)
  /\ (count is_create new <= r)%nat
  /\ count is_quit new = count is_ready new
  /\ (count is_ready new <= count is_create new)%nat
  /\ (existsb (fun j => wakes (browser j)) (seq i r) = false ->
      count is_create new = r
      /\ count is_retry_wait new = (r - 1)%nat
      /\ last new Quit = Log LogError (MsgGaveUp max_retries)).
Proof.
revert i out. induction r as [ | r IH]; intros i out Hir.
- exists [Log LogError (MsgGaveUp max_retries)]. cbn.
  repeat split; auto.
- rewrite attempts_step.
  destruct (attempt_body_shape i (browser i) out)
    as (new & -> & Hc & Hr & Hq & Hw & _ & _).
  cbn [seq existsb].
  destruct (wakes (browser i)) eqn:Hwk; cbn [orb].
  + exists new. split; [reflexivity | ].
    split; [lia | ]. split; [exact Hq | ].
    split; [ | discriminate].
    rewrite Hr. destruct (returns _); lia.
  + destruct (IH (S i)
                ((out ++ new)
                   ++ (if Nat.ltb i max_retries
                       then [Log Info MsgRetryWait; Sleep 10] else []))%list
                ltac:(lia))
      as (more & -> & Hc' & Hq' & Hr' & Hall).
    exists (new ++ (if Nat.ltb i max_retries
                    then [Log Info MsgRetryWait; Sleep 10] else [])
              ++ more)%list.
    split; [now rewrite <- !app_assoc | ].
    rewrite !count_app.
    assert (Hp : forall p, (p = is_create \/ p = is_quit \/ p = is_ready) ->
                 count p (if Nat.ltb i max_retries
                          then [Log Info MsgRetryWait; Sleep 10] else [])
                 = 0%nat).
    { intros p [-> | [-> | ->]]; destruct (Nat.ltb i max_retries);
        reflexivity. }
    rewrite !Hp by tauto.
    split; [lia | ]. split; [lia | ].
    split; [rewrite Hr; destruct (returns _); lia | ].
    intros Hno. destruct (Hall Hno) as (Hn & Hwait & Hlast).
    split; [lia | ]. split.
    * rewrite Hw, Hwait.
      destruct (Nat.ltb_spec i max_retries); cbn; lia.
    * assert (Hmore : more <> []).
      { intros ->. cbn in Hlast. discriminate. }
      rewrite app_assoc. rewrite last_app_nonempty by exact Hmore. exact Hlast.
Qed.

End KeepAliveLoop.

Section KeepAliveRuns.

Import KeepAlive.

Variable url : string.
Variable max_retries : nat.
Variable browser : nat -> session.

(** The loop up to its first waking attempt [k]. *)
Lemma attempts_first_success (r i k : nat) (out : list event) :
(i + r = max_retries + 1)%nat -> (i <= k < i + r)%nat ->
(forall j, (i <= j < k)%nat -> wakes (browser j) = false) ->
wakes (browser k) = true ->
exists new,
  attempts url max_retries browser i r out = (Ok true, (out ++ new)%list)
  /\ count is_create new = (k - i + 1)%nat
  /\ count is_retry_wait new = (k - i)%nat
  /\ last new Quit = Quit.
Proof.
revert i out. induction r as [ | r IH]; intros i out Hir Hk Hfail Hwk;
  [lia | ].
rewrite attempts_step.
destruct (attempt_body_shape url max_retries i (browser i) out)
  as (new & -> & Hc & Hr & Hq & Hw & _ & Hlast).
destruct (Nat.eq_dec i k) as [-> | Hne].
- rewrite Hwk in *. exists new. split; [reflexivity | ].
  split; [lia | ]. split; [lia | ].
  unfold wakes in Hwk.
  destruct (returns (create_driver_outcome (browser k)));
    [exact Hlast | discriminate].
- rewrite (Hfail i) by lia.
  replace (Nat.ltb i max_retries) with true
    by (symmetry; apply Nat.ltb_lt; lia).
  destruct (IH (S i)
              ((out ++ new) ++ [Log Info MsgRetryWait; Sleep 10])%list
              ltac:(lia) ltac:(lia)
              ltac:(intros j Hj; apply Hfail; lia) Hwk)
    as (more & -> & Hc' & Hw' & Hlast').
  exists (new ++ [Log Info MsgRetryWait; Sleep 10] ++ more)%list.
  split; [now rewrite <- !app_assoc | ].
  rewrite !count_app, Hc, Hw, Hc', Hw'. cbn [count filter is_create
    is_retry_wait List.length].
  split; [lia | ]. split; [lia | ].
  assert (Hmore : more <> []).
  { intros ->. cbn in Hc'. lia. }
  rewrite app_assoc. rewrite last_app_nonempty by exact Hmore. exact Hlast'.
Qed.

(** X13: [wake_up_streamlit_app] never raises, whatever the browser does
    (also when the driver cannot be created or cannot be quit), and it
    returns [True] exactly when one of the attempts [1..max_retries]
    reaches a [return True]. *)
Theorem wake_up_returns_whether_an_attempt_wakes (out : list event) :
fst (wake_up_streamlit_app url max_retries browser out)
= Ok (existsb (fun i => wakes (browser i)) (seq 1 max_retries))
/\ (fst (wake_up_streamlit_app url max_retries browser out) = Ok true
    <-> exists i, (1 <= i <= max_retries)%nat /\ wakes (browser i) = true).
Proof.
destruct (attempts_shape url max_retries browser max_retries 1 out
            ltac:(lia)) as (new & Heq & _).
unfold wake_up_streamlit_app. rewrite Heq. cbn [fst].
split; [reflexivity | ].
pose proof (existsb_seq (fun i => wakes (browser i)) 1 max_retries) as Hiff.
cbn beta in Hiff. split.
- intros H. injection H as H. destruct (proj1 Hiff H) as (i & Hi & Hw).
  exists i. split; [lia | exact Hw].
- intros (i & Hi & Hw). f_equal. apply Hiff.
  exists i. split; [lia | exact Hw].
Qed.

(** X14: The loop starts at most [max_retries] drivers, and it quits every
    driver that came up, once: as many [quit] calls as drivers that were
    initialised. *)
Theorem every_created_driver_is_quit (out : list event) :
exists new,
  snd (wake_up_streamlit_app url max_retries browser out) = (out ++ new)%list
  /\ (count is_create new <= max_retries)%nat
  /\ count is_quit new = count is_ready new
  /\ (count is_ready new <= count is_create new)%nat.
Proof.
destruct (attempts_shape url max_retries browser max_retries 1 out
            ltac:(lia)) as (new & Heq & Hc & Hq & Hr & _).
exists new. unfold wake_up_streamlit_app. rewrite Heq. cbn [snd].
repeat split; assumption.
Qed.

(** X15: When no attempt wakes the app the function returns [False] after
    exactly [max_retries] attempts, with a pause between two attempts
    and none after the last, and its last act is the final error
    line. *)
Theorem exhausted_retries_give_up (out : list event)
  (Hfail : forall i, (1 <= i <= max_retries)%nat -> wakes (browser i) = false) :
exists new,
  wake_up_streamlit_app url max_retries browser out
  = (Ok false, (out ++ new)%list)
  /\ count is_create new = max_retries
  /\ count is_retry_wait new = (max_retries - 1)%nat
  /\ last new Quit = Log LogError (MsgGaveUp max_retries).
Proof.
destruct (attempts_shape url max_retries browser max_retries 1 out
            ltac:(lia)) as (new & Heq & _ & _ & _ & Hall).
assert (Hno : existsb (fun j => wakes (browser j)) (seq 1 max_retries)
              = false).
{ destruct (existsb _ _) eqn:E; [ | reflexivity].
  apply existsb_exists in E. destruct E as (i & Hin & Hi).
  apply in_seq in Hin. rewrite Hfail in Hi by lia. discriminate. }
rewrite Hno in Heq. exists new. unfold wake_up_streamlit_app.
split; [exact Heq | ]. exact (Hall Hno).
Qed.

(** X16: When attempt [k] is the first that wakes the app, the function
    returns [True] having started exactly [k] drivers and paused [k - 1]
    times, and its last act is to quit the driver: no later attempt is
    made. *)
Theorem first_waking_attempt_ends_the_loop (k : nat) (out : list event)
  (Hk : (1 <= k <= max_retries)%nat)
  (Hfail : forall i, (1 <= i < k)%nat -> wakes (browser i) = false)
  (Hwake : wakes (browser k) = true) :
exists new,
  wake_up_streamlit_app url max_retries browser out
  = (Ok true, (out ++ new)%list)
  /\ count is_create new = k
  /\ count is_retry_wait new = (k - 1)%nat
  /\ last new Quit = Quit.
Proof.
destruct (attempts_first_success max_retries 1 k out ltac:(lia) ltac:(lia)
            Hfail Hwake) as (new & Heq & Hc & Hw & Hlast).
exists new. unfold wake_up_streamlit_app.
split; [exact Heq | ]. split; [lia | ]. split; [lia | exact Hlast].
Qed.

(** X17: An exception while the driver is created or while the page loads
    fails the attempt whatever its class, a [TimeoutException] included:
    nothing is clicked, the error is logged, and the driver is quit when
    it had come up. *)
Theorem failure_before_the_prompt_fails_the_attempt
  (attempt : nat) (b : session) (out : list event) (e : exn)
  (Hearly : create_driver_outcome b = Raise e
            \/ (create_driver_outcome b = Ok tt /\ get_outcome b = Raise e)) :
let error := Log LogError (if is_webdriver e then MsgWebDriverError e
                           else MsgUnknownError e) in
attempt_body url attempt max_retries b out
= (Ok None,
   (out ++ [Log Info (MsgAttempt attempt max_retries); Log Info MsgInitDriver;
            CreateDriver]
        ++ (if returns (create_driver_outcome b)
            then [Log Info MsgDriverReady; Log Info (MsgVisit url); Get url;
                  error; Quit]
            else [error]))%list).
Proof.
cbv zeta.
unfold attempt_body, create_driver, finally, try_script, try_when, sbind,
  emit, call, ret.
destruct Hearly as [-> | [-> ->]]; cbn [returns fst snd].
- now rewrite <- !app_assoc.
- destruct (quit_outcome b) as [[] | eq]; cbn [fst snd];
    now rewrite <- !app_assoc.
Qed.

End KeepAliveRuns.

Lemma exhausted_retries_give_up_witness :
exists new,
  KeepAlive.wake_up_streamlit_app "https://app" 3 no_browser []
  = (Ok false, new)
  /\ count is_create new = 3%nat
  /\ count is_retry_wait new = 2%nat
  /\ last new KeepAlive.Quit
     = KeepAlive.Log KeepAlive.LogError (KeepAlive.MsgGaveUp 3).
Proof.
apply (exhausted_retries_give_up "https://app" 3 no_browser []).
intros i Hi. reflexivity.
Defined.

Lemma first_waking_attempt_ends_the_loop_witness :
exists new,
  KeepAlive.wake_up_streamlit_app "https://app" 3 stubborn_once []
  = (Ok true, new)
  /\ count is_create new = 2%nat
  /\ count is_retry_wait new = 1%nat
  /\ last new KeepAlive.Quit = KeepAlive.Quit.
Proof.
apply (first_waking_attempt_ends_the_loop "https://app" 3 stubborn_once 2 []).
- lia.
- intros i Hi. assert (i = 1%nat) as -> by lia. reflexivity.
- reflexivity.
Defined.

Lemma failure_before_the_prompt_fails_the_attempt_witness :
KeepAlive.attempt_body "https://app" 1 3 (slow_page 1) []
= (Ok None,
   [KeepAlive.Log KeepAlive.Info (KeepAlive.MsgAttempt 1 3);
    KeepAlive.Log KeepAlive.Info KeepAlive.MsgInitDriver;
    KeepAlive.CreateDriver;
    KeepAlive.Log KeepAlive.Info KeepAlive.MsgDriverReady;
    KeepAlive.Log KeepAlive.Info (KeepAlive.MsgVisit "https://app");
    KeepAlive.Get "https://app";
    KeepAlive.Log KeepAlive.LogError
      (KeepAlive.MsgWebDriverError KeepAlive.timeout_exn);
    KeepAlive.Quit]).
Proof.
apply (failure_before_the_prompt_fails_the_attempt "https://app" 3 1
         (slow_page 1) [] KeepAlive.timeout_exn).
right. split; reflexivity.
Defined.

(* ------------------------------------------------------------------ *)
(** ** Keep-alive: the entry point *)

(** X18: [main] ends in [sys.exit] with status 0 or 1 and never with an
    exception of its own; the status is 0 exactly when [STREAMLIT_URL]
    is set to a non-empty text and one of the three attempts wakes the
    app; when the variable is unset or empty no browser is started. *)
Theorem main_exit_status (environ : dict string)
  (browser : nat -> KeepAlive.session)
  (out : list KeepAliveMain.main_event) :
exists status new,
  KeepAliveMain.main environ browser out = (Ok status, (out ++ new)%list)
  /\ (status = 0 \/ status = 1)
  /\ (status = 0 <->
      exists url i,
        get environ "STREAMLIT_URL" = Some url /\ url <> ""
        /\ (1 <= i <= 3)%nat /\ wakes (browser i) = true)
  /\ (get environ "STREAMLIT_URL" = None
      \/ get environ "STREAMLIT_URL" = Some "" ->
      status = 1 /\ count is_inner new = 0%nat).
Proof.
unfold KeepAliveMain.main, KeepAliveMain.inner, sbind, emit, ret, run.
destruct (get environ "STREAMLIT_URL") as [[ | c rest] | ] eqn:Henv.
- eexists 1, _. rewrite <- !app_assoc. cbn [app].
  split; [reflexivity | ]. split; [now right | ]. split.
  + split; [discriminate | ].
    intros (url & i & Hu & Hne & _). injection Hu as <-. now elim Hne.
  + intros _. split; reflexivity.
- destruct (attempts_shape (String c rest)
              KeepAliveMain.default_max_retries browser
              KeepAliveMain.default_max_retries 1 [] eq_refl)
    as (evs & Hrun & _).
  unfold KeepAlive.wake_up_streamlit_app. rewrite Hrun.
  pose proof (existsb_seq (fun i => wakes (browser i)) 1
                KeepAliveMain.default_max_retries) as Hiff.
  unfold KeepAliveMain.default_max_retries in *. cbn [app].
  destruct (existsb _ _) eqn:Hex.
  + eexists 0, _. rewrite <- !app_assoc. cbn [app].
    split; [reflexivity | ]. split; [now left | ]. split.
    * split; [ | reflexivity]. intros _.
      destruct (proj1 Hiff eq_refl) as (i & Hi & Hw).
      exists (String c rest), i.
      split; [reflexivity | ]. split; [discriminate | ].
      split; [lia | exact Hw].
    * intros [H | H]; discriminate H.
  + eexists 1, _. rewrite <- !app_assoc. cbn [app].
    split; [reflexivity | ]. split; [now right | ]. split.
    * split; [discriminate | ].
      intros (url & i & Hu & _ & Hi & Hw). exfalso.
      assert (Ht : false = true); [ | discriminate Ht].
      apply Hiff. exists i. split; [lia | exact Hw].
    * intros [H | H]; discriminate H.
- eexists 1, _. rewrite <- !app_assoc. cbn [app].
  split; [reflexivity | ]. split; [now right | ]. split.
  + split; [discriminate | ].
    intros (url & i & Hu & _). discriminate Hu.
  + intros _. split; reflexivity.
Qed.

(* ------------------------------------------------------------------ *)
(** ** Keep-alive probe *)

Section ProbeFacts.

Import StreamlitWakeUp.

Variable lower : string -> string.

Lemma marks_app (l l' : list event) :
marks (l ++ l') = (marks l ++ marks l')%list.
Proof. apply flat_map_app. Qed.

Ltac close_shape :=
  cbn [fst snd]; rewrite <- ?app_assoc; cbn [app];
  eexists; split; [reflexivity | reflexivity].

Lemma check_app_health_shape (s : self) (b : session) (out : list event) :
exists r new,
  check_app_health s b out = (Ok r, (out ++ new)%list) /\ marks new = [].
Proof.
unfold check_app_health, try_script, try_when, sbind, emit, ask, ret.
destruct (health_outcome b) as [status | e]; [ | eexists; close_shape].
destruct (Z.eqb status 200); eexists; close_shape.
Qed.

Lemma create_driver_shape (b : session) (out : list event) :
exists new,
  create_driver b out
  = (match create_driver_outcome b with
     | Ok _ => Ok tt
     | Raise e => Raise e
     end, (out ++ CreateDriver :: new)%list)
  /\ marks new = [].
Proof.
unfold create_driver, try_script, try_when, sbind, emit, call, lift.
destruct (create_driver_outcome b) as [[] | e]; close_shape.
Qed.

Lemma try_selectors_shape (b : session) (selectors : list selector)
  (out : list event) :
exists r new,
  try_selectors b selectors out = (r, (out ++ new)%list)
  /\ returns r = elements_settle b selectors
  /\ marks new = [].
Proof.
revert out. induction selectors as [ | sel rest IH]; intros out.
- exists (Ok tt), [Log Warning MsgNoExpectedElement]. now split.
- cbn [try_selectors elements_settle].
  unfold try_when, sbind, emit, call, ret.
  destruct (element_outcome b sel) as [[] | e].
  + exists (Ok tt). cbn [fst snd]. rewrite <- ?app_assoc. cbn [app].
    eexists. split; [reflexivity | now split].
  + destruct (KeepAlive.is_timeout e); cbn [andb].
    * destruct (IH (out ++ [WaitElement sel 10])%list)
        as (r & new & -> & Hr & Hm).
      exists r, (WaitElement sel 10 :: new).
      rewrite <- app_assoc. split; [reflexivity | ].
      split; [exact Hr | exact Hm].
    * exists (Raise e), [WaitElement sel 10]. now split.
Qed.

Lemma wait_for_page_load_shape (s : self) (b : session) (out : list event) :
exists r new,
  wait_for_page_load s b out = (r, (out ++ new)%list)
  /\ returns r
     = returns (ready_outcome b) && elements_settle b selectors_to_try
  /\ marks new = [].
Proof.
unfold wait_for_page_load, try_when, sbind, call.
destruct (ready_outcome b) as [[] | e]; cbn [returns andb].
- destruct (try_selectors_shape b selectors_to_try
              (out ++ [WaitReady (timeout s)])%list)
    as (r & new & -> & Hr & Hm).
  destruct r as [[] | e].
  + exists (Ok tt), (WaitReady (timeout s) :: new).
    rewrite <- app_assoc. split; [reflexivity | now split].
  + unfold emit, lift.
    destruct (KeepAlive.is_timeout e).
    * exists (Raise e),
        (WaitReady (timeout s) :: new ++ [Log LogError MsgPageLoadTimeout])%list.
      rewrite <- !app_assoc. split; [reflexivity | ].
      split; [exact Hr | ].
      change (marks (WaitReady (timeout s)
                       :: new ++ [Log LogError MsgPageLoadTimeout]))
        with (marks (new ++ [Log LogError MsgPageLoadTimeout])).
      now rewrite marks_app, Hm.
    * exists (Raise e), (WaitReady (timeout s) :: new).
      rewrite <- app_assoc. split; [reflexivity | now split].
- unfold emit, lift. destruct (KeepAlive.is_timeout e).
  + exists (Raise e), [WaitReady (timeout s); Log LogError MsgPageLoadTimeout].
    rewrite <- app_assoc. now split.
  + exists (Raise e), [WaitReady (timeout s)]. now split.
Qed.

Lemma interact_with_app_shape (b : session) (out : list event) :
exists new,
  interact_with_app b out = (Ok tt, (out ++ new)%list) /\ marks new = [].
Proof.
unfold interact_with_app, try_script, try_when, sbind, emit, call, ask, ret.
destruct (scroll_outcome b 100%nat) as [[] | e1]; [ | close_shape].
destruct (scroll_outcome b 0%nat) as [[] | e2]; [ | close_shape].
destruct (find_elements_outcome b) as [[ | el els] | e3];
  [close_shape | | close_shape].
destruct (is_displayed el) as [[ | ] | e4]; [ | close_shape | close_shape].
destruct (is_enabled el) as [[ | ] | e5]; [ | close_shape | close_shape].
destruct (tag_name el) as [tag | e6]; [ | close_shape].
destruct (get_class el) as [[[ | c0 c] | ] | e7]; close_shape.
Qed.

Ltac use_shape :=
  match goal with
  | |- context [create_driver ?b ?o] =>
      let n := fresh "n" in let Q := fresh "Q" in
      destruct (create_driver_shape b o) as (n & -> & Q)
  | |- context [wait_for_page_load ?s ?b ?o] =>
      let r := fresh "r" in let n := fresh "n" in
      let H := fresh "Hr" in let Q := fresh "Q" in
      destruct (wait_for_page_load_shape s b o) as (r & n & -> & H & Q)
  | |- context [interact_with_app ?b ?o] =>
      let n := fresh "n" in let Q := fresh "Q" in
      destruct (interact_with_app_shape b o) as (n & -> & Q)
  end.

Ltac count_marks :=
  unfold marks in *;
  repeat progress
    (cbn [flat_map mark_of app Nat.leb];
     rewrite ?flat_map_app;
     repeat match goal with
            | Q : flat_map mark_of ?n = [] |- _ => rewrite Q
            end);
  reflexivity.

Ltac close_probe :=
  cbv beta iota; cbn [fst snd andb orb returns];
  rewrite <- ?app_assoc; cbn [app];
  eexists; split; [reflexivity | count_marks].

(** One call of [wake_up_app], whatever the network and the browser
    answer. *)
Lemma wake_up_app_shape (s : self) (b : session) (out : list event) :
exists new,
  wake_up_app lower s b out = (Ok (page_loads b), (out ++ new)%list)
  /\ marks new = attempt_marks b.
Proof.
unfold wake_up_app, finally, try_script, try_when, sbind, emit, call, ask,
  ret, page_loads, attempt_marks.
destruct (check_app_health_shape s b
            ((out ++ [Log Info (MsgWakingUp (app_url s))])
               ++ [Log Info (MsgCurrentTime (now b))])%list)
  as (healthy & n1 & -> & Q1).
cbv beta iota.
destruct healthy; cbv beta iota;
  (use_shape;
   destruct (create_driver_outcome b) as [[] | e0]; cbv beta iota;
   cbn [returns andb]; [ | close_probe];
   destruct (get_outcome b) as [[] | e1]; cbv beta iota;
   cbn [returns andb];
   [ | destruct (quit_outcome b) as [[] | eq]; close_probe];
   use_shape; destruct r as [[] | e2]; cbn [returns] in Hr; rewrite <- Hr;
   cbv beta iota; cbn [andb];
   [ | destruct (quit_outcome b) as [[] | eq]; close_probe];
   use_shape; cbv beta iota;
   destruct (title_outcome b) as [title | e3]; cbv beta iota;
   [ | destruct (quit_outcome b) as [[] | eq]; close_probe];
   destruct (contains "Streamlit" title); cbv beta iota; cbn [orb];
   [ destruct (quit_outcome b) as [[] | eq]; close_probe | ];
   destruct (page_source_outcome b) as [page_source | e4]; cbv beta iota;
   [ | destruct (quit_outcome b) as [[] | eq]; close_probe];
   destruct (contains "streamlit" (lower page_source)); cbv beta iota;
   destruct (quit_outcome b) as [[] | eq]; close_probe).
Qed.

(** One turn of the loop of [run]. *)
Lemma probe_attempts_step (s : self) (browser : nat -> session)
  (attempt remaining : nat) (out : list event) :
exists new,
  marks new = attempt_marks (browser attempt)
  /\ attempts lower s browser attempt (S remaining) out
     = if page_loads (browser attempt)
       then (Ok true, (out ++ new)%list)
       else attempts lower s browser (S attempt) remaining
              ((out ++ new)
                 ++ (if Nat.ltb attempt (max_retries s)
                     then [Log Info (MsgBackoff (30 * attempt));
                           Sleep (30 * attempt)]
                     else []))%list.
Proof.
cbn [attempts]. unfold try_script, try_when, sbind, emit, ret.
destruct (wake_up_app_shape s (browser attempt)
            (out ++ [Log Info (MsgAttempt attempt (max_retries s))])%list)
  as (new & -> & Hm).
destruct (page_loads (browser attempt)); cbv beta iota.
- exists (Log Info (MsgAttempt attempt (max_retries s))
            :: new ++ [Log Info (MsgAttemptSucceeded attempt)])%list.
  split; [ | now rewrite <- !app_assoc].
  change (marks (Log Info (MsgAttempt attempt (max_retries s))
                   :: new ++ [Log Info (MsgAttemptSucceeded attempt)]))
    with (marks (new ++ [Log Info (MsgAttemptSucceeded attempt)])).
  rewrite marks_app, Hm. apply app_nil_r.
- exists (Log Info (MsgAttempt attempt (max_retries s))
            :: new ++ [Log Warning (MsgAttemptFailed attempt)])%list.
  split.
  + change (marks (Log Info (MsgAttempt attempt (max_retries s))
                     :: new ++ [Log Warning (MsgAttemptFailed attempt)]))
      with (marks (new ++ [Log Warning (MsgAttemptFailed attempt)])).
    rewrite marks_app, Hm. apply app_nil_r.
  + destruct (Nat.ltb attempt (max_retries s)); cbv beta iota;
      f_equal; repeat progress (rewrite <- ?app_assoc; cbn [app]);
      rewrite ?app_nil_r; reflexivity.
Qed.

Lemma backoff_marks_of (i : nat) :
(1 <= i)%nat ->
marks [Log Info (MsgBackoff (30 * i)); Sleep (30 * i)] = backoff_marks i.
Proof.
intros Hi. unfold marks, backoff_marks. cbn [flat_map mark_of app].
replace (Nat.leb 30 (30 * i)) with true; [reflexivity | ].
symmetry. apply Nat.leb_le. lia.
Qed.

(** The loop from attempt [i] on, with [r] attempts left. *)
Lemma probe_attempts_shape (s : self) (browser : nat -> session)
  (r i : nat) (out : list event) :
(1 <= i)%nat -> (i + r = max_retries s + 1)%nat ->
exists new,
  attempts lower s browser i r out
  = (Ok (existsb (fun j => page_loads (browser j)) (seq i r)),
     (out ++ new)%list)
  /\ (existsb (fun j => page_loads (browser j)) (seq i r) = false ->
      marks new
      = flat_map (fun j => attempt_marks (browser j)
                           ++ if Nat.ltb j (max_retries s)
                              then backoff_marks j else [])%list
          (seq i r)).
Proof.
revert i out. induction r as [ | r IH]; intros i out Hi Hir.
- exists []. cbn. rewrite app_nil_r. now split.
- destruct (probe_attempts_step s browser i r out) as (new & Hm & ->).
  cbn [seq existsb flat_map].
  destruct (page_loads (browser i)); cbn [orb].
  + exists new. split; [reflexivity | discriminate].
  + destruct (IH (S i)
                ((out ++ new)
                   ++ (if Nat.ltb i (max_retries s)
                       then [Log Info (MsgBackoff (30 * i)); Sleep (30 * i)]
                       else []))%list ltac:(lia) ltac:(lia))
      as (more & -> & Hall).
    exists (new ++ (if Nat.ltb i (max_retries s)
                    then [Log Info (MsgBackoff (30 * i)); Sleep (30 * i)]
                    else []) ++ more)%list.
    split; [now rewrite <- !app_assoc | ].
    intros Hno. rewrite !marks_app, Hm, (Hall Hno), <- app_assoc.
    f_equal. f_equal.
    destruct (Nat.ltb i (max_retries s)); [now apply backoff_marks_of | ].
    reflexivity.
Qed.

(** The loop up to its first successful attempt [k]. *)
Lemma probe_first_success (s : self) (browser : nat -> session)
  (r i k : nat) (out : list event) :
(1 <= i)%nat -> (i + r = max_retries s + 1)%nat -> (i <= k < i + r)%nat ->
(forall j, (i <= j < k)%nat -> page_loads (browser j) = false) ->
page_loads (browser k) = true ->
exists new,
  attempts lower s browser i r out = (Ok true, (out ++ new)%list)
  /\ marks new
     = (flat_map (fun j => attempt_marks (browser j) ++ backoff_marks j)
          (seq i (k - i))
        ++ attempt_marks (browser k))%list.
Proof.
revert i out. induction r as [ | r IH]; intros i out Hi Hir Hk Hfail Hwk;
  [lia | ].
destruct (probe_attempts_step s browser i r out) as (new & Hm & ->).
destruct (Nat.eq_dec i k) as [-> | Hne].
- rewrite Hwk. exists new. split; [reflexivity | ].
  rewrite Nat.sub_diag. exact Hm.
- rewrite (Hfail i) by lia.
  replace (Nat.ltb i (max_retries s)) with true
    by (symmetry; apply Nat.ltb_lt; lia).
  destruct (IH (S i)
              ((out ++ new)
                 ++ [Log Info (MsgBackoff (30 * i)); Sleep (30 * i)])%list
              ltac:(lia) ltac:(lia) ltac:(lia)
              ltac:(intros j Hj; apply Hfail; lia) Hwk)
    as (more & -> & Hmore).
  exists (new ++ [Log Info (MsgBackoff (30 * i)); Sleep (30 * i)]
            ++ more)%list.
  split; [now rewrite <- !app_assoc | ].
  rewrite !marks_app, Hm, Hmore, (backoff_marks_of i Hi).
  replace (k - i)%nat with (S (k - S i)) by lia.
  cbn [seq flat_map]. now rewrite <- !app_assoc.
Qed.

End ProbeFacts.

(** X19: [wake_up_app] never raises, and it returns [True] exactly when the
    page loads: the driver comes up, [get] returns, the page gets ready,
    the selector loop ends, and the title, or failing that the page
    source, can be read.  What the health check answered, how the
    scrolling and the look for clickable elements went, and whether the
    driver could be quit make no difference to the result. *)
Theorem wake_up_app_succeeds_when_the_page_loads
  (lower : string -> string) (s : StreamlitWakeUp.self)
  (out : list StreamlitWakeUp.event) :
(forall b,
   fst (StreamlitWakeUp.wake_up_app lower s b out) = Ok (page_loads b))
/\ (forall now health create get ready element scroll found title source quit
           now' health' scroll' found' quit',
      fst (StreamlitWakeUp.wake_up_app lower s
             (StreamlitWakeUp.mk_session now health create get ready element
                scroll found title source quit) out)
      = fst (StreamlitWakeUp.wake_up_app lower s
               (StreamlitWakeUp.mk_session now' health' create get ready
                  element scroll' found' title source quit') out)).
Proof.
assert (H : forall b,
          fst (StreamlitWakeUp.wake_up_app lower s b out)
          = Ok (page_loads b)).
{ intros b. destruct (wake_up_app_shape lower s b out) as (new & -> & _).
  reflexivity. }
split; [exact H | ].
intros. rewrite !H. reflexivity.
Qed.

(** X20: Every call of [wake_up_app] starts exactly one driver, whatever the
    health check answered, and quits it exactly when it came up: on
    success, on failure, and also when quitting raises. *)
Theorem probe_quits_the_driver_it_started
  (lower : string -> string) (s : StreamlitWakeUp.self)
  (b : StreamlitWakeUp.session) (out : list StreamlitWakeUp.event) :
exists new,
  snd (StreamlitWakeUp.wake_up_app lower s b out) = (out ++ new)%list
  /\ marks new
     = Started :: (if returns (StreamlitWakeUp.create_driver_outcome b)
                   then [Closed] else []).
Proof.
destruct (wake_up_app_shape lower s b out) as (new & -> & Hm).
exists new. split; [reflexivity | exact Hm].
Qed.

(** X21: [run] never raises; its exit code is 0 when one of the attempts
    [1..max_retries] loads the page and 1 otherwise. *)
Theorem run_exit_code
  (lower : string -> string) (s : StreamlitWakeUp.self)
  (browser : nat -> StreamlitWakeUp.session)
  (out : list StreamlitWakeUp.event) :
fst (StreamlitWakeUp.run lower s browser out)
= Ok (if existsb (fun i => page_loads (browser i))
           (seq 1 (StreamlitWakeUp.max_retries s))
      then 0 else 1).
Proof.
unfold StreamlitWakeUp.run, sbind.
destruct (probe_attempts_shape lower s browser
            (StreamlitWakeUp.max_retries s) 1 out ltac:(lia) ltac:(lia))
  as (new & -> & _).
destruct (existsb _ _); reflexivity.
Qed.

(** X22: When no attempt loads the page, [run] returns 1 after
    [max_retries] attempts; after attempt [i] it announces and sleeps
    [30 * i] seconds, a wait that grows with each attempt, except after
    the last. *)
Theorem run_backs_off_longer_each_time
  (lower : string -> string) (s : StreamlitWakeUp.self)
  (browser : nat -> StreamlitWakeUp.session)
  (out : list StreamlitWakeUp.event)
  (Hfail : forall i, (1 <= i <= StreamlitWakeUp.max_retries s)%nat ->
                     page_loads (browser i) = false) :
exists new,
  StreamlitWakeUp.run lower s browser out = (Ok 1, (out ++ new)%list)
  /\ marks new
     = flat_map (fun i => attempt_marks (browser i)
                          ++ if Nat.ltb i (StreamlitWakeUp.max_retries s)
                             then backoff_marks i else [])%list
         (seq 1 (StreamlitWakeUp.max_retries s)).
Proof.
unfold StreamlitWakeUp.run, sbind.
destruct (probe_attempts_shape lower s browser
            (StreamlitWakeUp.max_retries s) 1 out ltac:(lia) ltac:(lia))
  as (new & -> & Hall).
assert (Hno : existsb (fun j => page_loads (browser j))
                (seq 1 (StreamlitWakeUp.max_retries s)) = false).
{ destruct (existsb _ _) eqn:E; [ | reflexivity].
  apply existsb_exists in E. destruct E as (i & Hin & Hi).
  apply in_seq in Hin. rewrite Hfail in Hi by lia. discriminate. }
rewrite Hno. unfold emit, ret.
exists (new ++ [StreamlitWakeUp.Log StreamlitWakeUp.LogError
                  StreamlitWakeUp.MsgTaskFailed])%list.
split; [now rewrite app_assoc | ].
rewrite marks_app, (Hall Hno). apply app_nil_r.
Qed.

Lemma run_backs_off_longer_each_time_witness :
exists new,
  StreamlitWakeUp.run lower_ascii (StreamlitWakeUp.mk_self "https://app" 3 30)
    always_down []
  = (Ok 1, new)
  /\ marks new
     = [Started; Closed; Announced 30; Paused 30;
        Started; Closed; Announced 60; Paused 60;
        Started; Closed].
Proof.
apply (run_backs_off_longer_each_time lower_ascii
         (StreamlitWakeUp.mk_self "https://app" 3 30) always_down []).
intros i Hi. reflexivity.
Defined.

(** X23: When attempt [k] is the first that loads the page, [run] returns 0
    and makes no further attempt: each failed attempt before it is
    followed by its backoff, and nothing but the closing log line
    follows the quit of attempt [k]. *)
Theorem run_stops_at_first_success
  (lower : string -> string) (s : StreamlitWakeUp.self)
  (browser : nat -> StreamlitWakeUp.session)
  (out : list StreamlitWakeUp.event) (k : nat)
  (Hk : (1 <= k <= StreamlitWakeUp.max_retries s)%nat)
  (Hfail : forall i, (1 <= i < k)%nat -> page_loads (browser i) = false)
  (Hload : page_loads (browser k) = true) :
exists new,
  StreamlitWakeUp.run lower s browser out = (Ok 0, (out ++ new)%list)
  /\ marks new
     = (flat_map (fun i => attempt_marks (browser i) ++ backoff_marks i)
          (seq 1 (k - 1))
        ++ attempt_marks (browser k))%list.
Proof.
unfold StreamlitWakeUp.run, sbind.
destruct (probe_first_success lower s browser
            (StreamlitWakeUp.max_retries s) 1 k out ltac:(lia) ltac:(lia)
            ltac:(lia) Hfail Hload)
  as (new & -> & Hm).
unfold emit, ret.
exists (new ++ [StreamlitWakeUp.Log StreamlitWakeUp.Info
                  StreamlitWakeUp.MsgTaskDone])%list.
split; [now rewrite app_assoc | ].
rewrite marks_app, Hm. apply app_nil_r.
Qed.

Lemma run_stops_at_first_success_witness :
exists new,
  StreamlitWakeUp.run lower_ascii (StreamlitWakeUp.mk_self "https://app" 5 30)
    up_on_third []
  = (Ok 0, new)
  /\ marks new
     = [Started; Closed; Announced 30; Paused 30;
        Started; Closed; Announced 60; Paused 60;
        Started; Closed].
Proof.
apply (run_stops_at_first_success lower_ascii
         (StreamlitWakeUp.mk_self "https://app" 5 30) up_on_third [] 3).
- cbn. lia.
- intros i Hi. assert (i = 1 \/ i = 2)%nat as [-> | ->] by lia; reflexivity.
- reflexivity.
Defined.

(** X24: [main] of the probe: without [STREAMLIT_URL], or with an empty one,
    it prints its two lines and exits with status 1 before any logging
    is set up or any request is made; with a URL it prints its first
    line, builds the object with three retries, and its status is that
    of [run].  The exceptions that escape are those of [print], after
    which nothing more is done, and the one raised while logging is set
    up. *)
Theorem probe_main_exit_status
  (lower : string -> string) (environ : dict string)
  (stdout : StreamlitWakeUp.printed -> result unit)
  (setup_logging_outcome : result unit)
  (browser : nat -> StreamlitWakeUp.session)
  (out : list StreamlitWakeUp.event) :
let main :=
  StreamlitWakeUp.main lower environ stdout setup_logging_outcome browser out
in
match get environ "STREAMLIT_URL" with
| Some (String c rest) =>
    let starting := StreamlitWakeUp.PrintStarting (String c rest) in
    match stdout starting, setup_logging_outcome with
    | Raise e, _ =>
        main = (Raise e, (out ++ [StreamlitWakeUp.Print starting])%list)
    | Ok _, Raise e =>
        main
        = (Raise e,
           (out ++ [StreamlitWakeUp.Print starting;
                    StreamlitWakeUp.SetupLogging])%list)
    | Ok _, Ok _ =>
        exists new,
          main
          = (Ok (if existsb (fun i => page_loads (browser i)) (seq 1 3)
                 then 0 else 1),
             (out ++ StreamlitWakeUp.Print starting
                  :: StreamlitWakeUp.SetupLogging :: new)%list)
    end
| _ =>
    match stdout StreamlitWakeUp.PrintUrlUnset,
          stdout StreamlitWakeUp.PrintSetSecret with
    | Raise e, _ =>
        main
        = (Raise e,
           (out ++ [StreamlitWakeUp.Print StreamlitWakeUp.PrintUrlUnset])%list)
    | Ok _, Raise e =>
        main
        = (Raise e,
           (out ++ [StreamlitWakeUp.Print StreamlitWakeUp.PrintUrlUnset;
                    StreamlitWakeUp.Print StreamlitWakeUp.PrintSetSecret])%list)
    | Ok _, Ok _ =>
        main
        = (Ok 1,
           (out ++ [StreamlitWakeUp.Print StreamlitWakeUp.PrintUrlUnset;
                    StreamlitWakeUp.Print StreamlitWakeUp.PrintSetSecret])%list)
    end
end.
Proof.
cbv zeta. unfold StreamlitWakeUp.main.
destruct (get environ "STREAMLIT_URL") as [[ | c rest] | ];
  try (unfold sbind, call, ret;
       destruct (stdout StreamlitWakeUp.PrintUrlUnset) as [[] | e1];
       [ destruct (stdout StreamlitWakeUp.PrintSetSecret) as [[] | e2];
         now rewrite <- app_assoc
       | reflexivity ]).
unfold sbind at 1 2, call.
destruct (stdout (StreamlitWakeUp.PrintStarting (String c rest))) as [[] | e1];
  [ | reflexivity].
destruct setup_logging_outcome as [[] | e];
  [ | unfold sbind; now rewrite <- app_assoc].
unfold StreamlitWakeUp.run, sbind.
destruct (probe_attempts_shape lower
            (StreamlitWakeUp.mk_self (String c rest) 3 30) browser 3 1
            ((out ++ [StreamlitWakeUp.Print
                        (StreamlitWakeUp.PrintStarting (String c rest))])
               ++ [StreamlitWakeUp.SetupLogging])%list
            ltac:(lia) eq_refl)
  as (new & Heq & _).
cbn [StreamlitWakeUp.max_retries]. rewrite Heq.
unfold emit, ret.
destruct (existsb _ _); eexists;
  repeat progress (rewrite <- ?app_assoc; cbn [app]); reflexivity.
Qed.
